(** * The officer scoring tool

    A shallow embedding of the scoring tool and the properties proved of it.

    - The report parser of [src/app/lib/scoring/officer-scorer.ts]
      ([parseOfficerReport] and the extractors it calls), with the reference
      data of the type-definition module ([VISA_CRITERIA],
      [MINIMUM_CRITERIA]).
    - The comparison route ([compareCriteria], [findResolvedItems],
      [findNewItems], [generateComparisonSummary] and the handler).
    - The AI client ([retryWithBackoff], [callClaude], [callOpenAI],
      [callAIWithFallback]), [runOfficerScoring], [downloadWithRetry] and
      the document builders of the background function and of the score
      route.
    - The usage tracker and the part of the Stripe webhook that writes to
      its table.
    - The category detectors, the identifier pattern, the display helpers
      of the result page and of the PDF export, and [sanitizeFilename].

    Conventions.

    - JavaScript strings are lists of UTF-16 code units ([N]).
    - The numbers that the parser handles are integers; they are modelled
      as [Z], the integer that [parseInt] reads.  The Number that JavaScript
      makes of it is that integer below 2^53; above that bound it is rounded
      (and is [Infinity] past 1.8e308), which [Double.of_Z] models, and
      [extractScoreNumber] is [extractScore] with the Number it returns.
      Rounding is monotone, so the comparisons of a parsed value with the
      small thresholds of the program are the same on the integer and on the
      Number.
    - Regular expressions are values of type [regex], run by a backtracking
      matcher [mt] that follows the priority order of the ECMAScript
      algorithm (leftmost start, alternatives left to right, greedy
      quantifiers longest first, lazy quantifiers shortest first).
    - The three ways in which the JavaScript code could stop producing a
      number or a string (a capture group that is [undefined], [parseInt]
      answering [NaN], a loop that does not end) are explicit in the
      [result] type.
    - A remote call (an AI provider, the storage, the database) is modelled
      by what it answers; an [async] function by its outcome, the number of
      calls it made and the delays it waited. *)

From Stdlib Require Import List ZArith NArith Lia Bool String Ascii DecimalString.
Import ListNotations.

(** ** Strings *)

Module JS.

Definition code := N.
Definition jsstring := list code.

(** An ASCII literal as a JavaScript string. *)
Fixpoint str (s : string) : jsstring :=
  match s with
  | EmptyString => []
  | String a t => N_of_ascii a :: str t
  end.

Definition LF : code := 10%N.
Definition BULLET : code := 8226%N.   (* U+2022 *)

Definition cls := code -> bool.

Definition eqc (a : ascii) : cls := fun c => N.eqb c (N_of_ascii a).
Definition neqc (a : ascii) : cls := fun c => negb (N.eqb c (N_of_ascii a)).
Definition any : cls := fun _ => true.            (* [^] *)
Definition digit : cls := fun c => (N.leb 48 c && N.leb c 57)%bool.   (* \d *)

(** [\s], which is also the set removed by [trim] and skipped by
    [parseInt]: WhiteSpace and LineTerminator of ECMAScript. *)
Definition ws : cls := fun c =>
  ((N.leb 9 c && N.leb c 13) || N.eqb c 32 || N.eqb c 160 || N.eqb c 5760
   || (N.leb 8192 c && N.leb c 8202) || N.eqb c 8232 || N.eqb c 8233
   || N.eqb c 8239 || N.eqb c 8287 || N.eqb c 12288 || N.eqb c 65279)%bool.

(** [.] without the [s] flag: anything but a line terminator. *)
Definition dot : cls := fun c =>
  negb (N.eqb c 10 || N.eqb c 13 || N.eqb c 8232 || N.eqb c 8233)%bool.

Definition is_upper : cls := fun c => (N.leb 65 c && N.leb c 90)%bool.
Definition is_lower : cls := fun c => (N.leb 97 c && N.leb c 122)%bool.

(** A pattern character under the [i] flag.  Without the [u] flag the
    canonicalisation is [toUpperCase], and a code unit above 127 is never
    identified with one below 128: a letter matches its two ASCII cases and
    nothing else. *)
Definition ci (a : ascii) : cls := fun c =>
  let n := N_of_ascii a in
  if is_upper n then (N.eqb c n || N.eqb c (n + 32))%bool
  else if is_lower n then (N.eqb c n || N.eqb c (n - 32))%bool
  else N.eqb c n.

(** [String.prototype.toLowerCase].  Only the mappings whose image contains
    an ASCII code unit are modelled: A-Z, U+212A (Kelvin sign, to k) and
    U+0130 (to i followed by U+0307).  Every other mapping of the Unicode
    tables sends a non-ASCII code unit to non-ASCII code units, which the
    ASCII keywords searched by this program cannot see. *)
Definition lower1 (c : code) : jsstring :=
  if is_upper c then [(c + 32)%N]
  else if N.eqb c 8490 then [107%N]
  else if N.eqb c 304 then [105%N; 775%N]
  else [c].

Definition toLowerCase (s : jsstring) : jsstring := flat_map lower1 s.

Fixpoint startsWith (p s : jsstring) : bool :=
  match p, s with
  | [], _ => true
  | a :: p', b :: s' => (N.eqb a b && startsWith p' s')%bool
  | _ :: _, [] => false
  end.

(** [String.prototype.includes]. *)
Fixpoint includes (s sub : jsstring) : bool :=
  (startsWith sub s ||
   match s with
   | [] => false
   | _ :: t => includes t sub
   end)%bool.

Fixpoint dropWhile (c : cls) (s : jsstring) : jsstring :=
  match s with
  | x :: t => if c x then dropWhile c t else s
  | [] => []
  end.

Fixpoint takeWhile (c : cls) (s : jsstring) : jsstring :=
  match s with
  | x :: t => if c x then x :: takeWhile c t else []
  | [] => []
  end.

(** [String.prototype.trim]. *)
Definition trim (s : jsstring) : jsstring :=
  rev (dropWhile ws (rev (dropWhile ws s))).

(** [s.split('\n')]: never empty, one more piece than there are line feeds. *)
Fixpoint split_lines (s : jsstring) : list jsstring :=
  match s with
  | [] => [[]]
  | x :: t =>
      if N.eqb x LF then [] :: split_lines t
      else match split_lines t with
           | l :: ls => (x :: l) :: ls
           | [] => [[x]]
           end
  end.

(** [String(n)] for a non-negative integer. *)
Definition decimal (n : nat) : jsstring :=
  str (NilEmpty.string_of_uint (Nat.to_uint n)).

(** *** Outcomes of an operation that JavaScript may not complete *)

Inductive failure :=
| UndefinedGroup     (* a method called on, or a string expected from, [undefined] *)
| NotANumber         (* [parseInt] found no digit *)
| OutOfFuel.         (* a [while] loop did not end within the fuel given *)

Inductive result (A : Type) :=
| Ok (a : A)
| Err (e : failure).

Arguments Ok {A} a.
Arguments Err {A} e.

Definition bind {A B} (m : result A) (f : A -> result B) : result B :=
  match m with
  | Ok a => f a
  | Err e => Err e
  end.

Definition digit_val (c : code) : Z := Z.of_N c - 48.

Definition digits_val (ds : jsstring) : Z :=
  fold_left (fun acc d => 10 * acc + digit_val d)%Z ds 0%Z.

(** [parseInt(s, 10)]: leading white space, an optional sign, then the
    longest run of decimal digits; [NaN] when that run is empty.  The value
    is the integer that the digits denote; the Number that JavaScript makes
    of it is [Double.of_Z] of this value, see [parseIntNumber] below. *)
Definition parseInt (s : jsstring) : result Z :=
  let s1 := dropWhile ws s in
  let '(sign, s2) :=
    match s1 with
    | x :: t =>
        if N.eqb x 43 then (1%Z, t)            (* + *)
        else if N.eqb x 45 then ((-1)%Z, t)    (* - *)
        else (1%Z, s1)
    | [] => (1%Z, s1)
    end in
  match takeWhile digit s2 with
  | [] => Err NotANumber
  | ds => Ok (sign * digits_val ds)%Z
  end.

End JS.

Import JS.

Notation "x <- m ;; f" := (bind m (fun x => f))
  (at level 61, m at next level, right associativity).

(** ** Regular expressions *)

Module RegExp.

(** The fragment of the ECMAScript pattern language that the parser uses.
    Every quantifier of the program applies to a single character class, so
    [Star] takes a class; [c+] is [Seq (Chr c) (Star g c)] and [r?] is
    [Alt r Eps]. *)
Inductive regex :=
| Eps
| Chr (c : cls)
| Seq (a b : regex)
| Alt (a b : regex)
| Star (greedy : bool) (c : cls)
| Cap (i : nat) (a : regex)
| Look (a : regex)           (* (?= a) *)
| Bos                        (* ^ without the m flag *)
| Eos.                       (* $ without the m flag *)

Definition captures := list (nat * jsstring).

Fixpoint get_cap (i : nat) (cs : captures) : option jsstring :=
  match cs with
  | [] => None
  | (j, s) :: cs' => if Nat.eqb i j then Some s else get_cap i cs'
  end.

Record state := mkState { pos : nat; rest : jsstring; caps : captures }.

Definition set_cap (i : nat) (s : jsstring) (st : state) : state :=
  mkState (pos st) (rest st) ((i, s) :: caps st).

Fixpoint star_greedy {R : Type} (c : cls) (p : nat) (s : jsstring)
    (k : nat -> jsstring -> option R) : option R :=
  match s with
  | x :: t =>
      if c x then
        match star_greedy c (S p) t k with
        | Some r => Some r
        | None => k p s
        end
      else k p s
  | [] => k p s
  end.

Fixpoint star_lazy {R : Type} (c : cls) (p : nat) (s : jsstring)
    (k : nat -> jsstring -> option R) : option R :=
  match k p s with
  | Some r => Some r
  | None =>
      match s with
      | x :: t => if c x then star_lazy c (S p) t k else None
      | [] => None
      end
  end.

(** The backtracking matcher, in continuation-passing style: [mt r st k]
    tries the ways in which [r] matches at [st] in priority order and
    answers the first result that the continuation [k] accepts. *)
Fixpoint mt {R : Type} (r : regex) (st : state) (k : state -> option R)
    {struct r} : option R :=
  match r with
  | Eps => k st
  | Chr c =>
      match rest st with
      | x :: t => if c x then k (mkState (S (pos st)) t (caps st)) else None
      | [] => None
      end
  | Seq a b => mt a st (fun st1 => mt b st1 k)
  | Alt a b =>
      match mt a st k with
      | Some x => Some x
      | None => mt b st k
      end
  | Star true c =>
      star_greedy c (pos st) (rest st) (fun p s => k (mkState p s (caps st)))
  | Star false c =>
      star_lazy c (pos st) (rest st) (fun p s => k (mkState p s (caps st)))
  | Cap i a =>
      mt a st (fun st1 =>
        k (set_cap i (firstn (pos st1 - pos st) (rest st)) st1))
  | Look a =>
      match mt a st (@Some state) with
      | Some st1 => k (mkState (pos st) (rest st) (caps st1))
      | None => None
      end
  | Bos => if Nat.eqb (pos st) 0 then k st else None
  | Eos =>
      match rest st with
      | [] => k st
      | _ :: _ => None
      end
  end.

(** Leftmost match at or after position [p], [s] being the input from [p]
    on.  The captures are reset at every start position. *)
Fixpoint search (r : regex) (p : nat) (s : jsstring) : option (nat * state) :=
  match mt r (mkState p s []) (@Some state) with
  | Some st => Some (p, st)
  | None =>
      match s with
      | [] => None
      | _ :: t => search r (S p) t
      end
  end.

(** The match array of [exec]: index, [m[0]], the groups, and what follows
    the match in the input. *)
Record MatchResult := mkMatch {
  m_index : nat;
  m_0 : jsstring;
  m_groups : captures;
  m_end : nat;
  m_after : jsstring
}.

(** [RegExp.prototype.exec] with [lastIndex = from], which fails at once
    when [from] is beyond the end of the input; [String.prototype.match]
    without the [g] flag is [exec] from 0. *)
Definition exec_from (r : regex) (from : nat) (s : jsstring) : option MatchResult :=
  if (List.length s <? from)%nat then None
  else
    match search r from (skipn from s) with
    | Some (i, st) =>
        Some (mkMatch i (firstn (pos st - i) (skipn i s)) (caps st) (pos st) (rest st))
    | None => None
    end.

Definition exec (r : regex) (s : jsstring) : option MatchResult := exec_from r 0 s.

Definition test (r : regex) (s : jsstring) : bool :=
  match exec r s with Some _ => true | None => false end.

(** [s.replace(r, '')] for a pattern without the [g] flag. *)
Definition replace_empty (r : regex) (s : jsstring) : jsstring :=
  match exec r s with
  | Some m => firstn (m_index m) s ++ m_after m
  | None => s
  end.

(** [m[i]] used where a string is required. *)
Definition group (m : MatchResult) (i : nat) : result jsstring :=
  match get_cap i (m_groups m) with
  | Some s => Ok s
  | None => Err UndefinedGroup
  end.

(** *** Pattern combinators *)

Definition seqs (rs : list regex) : regex := fold_right Seq Eps rs.
Definition plus (c : cls) : regex := Seq (Chr c) (Star true c).
Definition plus_lazy (c : cls) : regex := Seq (Chr c) (Star false c).
Definition opt (r : regex) : regex := Alt r Eps.

Fixpoint lit (s : string) : regex :=
  match s with
  | EmptyString => Eps
  | String a t => Seq (Chr (eqc a)) (lit t)
  end.

Fixpoint liti (s : string) : regex :=
  match s with
  | EmptyString => Eps
  | String a t => Seq (Chr (ci a)) (liti t)
  end.

(** A run of code units spliced into a pattern source under the [i] flag
    (digits and spaces have no case). *)
Fixpoint lits (s : jsstring) : regex :=
  match s with
  | [] => Eps
  | x :: t => Seq (Chr (N.eqb x)) (lits t)
  end.

End RegExp.

Import RegExp.

(** ** Data model (the type-definition module) *)

Inductive VisaType := P_1A | O_1A | O_1B | EB_1A.

Inductive CriterionRating := Strong | Adequate | Weak | Insufficient | NotClaimed.

Inductive OverallRating := Approve | RFELikely | DenialRisk.

Inductive Quality := Excellent | Good | Fair | Poor.

Module Assessment.
Inductive t := Strong | Moderate | Weak | Insufficient.
End Assessment.

Record Criterion := mkCriterion {
  number : nat;
  letter : string;
  name : string
}.

Record CriterionScore := mkCriterionScore {
  criterionNumber : nat;
  criterionName : string;
  rating : CriterionRating;
  score : Z;
  evidenceQuality : Quality;
  officerConcerns : list jsstring;
  strengths : list jsstring;
  suggestions : list jsstring
}.

Record RFEPrediction := mkRFEPrediction {
  topic : jsstring;
  probability : Z;
  officerPerspective : jsstring;
  suggestedEvidence : list jsstring
}.

Record EvidenceQuality := mkEvidenceQuality {
  tier1Count : Z;
  tier2Count : Z;
  tier3Count : Z;
  tier4Count : Z;
  overallAssessment : Assessment.t;
  concerns : list jsstring
}.

Record Recommendations := mkRecommendations {
  critical : list jsstring;
  high : list jsstring;
  recommended : list jsstring
}.

(** [Omit<RawScoringOutput, 'fullReport'>], what [parseOfficerReport]
    returns.  The record lives in a module of its own because two of its
    fields share their names with fields of [CriterionScore]. *)
Module Report.
Record t := mk {
  overallScore : Z;
  overallRating : OverallRating;
  approvalProbability : Z;
  rfeProbability : Z;
  denialRisk : Z;
  criteriaScores : list CriterionScore;
  evidenceQuality : EvidenceQuality;
  rfePredictions : list RFEPrediction;
  weaknesses : list jsstring;
  strengths : list jsstring;
  recommendations : Recommendations
}.
End Report.

Definition VISA_CRITERIA (v : VisaType) : list Criterion :=
  match v with
  | O_1A =>
      [ mkCriterion 1 "A" "Nationally or internationally recognized prizes or awards";
        mkCriterion 2 "B" "Membership in associations requiring outstanding achievements";
        mkCriterion 3 "C" "Published material about the beneficiary";
        mkCriterion 4 "D" "Participation as a judge of others' work";
        mkCriterion 5 "E" "Original contributions of major significance";
        mkCriterion 6 "F" "Authorship of scholarly articles";
        mkCriterion 7 "G" "Employment in a critical or essential capacity";
        mkCriterion 8 "H" "High salary or remuneration" ]
  | O_1B =>
      [ mkCriterion 1 "A" "Performed as a lead or starring participant";
        mkCriterion 2 "B" "Critical reviews or other published material";
        mkCriterion 3 "C" "Performed for organizations with distinguished reputation";
        mkCriterion 4 "D" "Record of major commercial or critically acclaimed successes";
        mkCriterion 5 "E" "Received significant recognition from organizations, critics, or experts";
        mkCriterion 6 "F" "High salary or substantial remuneration" ]
  | P_1A =>
      [ mkCriterion 1 "A" "International recognition in the sport";
        mkCriterion 2 "B" "Significant participation with a major United States sports league";
        mkCriterion 3 "C" "Significant participation in international competition";
        mkCriterion 4 "D" "Significant participation in a prior season with a major U.S. college";
        mkCriterion 5 "E" "Written statement from an official of the sport";
        mkCriterion 6 "F" "International ranking" ]
  | EB_1A =>
      [ mkCriterion 1 "A" "Nationally or internationally recognized prizes or awards";
        mkCriterion 2 "B" "Membership in associations requiring outstanding achievements";
        mkCriterion 3 "C" "Published material about the beneficiary";
        mkCriterion 4 "D" "Participation as a judge of others' work";
        mkCriterion 5 "E" "Original contributions of major significance";
        mkCriterion 6 "F" "Authorship of scholarly articles";
        mkCriterion 7 "G" "Display of work at artistic exhibitions";
        mkCriterion 8 "H" "Leading or critical role in distinguished organizations";
        mkCriterion 9 "I" "High salary or remuneration";
        mkCriterion 10 "J" "Commercial successes in the performing arts" ]
  end.

(** Minimum criteria required per visa type. *)
Definition MINIMUM_CRITERIA (v : VisaType) : nat :=
  match v with
  | O_1A => 3
  | O_1B => 3
  | P_1A => 2
  | EB_1A => 3
  end.

(** ** The patterns of the scorer *)

Module Pat.

Definition colon_ws : cls := fun c => (N.eqb c 58 || ws c)%bool.      (* [:\s] *)
Definition not_pipe : cls := neqc "|".                                (* [^|] *)
Definition not_hash : cls := neqc "#".                                (* [^#] *)
Definition not_lf : cls := fun c => negb (N.eqb c LF).                (* [^\n] *)
Definition bullet : cls :=                                            (* [-*•] *)
  fun c => (N.eqb c 45 || N.eqb c 42 || N.eqb c BULLET)%bool.
Definition marker : cls :=                                            (* [-*•\d.] *)
  fun c => (bullet c || digit c || N.eqb c 46)%bool.

(** [/\*\*TOTAL\*\*[^|]*\|[^|]*\|[^|]*\|\s*\*?\*?(\d+)\s*\/\s*100/i] *)
Definition total : regex :=
  seqs [ liti "**TOTAL**"; Star true not_pipe; Chr (eqc "|");
         Star true not_pipe; Chr (eqc "|"); Star true not_pipe; Chr (eqc "|");
         Star true ws; opt (Chr (eqc "*")); opt (Chr (eqc "*"));
         Cap 1 (plus digit); Star true ws; Chr (eqc "/"); Star true ws;
         lit "100" ].

(** [/overall\s+score[:\s]*(\d+)\s*(?:\/\s*100)?/i] *)
Definition overall : regex :=
  seqs [ liti "overall"; plus ws; liti "score"; Star true colon_ws;
         Cap 1 (plus digit); Star true ws;
         opt (seqs [ Chr (eqc "/"); Star true ws; lit "100" ]) ].

(** [/\*\*(\d+)\s*\/\s*100\*\*/] *)
Definition anyScore : regex :=
  seqs [ lit "**"; Cap 1 (plus digit); Star true ws; Chr (eqc "/");
         Star true ws; lit "100**" ].

(** [/<a>\s+<b>[:\s]*(\d+)\s*%/i], the shape of the three probability
    patterns. *)
Definition percent (a b : string) : regex :=
  seqs [ liti a; plus ws; liti b; Star true colon_ws; Cap 1 (plus digit);
         Star true ws; Chr (eqc "%") ].

Definition approval : regex := percent "approval" "probability".
Definition rfe : regex := percent "rfe" "probability".
Definition denial : regex := percent "denial" "risk".

(** [criterion\s*${n}], the common head of the three per-criterion patterns. *)
Definition criterionHead (n : nat) : regex :=
  seqs [ liti "criterion"; Star true ws; lits (decimal n) ].

(** [criterion\s*${n}[^]*?(?:my\s+rating|rating)[:\s]*([^\n]+)], flag [i] *)
Definition criterionRating (n : nat) : regex :=
  Seq (criterionHead n)
    (seqs [ Star false any;
            Alt (seqs [ liti "my"; plus ws; liti "rating" ]) (liti "rating");
            Star true colon_ws; Cap 1 (plus not_lf) ]).

(** [criterion\s*${n}[^]*?(?:evidence\s+score|score)[:\s]*(\d+)], flag [i] *)
Definition criterionScore (n : nat) : regex :=
  Seq (criterionHead n)
    (seqs [ Star false any;
            Alt (seqs [ liti "evidence"; plus ws; liti "score" ]) (liti "score");
            Star true colon_ws; Cap 1 (plus digit) ]).

(** [criterion\s*${n}[^]*?(?:my\s+concerns|concerns)[:\s]*([^#]+?)(?=\n\n|\*\*|$)],
    flag [i] *)
Definition criterionConcerns (n : nat) : regex :=
  Seq (criterionHead n)
    (seqs [ Star false any;
            Alt (seqs [ liti "my"; plus ws; liti "concerns" ]) (liti "concerns");
            Star true colon_ws; Cap 1 (plus_lazy not_hash);
            Look (Alt (lits [LF; LF]) (Alt (lit "**") Eos)) ]).

(** [/tier\s*<d>[^|]*\|\s*(\d+)/i] *)
Definition tier (d : string) : regex :=
  seqs [ liti "tier"; Star true ws; lit d; Star true not_pipe; Chr (eqc "|");
         Star true ws; Cap 1 (plus digit) ].

(** [/evidence.*?concerns[:\s]*([^#]+)/i] *)
Definition evidenceConcerns : regex :=
  seqs [ liti "evidence"; Star false dot; liti "concerns"; Star true colon_ws;
         Cap 1 (plus not_hash) ].

(** [/rfe\s+predictions?[^]*?(?=##|$)/i] *)
Definition rfeSection : regex :=
  seqs [ liti "rfe"; plus ws; liti "prediction"; opt (Chr (ci "s"));
         Star false any; Look (Alt (lit "##") Eos) ].

(** [/\|\s*([^|]+)\|\s*(\d+)\s*%?\s*\|\s*([^|]+)\|/g] *)
Definition row : regex :=
  seqs [ Chr (eqc "|"); Star true ws; Cap 1 (plus not_pipe); Chr (eqc "|");
         Star true ws; Cap 2 (plus digit); Star true ws; opt (Chr (eqc "%"));
         Star true ws; Chr (eqc "|"); Star true ws; Cap 3 (plus not_pipe);
         Chr (eqc "|") ].

(** [${keyword}[^]*?(?=##|\n\n\n|$)], flag [i] *)
Definition listSection (keyword : string) : regex :=
  seqs [ liti keyword; Star false any;
         Look (Alt (lit "##") (Alt (lits [LF; LF; LF]) Eos)) ].

(** [/^[-*•]/], [/^\d+\./] and [/^[-*•\d.]+\s*/] *)
Definition bulletStart : regex := Seq Bos (Chr bullet).
Definition numberedStart : regex := seqs [ Bos; plus digit; Chr (eqc ".") ].
Definition markerPrefix : regex := seqs [ Bos; plus marker; Star true ws ].

End Pat.

(** ** The scorer ([officer-scorer.ts]) *)

(** [parseInt(m[i], 10)] *)
Definition parseGroup (m : MatchResult) (i : nat) : result Z :=
  g <- group m i ;; parseInt g.

(** [report.toLowerCase().includes(kw)] *)
Definition lower_includes (report : jsstring) (kw : string) : bool :=
  includes (toLowerCase report) (str kw).

Definition extractScore (report : jsstring) : result Z :=
  match exec Pat.total report with
  | Some totalMatch => parseGroup totalMatch 1
  | None =>
  match exec Pat.overall report with
  | Some scoreMatch => parseGroup scoreMatch 1
  | None =>
  match exec Pat.anyScore report with
  | Some anyScore => parseGroup anyScore 1
  | None =>
      if (lower_includes report "strong approval" || lower_includes report "approve")%bool
      then Ok 75%Z
      else if lower_includes report "rfe likely" then Ok 60%Z
      else if (lower_includes report "denial" || lower_includes report "major revision")%bool
      then Ok 40%Z
      else Ok 55%Z
  end end end.

Definition getOverallRating (score : Z) : OverallRating :=
  if (score >=? 70)%Z then Approve
  else if (score >=? 50)%Z then RFELikely
  else DenialRisk.

Definition calculateApprovalProb (score : Z) : Z :=
  if (score >=? 85)%Z then 85
  else if (score >=? 70)%Z then 65
  else if (score >=? 55)%Z then 40
  else if (score >=? 40)%Z then 20
  else 10.

Definition calculateRFEProb (score : Z) : Z :=
  if (score >=? 85)%Z then 10
  else if (score >=? 70)%Z then 25
  else if (score >=? 55)%Z then 45
  else if (score >=? 40)%Z then 50
  else 40.

Record Probabilities := mkProbabilities { approval : Z; rfe : Z; denial : Z }.

Definition extractProbabilities (report : jsstring) (overallScore : Z)
  : result Probabilities :=
  let approvalMatch := exec Pat.approval report in
  let rfeMatch := exec Pat.rfe report in
  let denialMatch := exec Pat.denial report in
  approval <- match approvalMatch with
              | Some m => parseGroup m 1
              | None => Ok (calculateApprovalProb overallScore)
              end ;;
  rfe <- match rfeMatch with
         | Some m => parseGroup m 1
         | None => Ok (calculateRFEProb overallScore)
         end ;;
  denial <- match denialMatch with
            | Some m => parseGroup m 1
            | None => Ok (100 - approval - rfe)%Z
            end ;;
  Ok (mkProbabilities approval rfe (Z.max 0 denial)).

Definition parseRating (text : jsstring) : CriterionRating :=
  let lower := toLowerCase text in
  if includes lower (str "strong") then Strong
  else if includes lower (str "adequate") then Adequate
  else if includes lower (str "weak") then Weak
  else if includes lower (str "insufficient") then Insufficient
  else NotClaimed.

Definition ratingToScore (rating : CriterionRating) : Z :=
  match rating with
  | Strong => 85
  | Adequate => 70
  | Weak => 50
  | Insufficient => 30
  | NotClaimed => 0
  end.

Definition scoreToQuality (score : Z) : Quality :=
  if (score >=? 80)%Z then Excellent
  else if (score >=? 65)%Z then Good
  else if (score >=? 45)%Z then Fair
  else Poor.

(** The body of the loop of [extractBulletPoints]: the item pushed for one
    line, if any. *)
Definition bulletItem (line : jsstring) : option jsstring :=
  let trimmed := trim line in
  if (test Pat.bulletStart trimmed || test Pat.numberedStart trimmed)%bool then
    let content := trim (replace_empty Pat.markerPrefix trimmed) in
    match content with
    | [] => None
    | _ :: _ => if (5 <? List.length content)%nat then Some content else None
    end
  else None.

Fixpoint bullets_loop (lines : list jsstring) (items : list jsstring)
  : list jsstring :=
  match lines with
  | [] => items
  | line :: lines' =>
      match bulletItem line with
      | Some content => bullets_loop lines' (items ++ [content])
      | None => bullets_loop lines' items
      end
  end.

Definition extractBulletPoints (text : jsstring) : list jsstring :=
  bullets_loop (split_lines text) [].

(** The body of the loop of [extractCriteriaScores]. *)
Definition scoreCriterion (report : jsstring) (criterion : Criterion)
  : result CriterionScore :=
  let match_ := exec (Pat.criterionRating (number criterion)) report in
  let scoreMatch := exec (Pat.criterionScore (number criterion)) report in
  rating <- match match_ with
            | Some m => t <- group m 1 ;; Ok (parseRating t)
            | None => Ok NotClaimed
            end ;;
  score <- match scoreMatch with
           | Some m => parseGroup m 1
           | None => Ok (ratingToScore rating)
           end ;;
  let concernsMatch := exec (Pat.criterionConcerns (number criterion)) report in
  concerns <- match concernsMatch with
              | Some m => t <- group m 1 ;; Ok (extractBulletPoints t)
              | None => Ok []
              end ;;
  Ok (mkCriterionScore (number criterion) (name criterion) rating score
        (scoreToQuality score) concerns [] []).

Fixpoint criteria_loop (report : jsstring) (criteria : list Criterion)
    (scores : list CriterionScore) : result (list CriterionScore) :=
  match criteria with
  | [] => Ok scores
  | criterion :: criteria' =>
      cs <- scoreCriterion report criterion ;;
      criteria_loop report criteria' (scores ++ [cs])
  end.

Definition extractCriteriaScores (report : jsstring) (visaType : VisaType)
  : result (list CriterionScore) :=
  criteria_loop report (VISA_CRITERIA visaType) [].

(** [tierNMatch ? parseInt(tierNMatch[1], 10) : 0], written four times in
    [extractEvidenceQuality]. *)
Definition tierCount (report : jsstring) (d : string) : result Z :=
  match exec (Pat.tier d) report with
  | Some m => parseGroup m 1
  | None => Ok 0%Z
  end.

(** The [if] chain of [extractEvidenceQuality] that sets
    [overallAssessment]. *)
Definition assess (tier1Count tier2Count : Z) : Assessment.t :=
  if (tier1Count >=? 5)%Z then Assessment.Strong
  else if ((tier1Count >=? 3) || (tier2Count >=? 5))%Z%bool then Assessment.Moderate
  else if ((tier1Count >=? 1) || (tier2Count >=? 3))%Z%bool then Assessment.Weak
  else Assessment.Insufficient.

Definition extractEvidenceQuality (report : jsstring) : result EvidenceQuality :=
  tier1Count <- tierCount report "1" ;;
  tier2Count <- tierCount report "2" ;;
  tier3Count <- tierCount report "3" ;;
  tier4Count <- tierCount report "4" ;;
  let overallAssessment := assess tier1Count tier2Count in
  concerns <- match exec Pat.evidenceConcerns report with
              | Some m => t <- group m 1 ;; Ok (extractBulletPoints t)
              | None => Ok []
              end ;;
  Ok (mkEvidenceQuality tier1Count tier2Count tier3Count tier4Count
        overallAssessment concerns).

(** The [while ((match = rowPattern.exec(...)) !== null)] loop; [lastIndex]
    is the state that the [g] flag keeps in the pattern object. *)
Fixpoint rows_loop (fuel : nat) (section : jsstring) (lastIndex : nat)
    (predictions : list RFEPrediction) : result (list RFEPrediction) :=
  match fuel with
  | O => Err OutOfFuel
  | S fuel' =>
      match exec_from Pat.row lastIndex section with
      | None => Ok predictions
      | Some m =>
          g1 <- group m 1 ;;
          let topic := trim g1 in
          probability <- parseGroup m 2 ;;
          g3 <- group m 3 ;;
          let description := trim g3 in
          let keep :=
            (match topic with [] => false | _ :: _ => true end
             && negb (includes topic (str "Topic"))
             && negb (includes topic (str "---")))%bool in
          rows_loop fuel' section (m_end m)
            (if keep
             then predictions ++ [mkRFEPrediction topic probability description []]
             else predictions)
      end
  end.

Definition extractRFEPredictions (report : jsstring) : result (list RFEPrediction) :=
  match exec Pat.rfeSection report with
  | None => Ok []
  | Some rfeSection =>
      rows_loop (S (List.length (m_0 rfeSection))) (m_0 rfeSection) 0 []
  end.

Fixpoint extractListItems (report : jsstring) (keywords : list string)
  : list jsstring :=
  match keywords with
  | [] => []
  | keyword :: keywords' =>
      match exec (Pat.listSection keyword) report with
      | Some m =>
          match extractBulletPoints (m_0 m) with
          | [] => extractListItems report keywords'
          | items => items
          end
      | None => extractListItems report keywords'
      end
  end.

Definition extractRecommendations (report : jsstring) : Recommendations :=
  let critical := extractListItems report ["CRITICAL"; "MUST DO"; "REQUIRED"]%string in
  let high := extractListItems report ["HIGH PRIORITY"; "SHOULD DO"; "IMPORTANT"]%string in
  let recommended := extractListItems report ["RECOMMENDED"; "WOULD HELP"; "SUGGESTED"]%string in
  mkRecommendations critical high recommended.

Definition parseOfficerReport (report : jsstring) (visaType : VisaType)
  : result Report.t :=
  overallScore <- extractScore report ;;
  let overallRating := getOverallRating overallScore in
  p <- extractProbabilities report overallScore ;;
  criteriaScores <- extractCriteriaScores report visaType ;;
  evidenceQuality <- extractEvidenceQuality report ;;
  rfePredictions <- extractRFEPredictions report ;;
  let weaknesses :=
    extractListItems report ["RED FLAGS"; "CONCERNS"; "WEAKNESSES"; "MY CONCERNS"]%string in
  let strengths := extractListItems report ["STRENGTHS"; "STRONG"; "ACKNOWLEDGE"]%string in
  let recommendations := extractRecommendations report in
  Ok (Report.mk overallScore overallRating (approval p) (rfe p) (denial p)
        criteriaScores evidenceQuality rfePredictions weaknesses strengths
        recommendations).


(** ** Numbers as JavaScript holds them

    The scorer returns what [parseInt] returns, a Number: the double nearest
    to the integer read.  Up to 2^53 this is the integer itself, above it
    the integer is rounded, and from 2^1024 - 2^970 on it is [Infinity].
    (For a run of more than 20 digits the standard also lets an engine
    round after replacing the later digits by zeros.) *)

Module Double.

(** A Number that holds an integer, or an infinity.  [parseInt] applied to
    a run of digits gives no other Number. *)
Inductive t :=
| Finite (z : Z)
| Infinity
| NegInfinity.



End Double.




(** ** The comparison route ([compareCriteria], [findResolvedItems],
    [findNewItems], [generateComparisonSummary] and the comparison object of
    the RFE comparison handler) *)

Module Compare.

(** [{ rating, score }] *)
Record Side := mkSide { side_rating : CriterionRating; side_score : Z }.

Record CriterionComparison := mkCriterionComparison {
  number : nat;                 (* criterionNumber *)
  name : string;                (* criterionName *)
  before : Side;
  after : Side;
  change : Z;
  improved : bool
}.

(** A JavaScript [Map] with numeric keys, as the list of its entries in
    insertion order.  [set] on a key that is present replaces the value and
    leaves the entry where it is. *)
Fixpoint map_set {V : Type} (k : nat) (v : V) (m : list (nat * V)) : list (nat * V) :=
  match m with
  | [] => [(k, v)]
  | (k', v') :: m' =>
      if Nat.eqb k k' then (k, v) :: m' else (k', v') :: map_set k v m'
  end.

Fixpoint map_get {V : Type} (k : nat) (m : list (nat * V)) : option V :=
  match m with
  | [] => None
  | (k', v) :: m' => if Nat.eqb k k' then Some v else map_get k m'
  end.

(** [new Map(entries)] *)
Definition new_Map {V : Type} (entries : list (nat * V)) : list (nat * V) :=
  fold_left (fun m e => map_set (fst e) (snd e) m) entries [].

(** [Array.prototype.sort(cmp)]: the sort is stable, and [x] stays before
    [y] unless [cmp x y > 0]. *)
Fixpoint sort_insert {A : Type} (cmp : A -> A -> Z) (x : A) (l : list A) : list A :=
  match l with
  | [] => [x]
  | y :: l' => if (cmp x y <=? 0)%Z then x :: l else y :: sort_insert cmp x l'
  end.

Definition sort {A : Type} (cmp : A -> A -> Z) (l : list A) : list A :=
  fold_right (sort_insert cmp) [] l.

Definition compareCriteria (before after : list CriterionScore)
  : list CriterionComparison :=
  let beforeMap := new_Map (List.map (fun c => (criterionNumber c, c)) before) in
  let afterMap := new_Map (List.map (fun c => (criterionNumber c, c)) after) in
  let comparison :=
    fold_left
      (fun comparison entry =>
         let '(num, beforeCrit) := entry in
         match map_get num afterMap with
         | Some afterCrit =>
             comparison ++
             [mkCriterionComparison num (criterionName beforeCrit)
                (mkSide (rating beforeCrit) (score beforeCrit))
                (mkSide (rating afterCrit) (score afterCrit))
                (score afterCrit - score beforeCrit)%Z
                (score afterCrit >? score beforeCrit)%Z]
         | None => comparison
         end)
      beforeMap [] in
  sort (fun a b => (change b - change a)%Z) comparison.

Fixpoint str_eqb (a b : jsstring) : bool :=
  match a, b with
  | [], [] => true
  | x :: a', y :: b' => (N.eqb x y && str_eqb a' b')%bool
  | _, _ => false
  end.

(** [set.has(x)] for a [Set] of strings built from the list [l]. *)
Definition set_has (x : jsstring) (l : list jsstring) : bool :=
  existsb (str_eqb x) l.

Section CaseFolding.

(** [String.prototype.toLowerCase] with the complete Unicode tables, which
    are taken as given: the items compared here are arbitrary text. *)
Variable lower : jsstring -> jsstring.

Definition findResolvedItems (before after : list jsstring) : list jsstring :=
  let afterSet := List.map lower after in
  filter (fun item => negb (set_has (lower item) afterSet)) before.

Definition findNewItems (before after : list jsstring) : list jsstring :=
  let beforeSet := List.map lower before in
  filter (fun item => negb (set_has (lower item) beforeSet)) after.

End CaseFolding.

Definition EXCELLENT : string :=
  "Excellent improvement! The RFE response significantly strengthened the petition.".
Definition GOOD : string :=
  "Good progress. The RFE response addressed several key concerns.".
Definition MODEST : string :=
  "Modest improvement. Consider addressing remaining weaknesses.".
Definition NO_CHANGE : string :=
  "No significant change. The RFE response may not have addressed core issues.".
Definition DECREASED : string :=
  "Scores decreased. Review the RFE response for potential issues introduced.".

Definition generateComparisonSummary (before after : Report.t) : string :=
  let scoreDiff := (Report.overallScore after - Report.overallScore before)%Z in
  let approvalDiff :=
    (Report.approvalProbability after - Report.approvalProbability before)%Z in
  if ((scoreDiff >? 20) && (approvalDiff >? 20))%Z%bool then EXCELLENT
  else if ((scoreDiff >? 10) || (approvalDiff >? 10))%Z%bool then GOOD
  else if (scoreDiff >? 0)%Z then MODEST
  else if (scoreDiff =? 0)%Z then NO_CHANGE
  else DECREASED.

(** [{ before, after, change, improved }] *)
Record Metric := mkMetric {
  m_before : Z; m_after : Z; m_change : Z; m_improved : bool
}.

Record Comparison := mkComparison {
  overallScore : Metric;
  approvalProbability : Metric;
  rfeProbability : Metric;
  denialRisk : Metric;
  criteriaComparison : list CriterionComparison;
  weaknessesResolved : list jsstring;
  newStrengths : list jsstring;
  summary : string
}.

(** The [comparison] object of the handler, from the two stored results
    (the fields that [saveScoringResults] wrote from a parsed report). *)
Definition comparison (lower : jsstring -> jsstring) (beforeResults afterResults : Report.t)
  : Comparison :=
  let higher (f : Report.t -> Z) :=
    mkMetric (f beforeResults) (f afterResults) (f afterResults - f beforeResults)%Z
      (f afterResults >? f beforeResults)%Z in
  let lower_is_better (f : Report.t -> Z) :=
    mkMetric (f beforeResults) (f afterResults) (f afterResults - f beforeResults)%Z
      (f afterResults <? f beforeResults)%Z in
  mkComparison
    (higher Report.overallScore)
    (higher Report.approvalProbability)
    (lower_is_better Report.rfeProbability)
    (lower_is_better Report.denialRisk)
    (compareCriteria (Report.criteriaScores beforeResults)
       (Report.criteriaScores afterResults))
    (findResolvedItems lower (Report.weaknesses beforeResults)
       (Report.weaknesses afterResults))
    (findNewItems lower (Report.strengths beforeResults)
       (Report.strengths afterResults))
    (generateComparisonSummary beforeResults afterResults).

End Compare.

(** ** Calls that may fail ([retryWithBackoff], [callClaude], [callOpenAI],
    [callAIWithFallback] of the AI client, [downloadWithRetry] of the
    background function)

    A remote call is modelled by its answers: [fn k] is what the call made
    after [k] earlier calls answers.  A run records the outcome, the number
    of calls made and the delays waited between them, in order. *)

Module Async.

(** An error object.  The retry logic reads [status] and [code], the
    callers read [message]. *)
Record JSError := mkJSError {
  message : string;
  status : option Z;
  code : option string
}.

(** [new Error(message)] *)
Definition Error (m : string) : JSError := mkJSError m None None.

Inductive answer (T : Type) :=
| Resolved (v : T)
| Rejected (e : JSError).

Arguments Resolved {T} v.
Arguments Rejected {T} e.

(** What an [async] function does in the end: [None] is a thrown [null]. *)
Inductive outcome (T : Type) :=
| Returns (v : T)
| Throws (e : option JSError).

Arguments Returns {T} v.
Arguments Throws {T} e.

Record run (T : Type) := mkRun {
  result : outcome T;
  calls : nat;
  delays : list Z
}.

Arguments mkRun {T} result calls delays.
Arguments result {T} r.
Arguments calls {T} r.
Arguments delays {T} r.

Definition status_is (e : JSError) (n : Z) : bool :=
  match status e with
  | Some s => (s =? n)%Z
  | None => false
  end.

Definition code_is (e : JSError) (c : string) : bool :=
  match code e with
  | Some c' => String.eqb c' c
  | None => false
  end.

(** [err.status === 400 || err.status === 401 || err.status === 403] *)
Definition refused (e : JSError) : bool :=
  (status_is e 400 || status_is e 401 || status_is e 403)%bool.

Definition isRetryable (e : JSError) : bool :=
  (status_is e 429
   || match status e with
      | Some s => (negb (s =? 0) && (s >=? 500))%Z%bool
      | None => false
      end
   || code_is e "ECONNRESET"
   || code_is e "ETIMEDOUT")%bool.

(** The [for] loop of [retryWithBackoff], entered with [todo] iterations
    left ([attempt + todo = maxRetries]). *)
Fixpoint retry_loop {T : Type} (fn : nat -> answer T) (maxRetries : nat)
    (initialDelay : Z) (todo attempt : nat) (lastError : option JSError)
    (waited : list Z) : run T :=
  match todo with
  | O => mkRun (Throws lastError) attempt waited
  | S todo' =>
      match fn attempt with
      | Resolved v => mkRun (Returns v) (S attempt) waited
      | Rejected error =>
          if refused error then mkRun (Throws (Some error)) (S attempt) waited
          else if (negb (isRetryable error) || Nat.eqb attempt (maxRetries - 1))%bool
          then mkRun (Throws (Some error)) (S attempt) waited
          else
            let delay := (initialDelay * 2 ^ Z.of_nat attempt)%Z in
            retry_loop fn maxRetries initialDelay todo' (S attempt) (Some error)
              (waited ++ [delay])
      end
  end.

Definition retryWithBackoff {T : Type} (fn : nat -> answer T) (maxRetries : nat)
    (initialDelay : Z) : run T :=
  retry_loop fn maxRetries initialDelay maxRetries 0 None [].

(** A block of [response.content]. *)
Inductive ContentBlock :=
| TextBlock (text : jsstring)
| OtherBlock.

(** [content.find((c) => c.type === 'text')] *)
Fixpoint find_text (content : list ContentBlock) : option jsstring :=
  match content with
  | [] => None
  | TextBlock t :: _ => Some t
  | OtherBlock :: rest => find_text rest
  end.

(** [callClaude]: [client] tells whether [getAnthropicClient] finds a client
    or a key, [create] is [client.messages.create]. *)
Definition callClaude (client : bool) (create : nat -> answer (list ContentBlock))
  : run jsstring :=
  if negb client
  then mkRun (Throws (Some (Error "ANTHROPIC_API_KEY is not configured"))) 0 []
  else
    let r := retryWithBackoff create 3 1000 in
    match result r with
    | Returns content =>
        match find_text content with
        | Some text => mkRun (Returns text) (calls r) (delays r)
        | None =>
            mkRun (Throws (Some (Error "No text content in Claude response")))
              (calls r) (delays r)
        end
    | Throws e => mkRun (Throws e) (calls r) (delays r)
    end.

(** [x || d] on a string that may be missing: [undefined], [null] and the
    empty string give [d]. *)
Definition or_else (x : option jsstring) (d : jsstring) : jsstring :=
  match x with
  | Some (c :: s) => c :: s
  | _ => d
  end.

(** [callOpenAI]: [create] answers with
    [response.choices[0]?.message?.content]. *)
Definition callOpenAI (client : bool) (create : answer (option jsstring))
  : outcome jsstring :=
  if negb client then Throws (Some (Error "OpenAI is not configured as fallback"))
  else
    match create with
    | Resolved content => Returns (or_else content [])
    | Rejected e => Throws (Some e)
    end.

Inductive Provider := claude | openai.

Record Fallback := mkFallback {
  answered : outcome (jsstring * Provider);
  claude_calls : nat;
  openai_calls : nat
}.

(** [callAIWithFallback]: [openaiKey] tells whether [OPENAI_API_KEY] is
    set. *)
Definition callAIWithFallback (anthropic : bool)
    (claudeCreate : nat -> answer (list ContentBlock))
    (openaiKey : bool) (openaiCreate : answer (option jsstring)) : Fallback :=
  let c := callClaude anthropic claudeCreate in
  match result c with
  | Returns content => mkFallback (Returns (content, claude)) (calls c) 0
  | Throws claudeError =>
      if openaiKey then
        match callOpenAI openaiKey openaiCreate with
        | Returns content => mkFallback (Returns (content, openai)) (calls c) 1
        | Throws _ => mkFallback (Throws claudeError) (calls c) 1
        end
      else mkFallback (Throws claudeError) (calls c) 0
  end.

(** *** [downloadWithRetry] *)

(** One answer of [supabase.storage.from(..).download(path)]: the pair
    [{ data, error }], [error] being given by its message, or an exception. *)
Inductive download (Blob : Type) :=
| Response (data : option Blob) (error : option string)
| Threw (e : JSError).

Arguments Response {Blob} data error.
Arguments Threw {Blob} e.

Record Downloaded (Blob : Type) := mkDownloaded {
  data : option Blob;
  error : option JSError;
  download_calls : nat;
  download_delays : list Z
}.

Arguments mkDownloaded {Blob} data error download_calls download_delays.
Arguments data {Blob} d.
Arguments error {Blob} d.
Arguments download_calls {Blob} d.
Arguments download_delays {Blob} d.

(** The body of the [try] block: the data, or the error that is caught. *)
Definition attempt_download {Blob : Type} (a : download Blob) : Blob + JSError :=
  match a with
  | Response _ (Some m) => inr (Error ("Storage error: " ++ m))
  | Response None None => inr (Error "No data returned from storage")
  | Response (Some d) None => inl d
  | Threw e => inr e
  end.

(** The [for] loop, entered with [todo] iterations left
    ([attempt + todo = maxRetries + 1]). *)
Fixpoint download_loop {Blob : Type} (fn : nat -> download Blob) (maxRetries : nat)
    (todo attempt : nat) (lastError : option JSError) (waited : list Z)
  : Downloaded Blob :=
  match todo with
  | O => mkDownloaded None lastError (attempt - 1) waited
  | S todo' =>
      match attempt_download (fn (attempt - 1)%nat) with
      | inl d => mkDownloaded (Some d) None attempt waited
      | inr e =>
          let waited' :=
            if (attempt <? maxRetries)%nat
            then waited ++ [(2 ^ Z.of_nat (attempt - 1) * 1000)%Z]
            else waited in
          download_loop fn maxRetries todo' (S attempt) (Some e) waited'
      end
  end.

Definition downloadWithRetry {Blob : Type} (fn : nat -> download Blob)
    (maxRetries : nat) : Downloaded Blob :=
  download_loop fn maxRetries maxRetries 1 None [].

End Async.

(** ** The text that is scored (the background function, the score route
    and [runOfficerScoring]) *)

Module Pipeline.

Import Async.

(** A row of [uploaded_files], as far as the content builders read it. *)
Record FileRow := mkFileRow {
  document_category : option jsstring;
  extracted_text : option jsstring
}.

(** [parts.join(sep)] *)
Fixpoint join (sep : jsstring) (parts : list jsstring) : jsstring :=
  match parts with
  | [] => []
  | p :: ps =>
      match ps with
      | [] => p
      | _ :: _ => p ++ sep ++ join sep ps
      end
  end.

Definition FILE_HEADER : jsstring := str "=== FILE: ".

(** The text of one file: its header line, then its text. *)
Definition file_block (f : FileRow) : jsstring :=
  let header :=
    FILE_HEADER ++ or_else (document_category f) (str "Document") ++ str " ===" in
  header ++ [LF] ++ or_else (extracted_text f) (str "[No text extracted]").

Definition SEPARATOR : jsstring := [LF; LF] ++ str "---" ++ [LF; LF].

(** [files.map(..).join('\n\n---\n\n')], the same expression in both
    builders. *)
Definition files_content (files : list FileRow) : jsstring :=
  join SEPARATOR (map file_block files).

Definition MAX_LENGTH : nat := N.to_nat 150000.

Arguments MAX_LENGTH : simpl never.

Definition TRUNCATED : jsstring :=
  [LF; LF] ++ str "[... Document truncated for processing ...]".

Definition TRUNCATED_PAGES : jsstring :=
  [LF; LF] ++
  str "[... Document truncated for processing. Scoring based on first ~60 pages of content ...]".

(** Step [get-document-content] of [scorePetition]. *)
Definition get_document_content (isSupabaseConfigured : bool) (files : list FileRow)
  : outcome jsstring :=
  if negb isSupabaseConfigured then Throws (Some (Error "Database not configured"))
  else
    match files with
    | [] => Throws (Some (Error "No files found for this session"))
    | _ :: _ =>
        let content := files_content files in
        if (MAX_LENGTH <? List.length content)%nat
        then Returns (firstn MAX_LENGTH content ++ TRUNCATED)
        else Returns content
    end.

(** What the synchronous branch of the score route answers before it
    scores: the text to score, or a response with an error. *)
Inductive prepared :=
| Content (fullDocumentContent : jsstring)
| Respond (status : Z) (error : string).

(** The synchronous branch of the score route, from the [documentContent]
    of the request body (a string, or missing) to the call of
    [runOfficerScoring]. *)
Definition score_route_content (isSupabaseConfigured : bool)
    (documentContent : option jsstring) (files : list FileRow) : prepared :=
  let fullDocumentContent := or_else documentContent [] in
  let fullDocumentContent :=
    if isSupabaseConfigured then
      match or_else documentContent [], files with
      | [], _ :: _ => files_content files
      | _, _ => fullDocumentContent
      end
    else fullDocumentContent in
  match fullDocumentContent with
  | [] => Respond 400 "No document content available for scoring"
  | _ :: _ =>
      if (MAX_LENGTH <? List.length fullDocumentContent)%nat
      then Content (firstn MAX_LENGTH fullDocumentContent ++ TRUNCATED_PAGES)
      else Content fullDocumentContent
  end.

(** [RawScoringOutput]: the parsed fields and [fullReport]. *)
Record RawScoringOutput := mkRawScoringOutput {
  structuredResults : Report.t;
  fullReport : jsstring
}.

(** A call of [onProgress]. *)
Definition Progress : Type := string * Z * string.

(** [runOfficerScoring], given what [callAIWithFallback] does with the
    prompts: the calls of [onProgress] in order, and the outcome.  An
    exception of the parser would be thrown on. *)
Definition runOfficerScoring (visaType : VisaType)
    (callAI : outcome (jsstring * Provider))
  : list Progress * outcome RawScoringOutput :=
  let p1 := ("Initializing", 5%Z, "Preparing officer evaluation...")%string in
  let p2 := ("Scoring", 20%Z, "Officer is reviewing the petition...")%string in
  match callAI with
  | Throws e => ([p1; p2], Throws e)
  | Returns (rawReport, provider) =>
      let p3 := ("Analyzing", 70%Z, "Extracting scoring metrics...")%string in
      match parseOfficerReport rawReport visaType with
      | Err _ => ([p1; p2; p3], Throws (Some (Error "TypeError")))
      | Ok structuredResults =>
          let p4 := ("Finalizing", 95%Z, "Completing evaluation...")%string in
          ([p1; p2; p3; p4], Returns (mkRawScoringOutput structuredResults rawReport))
      end
  end.

End Pipeline.

(** ** Free and paid scorings ([usage-tracker.ts]) *)

Module Usage.

(** A row of [usage_tracking], as far as the tracker reads and writes it. *)
Record Row := mkRow {
  free_scorings_used : Z;
  paid_scorings_remaining : Z;
  subscription_active : bool
}.

(** The answer of [select(..).eq('fingerprint', fingerprint).single()]. *)
Inductive single :=
| Found (data : Row)
| NoRows          (* error code PGRST116, no data *)
| Failed.         (* any other error, no data *)

Definition hasFreeScoringAvailable (isPaywallEnabled isSupabaseConfigured : bool)
    (q : single) : bool :=
  if negb isPaywallEnabled then true
  else if negb isSupabaseConfigured then true
  else
    match q with
    | Failed => true
    | NoRows => true
    | Found data =>
        if (free_scorings_used data <? 1)%Z then true
        else if (paid_scorings_remaining data >? 0)%Z then true
        else if subscription_active data then true
        else false
    end.

Record Payment := mkPayment {
  needs : bool;          (* needsPayment *)
  reason : jsstring
}.

Definition needsPayment (isPaywallEnabled isSupabaseConfigured : bool) (q : single)
  : Payment :=
  if negb isPaywallEnabled then mkPayment false (str "Paywall disabled - free access")
  else if negb isSupabaseConfigured then mkPayment false (str "Database not configured")
  else
    match q with
    | Failed => mkPayment false (str "Error checking usage")
    | NoRows => mkPayment false (str "First scoring is free")
    | Found data =>
        if subscription_active data then mkPayment false (str "Active subscription")
        else if (paid_scorings_remaining data >? 0)%Z
        then mkPayment false
               (decimal (Z.to_nat (paid_scorings_remaining data))
                ++ str " paid scorings remaining")
        else if (free_scorings_used data <? 1)%Z
        then mkPayment false (str "Free scoring available")
        else mkPayment true (str "Free scoring used, no paid credits")
    end.

(** The table, keyed by [fingerprint] (a [UNIQUE] column).  Reading and
    writing it is taken to succeed. *)
Definition Table : Type := string -> option Row.

Definition select_single (t : Table) (fingerprint : string) : single :=
  match t fingerprint with
  | Some data => Found data
  | None => NoRows
  end.

Definition write (t : Table) (fingerprint : string) (r : Row) : Table :=
  fun k => if String.eqb k fingerprint then Some r else t k.

Definition recordScoringUsage (isSupabaseConfigured : bool) (fingerprint : string)
    (t : Table) : Table :=
  if negb isSupabaseConfigured then t
  else
    match t fingerprint with
    | None => write t fingerprint (mkRow 1 0 false)
    | Some existing =>
        if subscription_active existing then write t fingerprint existing
        else if (paid_scorings_remaining existing >? 0)%Z
        then write t fingerprint
               (mkRow (free_scorings_used existing)
                  (paid_scorings_remaining existing - 1) (subscription_active existing))
        else write t fingerprint
               (mkRow (free_scorings_used existing + 1)
                  (paid_scorings_remaining existing) (subscription_active existing))
    end.

Definition addPaidCredits (isSupabaseConfigured : bool) (fingerprint : string)
    (credits : Z) (t : Table) : Table :=
  if negb isSupabaseConfigured then t
  else
    match t fingerprint with
    | None => write t fingerprint (mkRow 0 credits false)
    | Some existing =>
        write t fingerprint
          (mkRow (free_scorings_used existing)
             (paid_scorings_remaining existing + credits) (subscription_active existing))
    end.

(** The [upsert] on [fingerprint]: a new row takes the defaults of the
    table for the columns that are not given. *)
Definition activateSubscription (isSupabaseConfigured : bool) (fingerprint : string)
    (t : Table) : Table :=
  if negb isSupabaseConfigured then t
  else
    match t fingerprint with
    | None => write t fingerprint (mkRow 0 0 true)
    | Some existing =>
        write t fingerprint
          (mkRow (free_scorings_used existing) (paid_scorings_remaining existing) true)
    end.

End Usage.

(** ** The Stripe webhook (the [switch] of the handler, run on an event
    whose signature has been verified) *)

Module Webhook.

Import Usage.

Inductive Mode := payment | setup | subscription.

(** The checkout session of the event, as far as the handler reads it:
    the two entries of [session.metadata] and [session.mode]. *)
Record Session := mkSession {
  fingerprint : option string;
  scorings : option jsstring;
  mode : Mode
}.

Inductive Event :=
| checkout_session_completed (session : Session)
| customer_subscription_deleted
| invoice_payment_failed
| other_event.

(** What the handler does to the usage table. *)
Definition handle (isSupabaseConfigured : bool) (event : Event) (t : Table) : Table :=
  match event with
  | checkout_session_completed session =>
      match fingerprint session with
      | None | Some EmptyString => t
      | Some fingerprint =>
          let scoringsNum := parseInt (Async.or_else (scorings session) (str "0")) in
          match mode session with
          | subscription => activateSubscription isSupabaseConfigured fingerprint t
          | _ =>
              match scoringsNum with
              | Ok n =>
                  if (n >? 0)%Z then addPaidCredits isSupabaseConfigured fingerprint n t
                  else t
              | Err _ => t
              end
          end
      end
  | customer_subscription_deleted => t
  | invoice_payment_failed => t
  | other_event => t
  end.

(** Something that changes the usage table: an event received by the
    webhook, or a scoring recorded for a fingerprint. *)
Inductive Op :=
| Received (event : Event)
| Scored (fingerprint : string).

Definition step (isSupabaseConfigured : bool) (t : Table) (op : Op) : Table :=
  match op with
  | Received event => handle isSupabaseConfigured event t
  | Scored fingerprint => recordScoringUsage isSupabaseConfigured fingerprint t
  end.

Definition after (isSupabaseConfigured : bool) (ops : list Op) (t : Table) : Table :=
  fold_left (step isSupabaseConfigured) ops t.

End Webhook.

(** ** Document categories ([detectDocumentCategory] of the session route
    and of the OCR module) *)

Module Category.

Definition has (lower : jsstring) (kw : string) : bool := includes lower (str kw).

(** The one of the session route, from the file name alone. *)
Definition detectDocumentCategory (filename : jsstring) : string :=
  let lower := toLowerCase filename in
  if (has lower "rfe" && has lower "response")%bool then "rfe_response"
  else if (has lower "rfe" || has lower "request for evidence")%bool then "rfe_original"
  else if has lower "exhibit" then "exhibit"
  else if (has lower "contract" || has lower "deal" || has lower "agreement")%bool
  then "contract"
  else if (has lower "letter" && has lower "support")%bool then "support_letter"
  else if (has lower "letter" && has lower "recommend")%bool then "recommendation"
  else if (has lower "cv" || has lower "resume" || has lower "curriculum")%bool then "cv"
  else if (has lower "petition" || has lower "i-129" || has lower "i-140")%bool
  then "petition"
  else "document".

End Category.

Module Ocr.

Import Category.

(** The one of the OCR module, from the file name and the extracted
    text. *)
Definition detectDocumentCategory (filename text : jsstring) : string :=
  let filenameLower := toLowerCase filename in
  let textLower := toLowerCase text in
  if (has filenameLower "rfe"
      || has textLower "request for evidence"
      || has textLower "request for additional evidence")%bool
  then
    if (has textLower "in response to" || has textLower "response to rfe")%bool
    then "rfe_response"
    else "rfe_original"
  else if (has filenameLower "exhibit" || has filenameLower "evidence")%bool
  then "exhibit"
  else if (has filenameLower "contract"
           || has filenameLower "agreement"
           || has filenameLower "deal"
           || has filenameLower "memo"
           || has textLower "terms of employment"
           || has textLower "compensation"
           || has textLower "itinerary")%bool
  then "contract"
  else if (has filenameLower "letter"
           || has filenameLower "support"
           || has textLower "to whom it may concern"
           || has textLower "letter of support")%bool
  then "support_letter"
  else if (has filenameLower "award"
           || has filenameLower "certificate"
           || has textLower "certificate of"
           || has textLower "award for")%bool
  then "award"
  else if (has filenameLower "article"
           || has filenameLower "press"
           || has filenameLower "media"
           || has textLower "published"
           || has textLower "newspaper"
           || has textLower "magazine")%bool
  then "media"
  else if (has filenameLower "brief"
           || has filenameLower "petition"
           || has textLower "petitioner"
           || has textLower "beneficiary"
           || has textLower "8 cfr")%bool
  then "legal_document"
  else "other".

End Ocr.

(** ** Session identifiers and the comparison handler *)

Module Route.

(** [[0-9a-f]] under the [i] flag. *)
Definition hex : cls := fun c =>
  (digit c || (N.leb 97 c && N.leb c 102) || (N.leb 65 c && N.leb c 70))%bool.

(** [c{n}] followed by [r]. *)
Fixpoint times (n : nat) (c : cls) (r : regex) : regex :=
  match n with
  | O => r
  | S n' => Seq (Chr c) (times n' c r)
  end.

(** [/^[0-9a-f]{8}-[0-9a-f]{4}-[0-9a-f]{4}-[0-9a-f]{4}-[0-9a-f]{12}$/i] *)
Definition uuidRegex : regex :=
  Seq Bos
    (times 8 hex (Seq (Chr (eqc "-"))
    (times 4 hex (Seq (Chr (eqc "-"))
    (times 4 hex (Seq (Chr (eqc "-"))
    (times 4 hex (Seq (Chr (eqc "-"))
    (times 12 hex Eos))))))))).

(** [!id || !uuidRegex.test(id)], for an identifier that is a string or is
    missing. *)
Definition invalid (id : option jsstring) : bool :=
  match id with
  | Some (x :: s) => negb (test uuidRegex (x :: s))
  | _ => true
  end.

(** What [getScoringResults] does: the stored result, [null] when there is
    no row, or an exception. *)
Inductive Stored :=
| Row (results : Report.t)
| Missing
| QueryFailed.

Inductive Response :=
| Compared (comparison : Compare.Comparison)     (* { success: true, comparison } *)
| Refused (status : Z) (error : string)
| Crashed.                                        (* status 500, from [catch] *)

(** The handler of the comparison route, after the body of the request has
    been read. *)
Definition POST (lower : jsstring -> jsstring)
    (beforeSessionId afterSessionId : option jsstring)
    (isSupabaseConfigured : bool) (getScoringResults : jsstring -> Stored)
  : Response :=
  if invalid beforeSessionId then Refused 400 "Valid beforeSessionId is required"
  else if invalid afterSessionId then Refused 400 "Valid afterSessionId is required"
  else if negb isSupabaseConfigured then Refused 503 "Database not configured"
  else
    match beforeSessionId, afterSessionId with
    | Some beforeId, Some afterId =>
        match getScoringResults beforeId with
        | QueryFailed => Crashed
        | beforeResults =>
            match getScoringResults afterId with
            | QueryFailed => Crashed
            | afterResults =>
                match beforeResults, afterResults with
                | Row b, Row a => Compared (Compare.comparison lower b a)
                | Row _, _ => Refused 404 "After scoring results not found"
                | _, _ => Refused 404 "Before scoring results not found"
                end
            end
        end
    | _, _ => Crashed
    end.

End Route.

(** ** How results are shown (the PDF export route and the result page) *)

Module Display.

(** The values of the rating types, as the strings that the code
    compares. *)
Definition rating_text (r : CriterionRating) : string :=
  match r with
  | Strong => "Strong"
  | Adequate => "Adequate"
  | Weak => "Weak"
  | Insufficient => "Insufficient"
  | NotClaimed => "Not Claimed"
  end.

Definition overall_text (r : OverallRating) : string :=
  match r with
  | Approve => "Approve"
  | RFELikely => "RFE Likely"
  | DenialRisk => "Denial Risk"
  end.

(** *** The export route *)

Definition getScoreClass (score : Z) : string :=
  if (score >=? 70)%Z then "score-green"
  else if (score >=? 50)%Z then "score-amber"
  else "score-red".

Definition getRatingClass (rating : string) : string :=
  if (String.eqb rating "Strong" || String.eqb rating "Approve")%bool
  then "rating-strong"
  else if (String.eqb rating "Adequate" || String.eqb rating "RFE Likely")%bool
  then "rating-adequate"
  else "rating-weak".

Definition getVerdictClass (rating : string) : string :=
  if String.eqb rating "Approve" then "verdict-approve"
  else if String.eqb rating "RFE Likely" then "verdict-rfe"
  else "verdict-denial".

(** *** The result page *)

Definition getScoreColor (score : Z) : string :=
  if (score >=? 70)%Z then "text-green-600"
  else if (score >=? 50)%Z then "text-amber-500"
  else "text-red-500".

Definition getScoreBg (score : Z) : string :=
  if (score >=? 70)%Z then "bg-green-50 border-green-200"
  else if (score >=? 50)%Z then "bg-amber-50 border-amber-200"
  else "bg-red-50 border-red-200".

Definition getRatingColor (rating : string) : string :=
  if (String.eqb rating "Approve" || String.eqb rating "Strong")%bool
  then "bg-green-100 text-green-700 border-green-300"
  else if (String.eqb rating "RFE Likely" || String.eqb rating "Adequate")%bool
  then "bg-amber-100 text-amber-700 border-amber-300"
  else "bg-red-100 text-red-700 border-red-300".

End Display.

(** ** Storage names ([sanitizeFilename] of the upload route) *)

Module Upload.

(** [[a-zA-Z0-9.-]] *)
Definition safe : cls := fun c =>
  (is_lower c || is_upper c || digit c || N.eqb c 46 || N.eqb c 45)%bool.

Definition UNDERSCORE : code := 95%N.

(** [s.replace(/[^a-zA-Z0-9.-]/g, '_')]: every code unit outside the class
    becomes an underscore. *)
Definition replace_unsafe (s : jsstring) : jsstring :=
  map (fun c => if safe c then c else UNDERSCORE) s.

(** [s.replace(/_+/g, '_')]: every run of underscores becomes one
    underscore. *)
Fixpoint squeeze (s : jsstring) : jsstring :=
  match s with
  | [] => []
  | x :: t =>
      match t with
      | [] => [x]
      | y :: _ =>
          if (N.eqb x UNDERSCORE && N.eqb y UNDERSCORE)%bool then squeeze t
          else x :: squeeze t
      end
  end.

Definition sanitizeFilename (filename : jsstring) : jsstring :=
  firstn 100 (squeeze (replace_unsafe filename)).

End Upload.

(** ** Reading patterns and results

    The vocabulary in which the properties of the parser are stated: a
    declarative reading of the patterns, and what each field of the result
    holds. *)

Module Sem.

(** [Run c p s p' s']: from position [p] with input [s], a run of code units
    of class [c] leads to position [p'] with input [s']. *)
Inductive Run (c : cls) : nat -> jsstring -> nat -> jsstring -> Prop :=
| Run_stop p s : Run c p s p s
| Run_step p x t p' s' :
    c x = true -> Run c (S p) t p' s' -> Run c p (x :: t) p' s'.

(** Declarative reading of a pattern: [Matches r st st'] when [r] can match
    from [st] and leave the matcher in [st']. *)
Inductive Matches : regex -> state -> state -> Prop :=
| M_Eps st : Matches Eps st st
| M_Chr c st x t :
    rest st = x :: t -> c x = true ->
    Matches (Chr c) st (mkState (S (pos st)) t (caps st))
| M_Seq a b st1 st2 st3 :
    Matches a st1 st2 -> Matches b st2 st3 -> Matches (Seq a b) st1 st3
| M_AltL a b st st' : Matches a st st' -> Matches (Alt a b) st st'
| M_AltR a b st st' : Matches b st st' -> Matches (Alt a b) st st'
| M_Star g c st p s :
    Run c (pos st) (rest st) p s -> Matches (Star g c) st (mkState p s (caps st))
| M_Cap i a st st' :
    Matches a st st' ->
    Matches (Cap i a) st (set_cap i (firstn (pos st' - pos st) (rest st)) st')
| M_Look a st st' :
    Matches a st st' -> Matches (Look a) st (mkState (pos st) (rest st) (caps st'))
| M_Bos st : pos st = 0 -> Matches Bos st st
| M_Eos st : rest st = [] -> Matches Eos st st.

Fixpoint minlen (r : regex) : nat :=
  match r with
  | Chr _ => 1
  | Seq a b => minlen a + minlen b
  | Alt a b => Nat.min (minlen a) (minlen b)
  | Cap _ a => minlen a
  | _ => 0
  end.

(** A non-empty run of code units of one class: what [(c+)] and [(c+?)]
    capture. *)
Definition nonempty_of (c : cls) (s : jsstring) : Prop :=
  s <> [] /\ forallb c s = true.

(** Every group numbered [i] in [r] is of the form [(c+)] or [(c+?)]. *)
Fixpoint cap_class (i : nat) (c : cls) (r : regex) : Prop :=
  match r with
  | Cap j a => (j = i -> exists g, a = Seq (Chr c) (Star g c)) /\ cap_class i c a
  | Seq a b | Alt a b => cap_class i c a /\ cap_class i c b
  | Look a => cap_class i c a
  | _ => True
  end.

(** Every match of [r] goes through a group numbered [i]. *)
Fixpoint defines (i : nat) (r : regex) : bool :=
  match r with
  | Cap j a => (Nat.eqb i j || defines i a)%bool
  | Seq a b => (defines i a || defines i b)%bool
  | Alt a b => (defines i a && defines i b)%bool
  | _ => false
  end.

End Sem.

Import Sem.

Module Reading.

(** An integer read from group 1 of [r] when [r] matches, [dflt] otherwise:
    the shape of every numeric field of the parser. *)
Definition field (r : regex) (report : jsstring) (dflt : Z) : result Z :=
  match exec r report with
  | Some m => parseGroup m 1
  | None => Ok dflt
  end.

(** What [field] answers: the digits of the first match, or the default. *)
Definition field_value (r : regex) (report : jsstring) (dflt z : Z) : Prop :=
  match exec r report with
  | Some m =>
      exists g, group m 1 = Ok g /\ nonempty_of digit g /\ z = digits_val g
                /\ (0 <= z)%Z
  | None => z = dflt
  end.

(** None of the three numeric patterns of [extractScore] matches. *)
Definition no_numeric_score (report : jsstring) : Prop :=
  exec Pat.total report = None /\ exec Pat.overall report = None
  /\ exec Pat.anyScore report = None.

(** The three values that [scoreCriterion] reads for a criterion. *)
Definition rating_value (report : jsstring) (n : nat) (rt : CriterionRating) : Prop :=
  match exec (Pat.criterionRating n) report with
  | Some m => exists g, group m 1 = Ok g /\ rt = parseRating g
  | None => rt = NotClaimed
  end.

Definition concerns_value (r : regex) (report : jsstring) (cn : list jsstring) : Prop :=
  match exec r report with
  | Some m => exists g, group m 1 = Ok g /\ cn = extractBulletPoints g
  | None => cn = []
  end.

(** The reading of the bullet rule in words: a line is kept when, trimmed,
    it starts with a bullet character or with a numeral followed by a
    period, and what is left after the marker is longer than 5 code units.
    The marker that is stripped is the whole leading run of bullet
    characters, digits and periods, with the white space after it. *)
Definition starts_marked (trimmed : jsstring) : bool :=
  match trimmed with
  | x :: t =>
      (Pat.bullet x
       || (digit x && startsWith (str ".") (dropWhile digit t)))%bool
  | [] => false
  end.

Definition bullet_content (line : jsstring) : jsstring :=
  trim (dropWhile ws (dropWhile Pat.marker (trim line))).

Definition kept (line : jsstring) : bool :=
  (starts_marked (trim line) && (5 <? List.length (bullet_content line))%nat)%bool.

(** Every numeric field of a parsed report lies between 0 and 100. *)
Definition all_fields_in_0_100 (r : Report.t) : Prop :=
  (0 <= Report.overallScore r <= 100
   /\ 0 <= Report.approvalProbability r <= 100
   /\ 0 <= Report.rfeProbability r <= 100
   /\ 0 <= Report.denialRisk r <= 100
   /\ Forall (fun cs => 0 <= score cs <= 100) (Report.criteriaScores r))%Z.

(** A line feed, to write reports of several lines. *)
Definition nl : string := String (ascii_of_nat 10) EmptyString.

(** A report in the layout that the scoring prompt asks for. *)
Definition sample_report : jsstring :=
  str ("## 1. EXECUTIVE ASSESSMENT" ++ nl ++
       "| Assessment | Rating |" ++ nl ++
       "| Approval Probability | 55% |" ++ nl ++
       "Denial risk: 30%" ++ nl ++ nl ++
       "### Criterion 1: Awards" ++ nl ++
       "**My Rating:** Strong" ++ nl ++
       "Evidence Score: 88" ++ nl ++ nl ++
       "**My Concerns:**" ++ nl ++
       "- The award is regional, not national" ++ nl ++
       "- ok" ++ nl ++ nl ++
       "## 2. EVIDENCE TIER ANALYSIS" ++ nl ++
       "| Tier 1 (Major) | 3 | NYT | Good |" ++ nl ++
       "| Tier 2 (Trade) | 7 | Variety | Fair |" ++ nl ++ nl ++
       "## 4. RED FLAGS" ++ nl ++
       "1. Letters come from close collaborators" ++ nl ++ nl ++
       "## 5. RFE PREDICTIONS" ++ nl ++
       "| RFE Topic | Probability | What I'd Request |" ++ nl ++
       "|-----------|-------------|------------------|" ++ nl ++
       "| Awards | 70% | Proof of national scope |" ++ nl ++ nl ++
       "## 8. SCORING MATRIX" ++ nl ++
       "| **TOTAL** | **100%** | | **72/100** |" ++ nl).

End Reading.

Import Reading.

(** ** Further vocabulary *)

Module More.

(** The four assessments in increasing order of strength. *)
Definition assessment_rank (a : Assessment.t) : nat :=
  match a with
  | Assessment.Insufficient => 0
  | Assessment.Weak => 1
  | Assessment.Moderate => 2
  | Assessment.Strong => 3
  end.

(** [x] occurs in [s] as a run of consecutive code units. *)
Definition infix (x s : jsstring) : Prop :=
  exists pre suf, s = pre ++ x ++ suf.

(** A string that [trim] leaves alone: it neither starts nor ends with
    white space. *)
Definition trimmed (s : jsstring) : Prop :=
  match s with
  | [] => True
  | x :: _ => ws x = false /\ ws (last s x) = false
  end.

(** Every capture is a run of the input [s0]. *)
Definition caps_in (s0 : jsstring) (cs : captures) : Prop :=
  forall i g, get_cap i cs = Some g -> infix g s0.

(** A free-text item taken from [report]: longer than 5 code units, without
    white space at either end, and found verbatim in the report. *)
Definition excerpt (report item : jsstring) : Prop :=
  (5 < List.length item)%nat /\ trimmed item /\ infix item report.

(** What holds of every RFE prediction read from [report]. *)
Definition prediction_ok (report : jsstring) (p : RFEPrediction) : Prop :=
  topic p <> []
  /\ includes (topic p) (str "Topic") = false
  /\ includes (topic p) (str "---") = false
  /\ forallb Pat.not_pipe (topic p) = true
  /\ trimmed (topic p) /\ infix (topic p) report
  /\ (0 <= probability p)%Z
  /\ trimmed (officerPerspective p) /\ infix (officerPerspective p) report
  /\ suggestedEvidence p = [].

(** A pattern without capture groups. *)
Fixpoint nocaps (r : regex) : bool :=
  match r with
  | Cap _ _ => false
  | Seq a b | Alt a b => (nocaps a && nocaps b)%bool
  | Look a => nocaps a
  | _ => true
  end.

(** A pattern whose lookaheads hold no capture group, as all those of the
    scorer. *)
Fixpoint look_ok (r : regex) : bool :=
  match r with
  | Look a => (nocaps a && look_ok a)%bool
  | Seq a b | Alt a b => (look_ok a && look_ok b)%bool
  | Cap _ a => look_ok a
  | _ => true
  end.

(** What one entry of the first [Map] adds to the comparison. *)
Definition entry_of (afterMap : list (nat * CriterionScore))
    (e : nat * CriterionScore) : list Compare.CriterionComparison :=
  match Compare.map_get (fst e) afterMap with
  | Some afterCrit =>
      [Compare.mkCriterionComparison (fst e) (criterionName (snd e))
         (Compare.mkSide (rating (snd e)) (score (snd e)))
         (Compare.mkSide (rating afterCrit) (score afterCrit))
         (score afterCrit - score (snd e))%Z
         (score afterCrit >? score (snd e))%Z]
  | None => []
  end.

(** The delays of [n] retries in a row: [initialDelay], twice that, four
    times that, ... *)
Definition backoff (initialDelay : Z) (n : nat) : list Z :=
  map (fun k => (initialDelay * 2 ^ Z.of_nat k)%Z) (seq 0 n).

Definition total_delay (delays : list Z) : Z := fold_left Z.add delays 0%Z.

(** An error after which [retryWithBackoff] calls again, if calls are
    left. *)
Definition retried (e : Async.JSError) : bool :=
  (negb (Async.refused e) && Async.isRetryable e)%bool.

(** What the parser answers when it finds nothing in the report. *)
Definition neutral_record (visaType : VisaType) : Report.t :=
  Report.mk 55 RFELikely 40 45 15
    (map (fun c => mkCriterionScore (number c) (name c) NotClaimed 0 Poor [] [] [])
       (VISA_CRITERIA visaType))
    (mkEvidenceQuality 0 0 0 0 Assessment.Insufficient [])
    [] [] [] (mkRecommendations [] [] []).

(** The text of a UUID: groups of 8, 4, 4, 4 and 12 hexadecimal digits of
    either case, with a hyphen between them. *)
Definition is_uuid (s : jsstring) : Prop :=
  exists a b c d e : jsstring,
    s = a ++ 45%N :: b ++ 45%N :: c ++ 45%N :: d ++ 45%N :: e
    /\ List.length a = 8%nat /\ List.length b = 4%nat /\ List.length c = 4%nat
    /\ List.length d = 4%nat /\ List.length e = 12%nat
    /\ forallb Route.hex (a ++ b ++ c ++ d ++ e) = true.

(** Two underscores in a row somewhere in [s]. *)
Fixpoint doubled (s : jsstring) : bool :=
  match s with
  | [] => false
  | x :: t =>
      match t with
      | [] => false
      | y :: _ => ((N.eqb x 95 && N.eqb y 95) || doubled t)%bool
      end
  end.



End More.

Import More.

(** ** Facts about the matcher *)

Module RegExpFacts.

#[local] Hint Constructors Run Matches : core.

Lemma star_greedy_sound (R : Type) c (k : nat -> jsstring -> option R) :
  forall s p x, star_greedy c p s k = Some x ->
  exists p' s', Run c p s p' s' /\ k p' s' = Some x.
Proof.
  induction s as [|a s IH]; simpl; intros p x H; eauto.
  destruct (c a) eqn:Ca; eauto.
  destruct (star_greedy c (S p) s k) eqn:E; eauto.
  inversion H; subst. apply IH in E as (p' & s' & Hr & Hk). eauto.
Qed.

Lemma star_lazy_sound (R : Type) c (k : nat -> jsstring -> option R) :
  forall s p x, star_lazy c p s k = Some x ->
  exists p' s', Run c p s p' s' /\ k p' s' = Some x.
Proof.
  induction s as [|a s IH]; simpl; intros p x H.
  - destruct (k p []) eqn:E; [inversion H; subst; eauto | discriminate].
  - destruct (k p (a :: s)) eqn:E; [inversion H; subst; eauto |].
    destruct (c a) eqn:Ca; [| discriminate].
    apply IH in H as (p' & s' & Hr & Hk). eauto.
Qed.

(** Whatever the matcher answers was accepted by the continuation in a state
    that the pattern reaches. *)
Lemma mt_sound : forall r (R : Type) st (k : state -> option R) x,
  mt r st k = Some x -> exists st', Matches r st st' /\ k st' = Some x.
Proof.
  induction r; intros R st k x H; simpl in H.
  - eauto.
  - destruct (rest st) as [|y t] eqn:E; [discriminate |].
    destruct (c y) eqn:Cy; [| discriminate]. eauto.
  - apply IHr1 in H as (st1 & M1 & H1).
    apply IHr2 in H1 as (st2 & M2 & H2). eauto.
  - destruct (mt r1 st k) eqn:E.
    + inversion H; subst. apply IHr1 in E as (st1 & M1 & H1). eauto.
    + apply IHr2 in H as (st1 & M1 & H1). eauto.
  - destruct greedy.
    + apply star_greedy_sound in H as (p' & s' & Hr & Hk). eauto.
    + apply star_lazy_sound in H as (p' & s' & Hr & Hk). eauto.
  - apply IHr in H as (st1 & M1 & H1). eauto.
  - destruct (mt r st (@Some state)) eqn:E; [| discriminate].
    apply IHr in E as (st1 & M1 & H1). inversion H1; subst. eauto.
  - destruct (Nat.eqb (pos st) 0) eqn:E; [| discriminate].
    apply Nat.eqb_eq in E. eauto.
  - destruct (rest st) eqn:E; [| discriminate]. eauto.
Qed.

(** A continuation that accepts more leaves no match undiscovered. *)
Lemma star_greedy_mono (R R' : Type) c
    (k : nat -> jsstring -> option R) (k' : nat -> jsstring -> option R') :
  (forall p s, k p s <> None -> k' p s <> None) ->
  forall s p, star_greedy c p s k <> None -> star_greedy c p s k' <> None.
Proof.
  intros Hk. induction s as [|a s IH]; simpl; intros p H; auto.
  destruct (c a); auto.
  destruct (star_greedy c (S p) s k) eqn:E.
  - assert (N : star_greedy c (S p) s k' <> None) by (apply IH; congruence).
    destruct (star_greedy c (S p) s k'); congruence.
  - destruct (star_greedy c (S p) s k'); [congruence | auto].
Qed.

Lemma star_lazy_mono (R R' : Type) c
    (k : nat -> jsstring -> option R) (k' : nat -> jsstring -> option R') :
  (forall p s, k p s <> None -> k' p s <> None) ->
  forall s p, star_lazy c p s k <> None -> star_lazy c p s k' <> None.
Proof.
  intros Hk. induction s as [|a s IH]; simpl; intros p H.
  - destruct (k p []) eqn:E; [| congruence].
    assert (N : k' p [] <> None) by (apply Hk; congruence).
    destruct (k' p []); congruence.
  - destruct (k p (a :: s)) eqn:E.
    + assert (N : k' p (a :: s) <> None) by (apply Hk; congruence).
      destruct (k' p (a :: s)); congruence.
    + destruct (k' p (a :: s)); [congruence |].
      destruct (c a); auto.
Qed.

Lemma mt_mono : forall r (R R' : Type) st
    (k : state -> option R) (k' : state -> option R'),
  (forall st', k st' <> None -> k' st' <> None) ->
  mt r st k <> None -> mt r st k' <> None.
Proof.
  induction r; intros R R' st k k' Hk H; simpl in *.
  - auto.
  - destruct (rest st) as [|y t]; auto. destruct (c y); auto.
  - eapply IHr1; [| exact H]. intros st1. apply IHr2. exact Hk.
  - destruct (mt r1 st k) eqn:E.
    + assert (N : mt r1 st k' <> None)
        by (eapply IHr1; [exact Hk | congruence]).
      destruct (mt r1 st k'); congruence.
    + destruct (mt r1 st k'); [congruence |]. eapply IHr2; eauto.
  - destruct greedy.
    + eapply star_greedy_mono; [| exact H]. intros; auto.
    + eapply star_lazy_mono; [| exact H]. intros; auto.
  - eapply IHr; [| exact H]. intros; auto.
  - destruct (mt r st (@Some state)); auto.
  - destruct (Nat.eqb (pos st) 0); auto.
  - destruct (rest st); auto.
Qed.

(** *** What a match consumes *)

Lemma Run_span c p s p' s' :
  Run c p s p' s' ->
  exists w, s = w ++ s' /\ p' = p + List.length w /\ forallb c w = true.
Proof.
  induction 1 as [p s | p x t p' s' Cx _ (w & -> & -> & Hw)].
  - exists []. simpl. auto.
  - exists (x :: w). simpl. rewrite Cx, Hw. repeat split; auto; lia.
Qed.

Lemma Matches_span r st st' :
  Matches r st st' ->
  exists w, rest st = w ++ rest st' /\ pos st' = pos st + List.length w
            /\ minlen r <= List.length w.
Proof.
  induction 1; simpl.
  - exists []. simpl. auto with arith.
  - exists [x]. simpl. repeat split; auto; lia.
  - destruct IHMatches1 as (w1 & E1 & P1 & L1).
    destruct IHMatches2 as (w2 & E2 & P2 & L2).
    exists (w1 ++ w2). rewrite E1, E2, P2, P1, app_assoc, length_app.
    repeat split; lia.
  - destruct IHMatches as (w & E & P & L). exists w. repeat split; auto; lia.
  - destruct IHMatches as (w & E & P & L). exists w. repeat split; auto; lia.
  - apply Run_span in H as (w & E & P & _). exists w. repeat split; auto; lia.
  - destruct IHMatches as (w & E & P & L). exists w. auto.
  - exists []. simpl. auto with arith.
  - exists []. simpl. auto with arith.
  - exists []. simpl. auto with arith.
Qed.

(** *** What a capture group holds *)

Lemma Matches_plus c g st st' :
  Matches (Seq (Chr c) (Star g c)) st st' ->
  nonempty_of c (firstn (pos st' - pos st) (rest st)).
Proof.
  intros M. inversion M as [| |a b st1 st2 st3 M1 M2| | | | | | |]; subst.
  inversion M1 as [|c0 st0 x t E Cx| | | | | | | |]; subst.
  inversion M2 as [| | | | |g0 c0 st0 p s Hr| | | |]; subst.
  cbn [pos rest] in Hr. apply Run_span in Hr as (w & -> & -> & Hw).
  cbn [pos rest]. rewrite E.
  replace (S (pos st) + List.length w - pos st) with (S (List.length w)) by lia.
  cbn [firstn]. rewrite firstn_app, firstn_all, Nat.sub_diag. cbn [firstn].
  rewrite app_nil_r.
  split; [discriminate |]. simpl. rewrite Cx, Hw. reflexivity.
Qed.

Lemma Matches_cap_class i c r st st' :
  Matches r st st' -> cap_class i c r ->
  (forall s, get_cap i (caps st) = Some s -> nonempty_of c s) ->
  forall s, get_cap i (caps st') = Some s -> nonempty_of c s.
Proof.
  induction 1; simpl; intros HC Hinit; auto.
  - destruct HC. eauto.
  - destruct HC. eauto.
  - destruct HC. eauto.
  - destruct HC as [Hj Ha]. intros s. simpl.
    destruct (Nat.eqb i i0) eqn:E.
    + apply Nat.eqb_eq in E. subst i0. destruct (Hj eq_refl) as [g ->].
      intros Hs. inversion Hs; subst. eapply Matches_plus; eauto.
    + eauto.
Qed.

Lemma Matches_keeps i r st st' :
  Matches r st st' -> get_cap i (caps st) <> None -> get_cap i (caps st') <> None.
Proof.
  induction 1; simpl; auto.
  intros Hinit. destruct (Nat.eqb i i0); [discriminate | auto].
Qed.

Lemma Matches_defines i r st st' :
  Matches r st st' -> defines i r = true -> get_cap i (caps st') <> None.
Proof.
  induction 1; simpl; intros D; try discriminate.
  - apply orb_true_iff in D as [D | D].
    + eapply Matches_keeps; eauto.
    + auto.
  - apply andb_true_iff in D as [D _]. auto.
  - apply andb_true_iff in D as [_ D]. auto.
  - destruct (Nat.eqb i i0); [discriminate | auto].
Qed.

(** *** The result of a search *)

Lemma search_sound r :
  forall s p i st, search r p s = Some (i, st) ->
  exists pre suf, s = pre ++ suf /\ i = p + List.length pre
                  /\ Matches r (mkState i suf []) st.
Proof.
  induction s as [|a s IH]; simpl; intros p i st H.
  - destruct (mt r (mkState p [] []) (@Some state)) eqn:E; [| discriminate].
    inversion H; subst. apply mt_sound in E as (st' & M & Hs).
    inversion Hs; subst. exists [], []. simpl. auto.
  - destruct (mt r (mkState p (a :: s) []) (@Some state)) eqn:E.
    + inversion H; subst. apply mt_sound in E as (st' & M & Hs).
      inversion Hs; subst. exists [], (a :: s). simpl. auto.
    + apply IH in H as (pre & suf & -> & -> & M).
      exists (a :: pre), suf. simpl. repeat split; auto; lia.
Qed.

Lemma exec_from_sound r from s m :
  exec_from r from s = Some m ->
  exists st0 st, Matches r st0 st /\ caps st0 = [] /\ m_groups m = caps st
                 /\ m_end m = pos st /\ from <= pos st0
                 /\ (from <= List.length s -> pos st <= List.length s).
Proof.
  unfold exec_from. intros H.
  destruct (List.length s <? from)%nat; [discriminate |].
  destruct (search r from (skipn from s)) as [[i st]|] eqn:E; [| discriminate].
  inversion H; subst; simpl. apply search_sound in E as (pre & suf & Es & -> & M).
  exists (mkState (from + List.length pre) suf []), st. simpl.
  repeat split; auto; try lia.
  intros Hle. destruct (Matches_span _ _ _ M) as (w & Ew & Pw & _). simpl in *.
  assert (L : List.length (skipn from s) = List.length s - from) by apply length_skipn.
  rewrite Es, Ew, !length_app in L. lia.
Qed.

(** A group that every match defines, and that is [(c+)] wherever it
    occurs, is a non-empty string of class [c] after a successful search. *)
Lemma exec_group r i c from s m :
  exec_from r from s = Some m -> defines i r = true -> cap_class i c r ->
  exists g, group m i = Ok g /\ nonempty_of c g.
Proof.
  intros H D C. apply exec_from_sound in H as (st0 & st & M & E0 & Eg & _).
  unfold group. rewrite Eg.
  pose proof (Matches_defines i _ _ _ M D) as Hd.
  destruct (get_cap i (caps st)) as [g|] eqn:G; [| congruence].
  exists g. split; auto.
  eapply Matches_cap_class; eauto. rewrite E0. simpl. discriminate.
Qed.

Lemma exec_from_advance r from s m :
  exec_from r from s = Some m -> from <= List.length s ->
  from + minlen r <= m_end m /\ m_end m <= List.length s.
Proof.
  intros H Hle.
  apply exec_from_sound in H as (st0 & st & M & _ & _ & -> & Hfrom & Hend).
  destruct (Matches_span _ _ _ M) as (w & _ & Pw & Lw). split; [lia | auto].
Qed.

(** The text of a pattern holds no group. *)
Lemma cap_class_lit i c s : cap_class i c (lit s).
Proof. induction s; simpl; auto. Qed.

Lemma cap_class_liti i c s : cap_class i c (liti s).
Proof. induction s; simpl; auto. Qed.

Lemma cap_class_lits i c s : cap_class i c (lits s).
Proof. induction s; simpl; auto. Qed.

(** *** Anchored patterns and greedy runs *)

Lemma ltb_0 n : (n <? 0)%nat = false.
Proof. apply Nat.ltb_ge. apply Nat.le_0_l. Qed.

Lemma search_Bos r : forall s p, 1 <= p -> search (Seq Bos r) p s = None.
Proof.
  induction s as [|a s IH]; intros p Hp; simpl;
    destruct p; try lia; simpl; auto with arith.
Qed.

Lemma exec_Bos r s :
  exec (Seq Bos r) s =
  match mt r (mkState 0 s []) (@Some state) with
  | Some st => Some (mkMatch 0 (firstn (pos st - 0) s) (caps st) (pos st) (rest st))
  | None => None
  end.
Proof.
  unfold exec, exec_from. rewrite ltb_0. simpl skipn.
  destruct s as [|a s]; simpl.
  - destruct (mt r (mkState 0 [] []) (@Some state)); reflexivity.
  - destruct (mt r (mkState 0 (a :: s) []) (@Some state)); [reflexivity |].
    rewrite search_Bos by lia. reflexivity.
Qed.

(** A greedy run followed by something that always succeeds takes the whole
    run. *)
Lemma star_greedy_total (R : Type) c (k : nat -> jsstring -> option R) :
  (forall p s, k p s <> None) ->
  forall s p, star_greedy c p s k
              = k (p + List.length (takeWhile c s)) (dropWhile c s).
Proof.
  intros Hk. induction s as [|a s IH]; intros p; simpl.
  - f_equal. lia.
  - destruct (c a); simpl.
    + rewrite IH. replace (p + S (List.length (takeWhile c s)))
        with (S p + List.length (takeWhile c s)) by lia.
      destruct (k (S p + List.length (takeWhile c s)) (dropWhile c s)) eqn:E;
        [reflexivity | exfalso; eapply Hk; eauto].
    + f_equal. lia.
Qed.

(** A greedy run followed by something that cannot start inside the run
    takes the whole run as well: giving back a code unit never helps. *)
Lemma star_greedy_reject (R : Type) c (k : nat -> jsstring -> option R) :
  (forall p x t, c x = true -> k p (x :: t) = None) ->
  forall s p, star_greedy c p s k
              = k (p + List.length (takeWhile c s)) (dropWhile c s).
Proof.
  intros Hk. induction s as [|a s IH]; intros p; simpl.
  - f_equal. lia.
  - destruct (c a) eqn:Ca; simpl.
    + rewrite IH. replace (p + S (List.length (takeWhile c s)))
        with (S p + List.length (takeWhile c s)) by lia.
      destruct (k (S p + List.length (takeWhile c s)) (dropWhile c s)) eqn:E;
        [reflexivity |]. apply Hk. exact Ca.
    + f_equal. lia.
Qed.

End RegExpFacts.

(** ** Facts about the extractors *)

Module ScorerFacts.

Import RegExpFacts.

Ltac N_cases :=
  repeat match goal with
         | |- context [N.leb ?a ?b] => destruct (N.leb_spec a b); try lia
         | |- context [N.eqb ?a ?b] => destruct (N.eqb_spec a b); try lia
         end.

Lemma digit_bounds x : digit x = true -> (48 <= x <= 57)%N.
Proof.
  unfold digit. intros H. apply andb_true_iff in H as [H1 H2].
  apply N.leb_le in H1, H2. lia.
Qed.

Lemma digit_not_ws x : digit x = true -> ws x = false.
Proof.
  intros H. apply digit_bounds in H. unfold ws. N_cases; reflexivity.
Qed.

Lemma takeWhile_all c s : forallb c s = true -> takeWhile c s = s.
Proof.
  induction s as [|a s IH]; simpl; auto.
  intros H. apply andb_true_iff in H as [-> H]. f_equal. auto.
Qed.

Lemma digits_fold_nonneg s : forall acc,
  forallb digit s = true -> (0 <= acc)%Z ->
  (0 <= fold_left (fun a d => 10 * a + digit_val d) s acc)%Z.
Proof.
  induction s as [|x s IH]; cbn [fold_left forallb]; intros acc H Hacc; auto.
  apply andb_true_iff in H as [Hx H]. apply digit_bounds in Hx.
  apply IH; auto. unfold digit_val. lia.
Qed.

(** [parseInt] of a [(\d+)] capture is the value of its digits. *)
Lemma parseInt_digits g :
  nonempty_of digit g -> parseInt g = Ok (digits_val g) /\ (0 <= digits_val g)%Z.
Proof.
  intros [Hne Hd]. destruct g as [|x t]; [congruence |].
  split; [| apply digits_fold_nonneg; auto; lia].
  pose proof Hd as Hd'. simpl in Hd'. apply andb_true_iff in Hd' as [Hx Ht].
  unfold parseInt. simpl dropWhile. rewrite (digit_not_ws _ Hx).
  apply digit_bounds in Hx as Hb.
  destruct (N.eqb_spec x 43); [lia |]. destruct (N.eqb_spec x 45); [lia |].
  rewrite (takeWhile_all _ _ Hd). f_equal. apply Z.mul_1_l.
Qed.

Lemma parseGroup_ok r i from s m :
  exec_from r from s = Some m -> defines i r = true -> cap_class i digit r ->
  exists g, group m i = Ok g /\ nonempty_of digit g
            /\ parseGroup m i = Ok (digits_val g) /\ (0 <= digits_val g)%Z.
Proof.
  intros H D C. destruct (exec_group r i digit from s m H D C) as (g & Hg & Hn).
  exists g. destruct (parseInt_digits _ Hn) as [Hp Hz].
  unfold parseGroup. rewrite Hg. simpl. auto.
Qed.

Ltac cap_tac :=
  simpl; repeat split;
  auto using cap_class_lit, cap_class_liti, cap_class_lits;
  try (intros; discriminate); try (intros; eexists; reflexivity).

Lemma total_group : defines 1 Pat.total = true /\ cap_class 1 digit Pat.total.
Proof. split; [reflexivity | cap_tac]. Qed.

Lemma overall_group : defines 1 Pat.overall = true /\ cap_class 1 digit Pat.overall.
Proof. split; [reflexivity | cap_tac]. Qed.

Lemma anyScore_group : defines 1 Pat.anyScore = true /\ cap_class 1 digit Pat.anyScore.
Proof. split; [reflexivity | cap_tac]. Qed.

Lemma percent_group a b :
  defines 1 (Pat.percent a b) = true /\ cap_class 1 digit (Pat.percent a b).
Proof.
  split.
  - unfold Pat.percent. simpl. rewrite !orb_true_r. reflexivity.
  - unfold Pat.percent. cap_tac.
Qed.

Lemma tier_group d : defines 1 (Pat.tier d) = true /\ cap_class 1 digit (Pat.tier d).
Proof.
  split.
  - unfold Pat.tier. simpl. rewrite !orb_true_r. reflexivity.
  - unfold Pat.tier. cap_tac.
Qed.

Lemma criterionScore_group n :
  defines 1 (Pat.criterionScore n) = true
  /\ cap_class 1 digit (Pat.criterionScore n).
Proof.
  split.
  - unfold Pat.criterionScore. simpl. rewrite !orb_true_r. reflexivity.
  - unfold Pat.criterionScore, Pat.criterionHead. cap_tac.
Qed.

Lemma criterionRating_group n :
  defines 1 (Pat.criterionRating n) = true
  /\ cap_class 1 Pat.not_lf (Pat.criterionRating n).
Proof.
  split.
  - unfold Pat.criterionRating. simpl. rewrite !orb_true_r. reflexivity.
  - unfold Pat.criterionRating, Pat.criterionHead. cap_tac.
Qed.

Lemma criterionConcerns_group n :
  defines 1 (Pat.criterionConcerns n) = true
  /\ cap_class 1 Pat.not_hash (Pat.criterionConcerns n).
Proof.
  split.
  - unfold Pat.criterionConcerns. simpl. rewrite !orb_true_r. reflexivity.
  - unfold Pat.criterionConcerns, Pat.criterionHead. cap_tac.
Qed.

Lemma evidenceConcerns_group :
  defines 1 Pat.evidenceConcerns = true
  /\ cap_class 1 Pat.not_hash Pat.evidenceConcerns.
Proof. split; [reflexivity | cap_tac]. Qed.

Lemma row_groups :
  (defines 1 Pat.row = true /\ cap_class 1 Pat.not_pipe Pat.row)
  /\ (defines 2 Pat.row = true /\ cap_class 2 digit Pat.row)
  /\ (defines 3 Pat.row = true /\ cap_class 3 Pat.not_pipe Pat.row).
Proof. repeat split; try reflexivity; cap_tac. Qed.

Lemma field_ok r report dflt :
  defines 1 r = true /\ cap_class 1 digit r ->
  exists z, field r report dflt = Ok z /\ field_value r report dflt z.
Proof.
  intros [D C]. unfold field, field_value.
  destruct (exec r report) as [m|] eqn:E; [| eauto].
  destruct (parseGroup_ok r 1 0 report m E D C) as (g & Hg & Hn & Hp & Hz).
  exists (digits_val g). split; [exact Hp |]. exists g. auto.
Qed.

Lemma field_nonneg r report dflt z :
  field_value r report dflt z -> (0 <= dflt)%Z -> (0 <= z)%Z.
Proof.
  unfold field_value. destruct (exec r report).
  - intros (g & _ & _ & _ & Hz) _. exact Hz.
  - intros -> H. exact H.
Qed.

Lemma calculateApprovalProb_range s : (10 <= calculateApprovalProb s <= 85)%Z.
Proof.
  unfold calculateApprovalProb.
  repeat match goal with |- context [(?a >=? ?b)%Z] => destruct (a >=? b)%Z end; lia.
Qed.

Lemma calculateRFEProb_range s : (10 <= calculateRFEProb s <= 50)%Z.
Proof.
  unfold calculateRFEProb.
  repeat match goal with |- context [(?a >=? ?b)%Z] => destruct (a >=? b)%Z end; lia.
Qed.

Lemma extractScore_fallback report :
  no_numeric_score report ->
  extractScore report =
  Ok (if (lower_includes report "strong approval" || lower_includes report "approve")%bool
      then 75
      else if lower_includes report "rfe likely" then 60
      else if (lower_includes report "denial" || lower_includes report "major revision")%bool
      then 40
      else 55)%Z.
Proof.
  intros (H1 & H2 & H3). unfold extractScore. rewrite H1, H2, H3.
  destruct (lower_includes report "strong approval" || lower_includes report "approve")%bool;
    [reflexivity |].
  destruct (lower_includes report "rfe likely"); [reflexivity |].
  destruct (lower_includes report "denial" || lower_includes report "major revision")%bool;
    reflexivity.
Qed.

(** [extractScore] follows the chain total row, overall score, bolded
    score, keywords. *)
Lemma extractScore_chain report :
  extractScore report =
  match exec Pat.total report with
  | Some m => parseGroup m 1
  | None =>
      match exec Pat.overall report with
      | Some m => parseGroup m 1
      | None => field Pat.anyScore report
                  (if (lower_includes report "strong approval"
                       || lower_includes report "approve")%bool then 75
                   else if lower_includes report "rfe likely" then 60
                   else if (lower_includes report "denial"
                            || lower_includes report "major revision")%bool then 40
                   else 55)%Z
      end
  end.
Proof.
  unfold extractScore, field.
  destruct (exec Pat.total report); [reflexivity |].
  destruct (exec Pat.overall report); [reflexivity |].
  destruct (exec Pat.anyScore report); [reflexivity |].
  destruct (lower_includes report "strong approval" || lower_includes report "approve")%bool;
    [reflexivity |].
  destruct (lower_includes report "rfe likely"); [reflexivity |].
  destruct (lower_includes report "denial" || lower_includes report "major revision")%bool;
    reflexivity.
Qed.

Lemma extractScore_total report :
  exists z, extractScore report = Ok z /\ (0 <= z)%Z.
Proof.
  rewrite extractScore_chain.
  destruct (exec Pat.total report) as [m|] eqn:E1.
  { destruct total_group as [D C].
    destruct (parseGroup_ok _ 1 0 report m E1 D C) as (g & _ & _ & Hp & Hz). eauto. }
  destruct (exec Pat.overall report) as [m|] eqn:E2.
  { destruct overall_group as [D C].
    destruct (parseGroup_ok _ 1 0 report m E2 D C) as (g & _ & _ & Hp & Hz). eauto. }
  match goal with |- context [field _ _ ?d] =>
    destruct (field_ok _ report d anyScore_group) as (z & Hz & Hv);
    exists z; split; [exact Hz |]; apply (field_nonneg _ _ _ _ Hv)
  end.
  repeat match goal with |- context [if ?b then _ else _] => destruct b end; lia.
Qed.

(** The three percentages, one [field] each; the default of the third
    depends on the first two, and the result is floored at 0. *)
Lemma extractProbabilities_eq report overallScore :
  extractProbabilities report overallScore =
  (a <- field Pat.approval report (calculateApprovalProb overallScore) ;;
   r <- field Pat.rfe report (calculateRFEProb overallScore) ;;
   d <- field Pat.denial report (100 - a - r)%Z ;;
   Ok (mkProbabilities a r (Z.max 0 d))).
Proof. reflexivity. Qed.

Lemma extractProbabilities_ok report overallScore :
  exists a r d,
    extractProbabilities report overallScore = Ok (mkProbabilities a r (Z.max 0 d))
    /\ field_value Pat.approval report (calculateApprovalProb overallScore) a
    /\ field_value Pat.rfe report (calculateRFEProb overallScore) r
    /\ field_value Pat.denial report (100 - a - r)%Z d
    /\ (0 <= a)%Z /\ (0 <= r)%Z.
Proof.
  rewrite extractProbabilities_eq.
  destruct (field_ok _ report (calculateApprovalProb overallScore)
              (percent_group "approval" "probability")) as (a & Ha & Va).
  destruct (field_ok _ report (calculateRFEProb overallScore)
              (percent_group "rfe" "probability")) as (r & Hr & Vr).
  destruct (field_ok _ report (100 - a - r)%Z
              (percent_group "denial" "risk")) as (d & Hd & Vd).
  exists a, r, d. unfold Pat.approval, Pat.rfe, Pat.denial.
  rewrite Ha. cbn [bind]. rewrite Hr. cbn [bind]. rewrite Hd. cbn [bind].
  repeat split; auto.
  - apply (field_nonneg _ _ _ _ Va). pose proof (calculateApprovalProb_range overallScore). lia.
  - apply (field_nonneg _ _ _ _ Vr). pose proof (calculateRFEProb_range overallScore). lia.
Qed.

(** A pattern cannot match where its head does not. *)
Lemma search_seq_none a b : forall s p,
  search a p s = None -> search (Seq a b) p s = None.
Proof.
  assert (Hm : forall st, mt a st (@Some state) = None ->
                          mt (Seq a b) st (@Some state) = None).
  { intros st H. simpl.
    destruct (mt a st (fun st1 => mt b st1 (@Some state))) eqn:E; [| reflexivity].
    exfalso. apply (mt_mono a _ _ st (fun st1 => mt b st1 (@Some state)) (@Some state));
      [intros; discriminate | congruence | exact H]. }
  induction s as [|x s IH]; intros p H; cbn [search] in *.
  - destruct (mt a (mkState p [] []) (@Some state)) eqn:E; [discriminate |].
    rewrite (Hm _ E). reflexivity.
  - destruct (mt a (mkState p (x :: s) []) (@Some state)) eqn:E; [discriminate |].
    rewrite (Hm _ E). auto.
Qed.

Lemma exec_seq_none a b s : exec a s = None -> exec (Seq a b) s = None.
Proof.
  unfold exec, exec_from. rewrite ltb_0. intros H.
  destruct (search a 0 (skipn 0 s)) as [[i st]|] eqn:E; [discriminate |].
  rewrite (search_seq_none a b _ _ E). reflexivity.
Qed.

Lemma concerns_ok r report :
  defines 1 r = true /\ cap_class 1 Pat.not_hash r ->
  exists cn,
    match exec r report with
    | Some m => t <- group m 1 ;; Ok (extractBulletPoints t)
    | None => Ok []
    end = Ok cn /\ concerns_value r report cn.
Proof.
  intros [D C]. unfold concerns_value.
  destruct (exec r report) as [m|] eqn:E; [| eauto].
  destruct (exec_group r 1 _ 0 report m E D C) as (g & Hg & _).
  rewrite Hg. cbn [bind]. eauto.
Qed.

Lemma scoreCriterion_ok report criterion :
  exists rt sc cn,
    scoreCriterion report criterion
    = Ok (mkCriterionScore (number criterion) (name criterion) rt sc
            (scoreToQuality sc) cn [] [])
    /\ rating_value report (number criterion) rt
    /\ field_value (Pat.criterionScore (number criterion)) report (ratingToScore rt) sc
    /\ concerns_value (Pat.criterionConcerns (number criterion)) report cn.
Proof.
  unfold scoreCriterion.
  assert (Hr : exists rt,
    match exec (Pat.criterionRating (number criterion)) report with
    | Some m => t <- group m 1 ;; Ok (parseRating t)
    | None => Ok NotClaimed
    end = Ok rt /\ rating_value report (number criterion) rt).
  { unfold rating_value.
    destruct (exec (Pat.criterionRating (number criterion)) report) as [m|] eqn:E;
      [| eauto].
    destruct (criterionRating_group (number criterion)) as [D C].
    destruct (exec_group _ 1 _ 0 report m E D C) as (g & Hg & _).
    rewrite Hg. cbn [bind]. eauto. }
  destruct Hr as (rt & Hr & Vr). rewrite Hr. cbn [bind].
  destruct (field_ok _ report (ratingToScore rt)
              (criterionScore_group (number criterion))) as (sc & Hs & Vs).
  unfold field in Hs. rewrite Hs. cbn [bind].
  destruct (concerns_ok _ report (criterionConcerns_group (number criterion)))
    as (cn & Hc & Vc).
  rewrite Hc. cbn [bind]. exists rt, sc, cn. auto.
Qed.

Lemma criteria_loop_ok report : forall criteria acc,
  exists l, criteria_loop report criteria acc = Ok (acc ++ l)
            /\ Forall2 (fun c cs => scoreCriterion report c = Ok cs) criteria l.
Proof.
  induction criteria as [|c criteria IH]; intros acc; cbn [criteria_loop].
  - exists []. rewrite app_nil_r. auto.
  - destruct (scoreCriterion_ok report c) as (rt & sc & cn & Hc & _).
    rewrite Hc. cbn [bind].
    destruct (IH (acc ++ [mkCriterionScore (number c) (name c) rt sc
                            (scoreToQuality sc) cn [] []])) as (l & Hl & Fl).
    eexists (_ :: l). rewrite Hl, <- app_assoc. split; [reflexivity |].
    constructor; auto.
Qed.

Lemma extractCriteriaScores_ok report visaType :
  exists l, extractCriteriaScores report visaType = Ok l
            /\ Forall2 (fun c cs => scoreCriterion report c = Ok cs)
                 (VISA_CRITERIA visaType) l.
Proof.
  unfold extractCriteriaScores.
  destruct (criteria_loop_ok report (VISA_CRITERIA visaType) []) as (l & Hl & Fl).
  eauto.
Qed.

Lemma extractEvidenceQuality_ok report :
  exists t1 t2 t3 t4 cn,
    extractEvidenceQuality report
    = Ok (mkEvidenceQuality t1 t2 t3 t4 (assess t1 t2) cn)
    /\ field_value (Pat.tier "1") report 0 t1
    /\ field_value (Pat.tier "2") report 0 t2
    /\ field_value (Pat.tier "3") report 0 t3
    /\ field_value (Pat.tier "4") report 0 t4
    /\ concerns_value Pat.evidenceConcerns report cn.
Proof.
  unfold extractEvidenceQuality, tierCount.
  destruct (field_ok _ report 0%Z (tier_group "1")) as (t1 & H1 & V1).
  destruct (field_ok _ report 0%Z (tier_group "2")) as (t2 & H2 & V2).
  destruct (field_ok _ report 0%Z (tier_group "3")) as (t3 & H3 & V3).
  destruct (field_ok _ report 0%Z (tier_group "4")) as (t4 & H4 & V4).
  destruct (concerns_ok _ report evidenceConcerns_group) as (cn & Hc & Vc).
  unfold field in H1, H2, H3, H4.
  rewrite H1. cbn [bind]. rewrite H2. cbn [bind]. rewrite H3. cbn [bind].
  rewrite H4. cbn [bind]. rewrite Hc. cbn [bind].
  exists t1, t2, t3, t4, cn. auto 10.
Qed.

(** The row loop ends: every match of the row pattern moves [lastIndex]
    forward, so the length of the section bounds the number of turns. *)
Lemma rows_loop_total section : forall fuel lastIndex acc,
  lastIndex <= List.length section -> List.length section < fuel + lastIndex ->
  exists l, rows_loop fuel section lastIndex acc = Ok l.
Proof.
  induction fuel as [|fuel IH]; intros lastIndex acc Hle Hlt; [lia |].
  cbn [rows_loop].
  destruct (exec_from Pat.row lastIndex section) as [m|] eqn:E; [| eauto].
  destruct row_groups as ((D1 & C1) & (D2 & C2) & (D3 & C3)).
  destruct (exec_group _ 1 _ _ _ _ E D1 C1) as (g1 & Hg1 & _).
  destruct (parseGroup_ok _ 2 _ _ _ E D2 C2) as (g2 & _ & _ & Hg2 & _).
  destruct (exec_group _ 3 _ _ _ _ E D3 C3) as (g3 & Hg3 & _).
  rewrite Hg1. cbn [bind]. rewrite Hg2. cbn [bind]. rewrite Hg3. cbn [bind].
  destruct (exec_from_advance _ _ _ _ E Hle) as [Hadv Hend].
  assert (Hmin : 1 <= minlen Pat.row) by (vm_compute; lia).
  apply IH; lia.
Qed.

Lemma extractRFEPredictions_total report :
  exists l, extractRFEPredictions report = Ok l.
Proof.
  unfold extractRFEPredictions.
  destruct (exec Pat.rfeSection report) as [m|]; [| eauto].
  apply rows_loop_total; lia.
Qed.

(** The parser always answers, and its answer is assembled from the
    answers of the extractors. *)
Lemma parseOfficerReport_ok report visaType :
  exists s p cs e rows,
    extractScore report = Ok s
    /\ extractProbabilities report s = Ok p
    /\ extractCriteriaScores report visaType = Ok cs
    /\ extractEvidenceQuality report = Ok e
    /\ extractRFEPredictions report = Ok rows
    /\ parseOfficerReport report visaType
       = Ok (Report.mk s (getOverallRating s) (approval p) (rfe p) (denial p)
               cs e rows
               (extractListItems report
                  ["RED FLAGS"; "CONCERNS"; "WEAKNESSES"; "MY CONCERNS"]%string)
               (extractListItems report ["STRENGTHS"; "STRONG"; "ACKNOWLEDGE"]%string)
               (extractRecommendations report)).
Proof.
  destruct (extractScore_total report) as (s & Hs & _).
  destruct (extractProbabilities_ok report s) as (a & r & d & Hp & _).
  destruct (extractCriteriaScores_ok report visaType) as (cs & Hc & _).
  destruct (extractEvidenceQuality_ok report) as (t1 & t2 & t3 & t4 & cn & He & _).
  destruct (extractRFEPredictions_total report) as (rows & Hr).
  exists s, (mkProbabilities a r (Z.max 0 d)), cs,
    (mkEvidenceQuality t1 t2 t3 t4 (assess t1 t2) cn), rows.
  unfold parseOfficerReport. rewrite Hs. cbn [bind]. rewrite Hp. cbn [bind].
  rewrite Hc. cbn [bind]. rewrite He. cbn [bind]. rewrite Hr. cbn [bind].
  repeat split; reflexivity.
Qed.

End ScorerFacts.

(** ** Bullet lines *)

Module BulletFacts.

Import RegExpFacts ScorerFacts.

Lemma test_bulletStart s :
  test Pat.bulletStart s = match s with x :: _ => Pat.bullet x | [] => false end.
Proof.
  unfold test, Pat.bulletStart. rewrite exec_Bos. cbn [mt rest pos caps].
  destruct s as [|x t]; [reflexivity |]. destruct (Pat.bullet x); reflexivity.
Qed.

Lemma digit_not_period y : digit y = true -> eqc "." y = false.
Proof.
  intros H. apply digit_bounds in H. unfold eqc.
  change (N_of_ascii ".") with 46%N. destruct (N.eqb_spec y 46); [lia | reflexivity].
Qed.

Lemma test_numberedStart s :
  test Pat.numberedStart s =
  match s with
  | x :: t =>
      (digit x &&
       match dropWhile digit t with y :: _ => eqc "." y | [] => false end)%bool
  | [] => false
  end.
Proof.
  unfold test, Pat.numberedStart. cbn [seqs fold_right]. rewrite exec_Bos.
  unfold plus. cbn [mt rest pos caps].
  destruct s as [|x t]; [reflexivity |]. destruct (digit x); [| reflexivity].
  rewrite star_greedy_reject.
  - destruct (dropWhile digit t) as [|y t']; [reflexivity |].
    cbn [andb]. destruct (eqc "." y); reflexivity.
  - intros p y t' Hy. rewrite (digit_not_period _ Hy). reflexivity.
Qed.

Lemma star_ws_end p s :
  star_greedy ws p s (fun p' s' => Some (mkState p' s' []))
  = Some (mkState (p + List.length (takeWhile ws s)) (dropWhile ws s) []).
Proof. apply star_greedy_total. intros; discriminate. Qed.

Lemma replace_markerPrefix s :
  replace_empty Pat.markerPrefix s =
  match s with
  | x :: t => if Pat.marker x then dropWhile ws (dropWhile Pat.marker t) else s
  | [] => []
  end.
Proof.
  unfold replace_empty, Pat.markerPrefix. cbn [seqs fold_right]. rewrite exec_Bos.
  unfold plus. cbn [mt rest pos caps].
  destruct s as [|x t]; [reflexivity |]. destruct (Pat.marker x); [| reflexivity].
  rewrite star_greedy_total.
  - rewrite star_ws_end. reflexivity.
  - intros p s. rewrite star_ws_end. discriminate.
Qed.

Lemma starts_marked_marker x t : starts_marked (x :: t) = true -> Pat.marker x = true.
Proof.
  unfold starts_marked, Pat.marker. intros H.
  apply orb_true_iff in H as [-> | H]; [reflexivity |].
  apply andb_true_iff in H as [-> _]. rewrite orb_true_r. reflexivity.
Qed.

Lemma takeWhile_dropWhile c s : takeWhile c s ++ dropWhile c s = s.
Proof.
  induction s as [|x s IH]; cbn; [reflexivity |].
  destruct (c x); cbn; [rewrite IH |]; reflexivity.
Qed.

Lemma forallb_takeWhile c s : forallb c (takeWhile c s) = true.
Proof.
  induction s as [|x s IH]; cbn; [reflexivity |].
  destruct (c x) eqn:E; cbn; [rewrite E, IH |]; reflexivity.
Qed.

Lemma dropWhile_app_stop c (ds : jsstring) (y : code) (t : jsstring) :
  forallb c ds = true -> c y = false -> dropWhile c (ds ++ y :: t) = y :: t.
Proof.
  induction ds as [|d ds IH]; cbn; intros H Hy.
  - rewrite Hy. reflexivity.
  - apply andb_true_iff in H as [-> H]. auto.
Qed.

(** [starts_marked] in words: the first code unit is "-", "*" or the bullet
    U+2022, or the line starts with one or more digits and then a period. *)
Lemma starts_marked_iff s :
  starts_marked s = true <->
  (exists (x : code) (t : jsstring), s = x :: t /\ (x = 45 \/ x = 42 \/ x = BULLET)%N)
  \/ (exists ds t : jsstring,
        ds <> [] /\ forallb digit ds = true /\ s = ds ++ (46%N : code) :: t).
Proof.
  unfold starts_marked. split.
  - destruct s as [|x t]; [discriminate |]. intros H.
    apply orb_true_iff in H as [H | H].
    + left. exists x, t. split; [reflexivity |]. unfold Pat.bullet in H.
      apply orb_true_iff in H as [H | H];
        [apply orb_true_iff in H as [H | H] |]; apply N.eqb_eq in H; auto.
    + right. apply andb_true_iff in H as [Hx H].
      destruct (dropWhile digit t) as [|y t'] eqn:E; [discriminate |].
      change (str ".") with [46%N] in H. cbn [startsWith] in H.
      rewrite andb_true_r in H. apply N.eqb_eq in H. subst y.
      exists (x :: takeWhile digit t), t'. split; [discriminate |]. split.
      * cbn. rewrite Hx, forallb_takeWhile. reflexivity.
      * pose proof (takeWhile_dropWhile digit t) as Ht. rewrite E in Ht.
        cbn [app]. apply (f_equal (cons x)). symmetry. exact Ht.
  - intros [(x & t & -> & H) | (ds & t & Hne & Hd & ->)].
    + apply orb_true_iff. left. unfold Pat.bullet.
      destruct H as [-> | [-> | ->]]; reflexivity.
    + destruct ds as [|d ds]; [congruence |]. cbn in Hd.
      apply andb_true_iff in Hd as [Hd Hds]. cbn [app].
      rewrite Hd, (dropWhile_app_stop digit ds (46%N : code) t Hds eq_refl).
      cbn. apply orb_true_r.
Qed.

Lemma bulletItem_spec line :
  bulletItem line = if kept line then Some (bullet_content line) else None.
Proof.
  unfold bulletItem, kept, bullet_content.
  rewrite test_bulletStart, test_numberedStart, replace_markerPrefix.
  destruct (trim line) as [|x t] eqn:E; [reflexivity |].
  replace (match dropWhile digit t with y :: _ => eqc "." y | [] => false end)
    with (startsWith (str ".") (dropWhile digit t)).
  2:{ destruct (dropWhile digit t) as [|y t']; [reflexivity |].
      cbn. unfold eqc. rewrite N.eqb_sym, andb_true_r. reflexivity. }
  fold (starts_marked (x :: t)).
  destruct (starts_marked (x :: t)) eqn:Hm; [| reflexivity].
  rewrite (starts_marked_marker _ _ Hm). cbn [dropWhile andb].
  rewrite (starts_marked_marker _ _ Hm).
  destruct (trim (dropWhile ws (dropWhile Pat.marker t))) as [|c l]; reflexivity.
Qed.

Lemma bullets_loop_spec : forall lines items,
  bullets_loop lines items = items ++ map bullet_content (filter kept lines).
Proof.
  induction lines as [|line lines IH]; intros items; cbn [bullets_loop filter].
  - cbn. rewrite app_nil_r. reflexivity.
  - rewrite bulletItem_spec. destruct (kept line).
    + rewrite IH, <- app_assoc. reflexivity.
    + apply IH.
Qed.

End BulletFacts.

(** ** The parsed report *)

Module ParserFacts.

Import RegExpFacts ScorerFacts.

(** The parser answers for every report, and each field of its answer is
    the answer of the extractor in charge of it. *)
Lemma parsed report visaType :
  exists r,
    parseOfficerReport report visaType = Ok r
    /\ extractScore report = Ok (Report.overallScore r)
    /\ Report.overallRating r = getOverallRating (Report.overallScore r)
    /\ extractProbabilities report (Report.overallScore r)
       = Ok (mkProbabilities (Report.approvalProbability r)
               (Report.rfeProbability r) (Report.denialRisk r))
    /\ Forall2 (fun c cs => scoreCriterion report c = Ok cs)
         (VISA_CRITERIA visaType) (Report.criteriaScores r)
    /\ extractEvidenceQuality report = Ok (Report.evidenceQuality r)
    /\ extractRFEPredictions report = Ok (Report.rfePredictions r).
Proof.
  destruct (parseOfficerReport_ok report visaType)
    as (s & p & cs & e & rows & Hs & Hp & Hc & He & Hr & H).
  eexists. split; [exact H |]. cbn.
  destruct (extractCriteriaScores_ok report visaType) as (l & Hl & Fl).
  assert (l = cs) by congruence. subst l.
  destruct p as [a r d]. cbn. auto 10.
Qed.

Lemma scoreCriterion_inv report criterion cs :
  scoreCriterion report criterion = Ok cs ->
  criterionNumber cs = number criterion
  /\ criterionName cs = name criterion
  /\ rating_value report (number criterion) (rating cs)
  /\ field_value (Pat.criterionScore (number criterion)) report
       (ratingToScore (rating cs)) (score cs)
  /\ evidenceQuality cs = scoreToQuality (score cs)
  /\ concerns_value (Pat.criterionConcerns (number criterion)) report
       (officerConcerns cs)
  /\ strengths cs = [] /\ suggestions cs = [].
Proof.
  intros H. destruct (scoreCriterion_ok report criterion)
    as (rt & sc & cn & E & Vr & Vs & Vc).
  rewrite E in H. inversion H; subst; cbn. auto 10.
Qed.

(** What holds of every criterion, taken with its record, holds of every
    record of the result. *)
Lemma records_Forall report (P : CriterionScore -> Prop) criteria l :
  Forall2 (fun c cs => scoreCriterion report c = Ok cs) criteria l ->
  (forall c cs, In c criteria -> scoreCriterion report c = Ok cs -> P cs) ->
  Forall P l.
Proof.
  induction 1 as [|c cs criteria l Hc _ IH]; intros HP; constructor.
  - apply (HP c); [left; reflexivity | exact Hc].
  - apply IH. intros c' cs' Hin. apply HP. right. exact Hin.
Qed.

Lemma records_map report criteria l :
  Forall2 (fun c cs => scoreCriterion report c = Ok cs) criteria l ->
  map (fun cs => (criterionNumber cs, criterionName cs)) l
  = map (fun c => (number c, name c)) criteria.
Proof.
  induction 1 as [|c cs criteria l Hc _ IH]; cbn; [reflexivity |].
  destruct (scoreCriterion_inv _ _ _ Hc) as (-> & -> & _). rewrite IH. reflexivity.
Qed.

(** A report that never writes "criterion <n>" matches none of the three
    patterns of criterion [n]. *)
Lemma unmentioned report n :
  test (Pat.criterionHead n) report = false ->
  exec (Pat.criterionRating n) report = None
  /\ exec (Pat.criterionScore n) report = None
  /\ exec (Pat.criterionConcerns n) report = None.
Proof.
  unfold test. intros H.
  destruct (exec (Pat.criterionHead n) report) eqn:E; [discriminate |].
  repeat split; apply exec_seq_none; exact E.
Qed.

End ParserFacts.

(** ** Numbers and keywords *)

Module NumberFacts.

Import RegExpFacts ScorerFacts.

Local Open Scope Z_scope.











End NumberFacts.

(** ** A worked report *)

(** The total row gives the score; the approval percentage sits in a table
    cell, which the pattern does not reach, so it is derived from the score,
    while the denial risk is read from its phrase. *)
Example sample_report_headline :
  exists r,
    parseOfficerReport sample_report O_1B = Ok r
    /\ Report.overallScore r = 72%Z
    /\ Report.overallRating r = Approve
    /\ Report.approvalProbability r = 65%Z
    /\ Report.rfeProbability r = 25%Z
    /\ Report.denialRisk r = 30%Z
    /\ hd_error (Report.criteriaScores r)
       = Some (mkCriterionScore 1 "Performed as a lead or starring participant"
                 Strong 88 Excellent
                 [str "The award is regional, not national"] [] [])
    /\ Report.evidenceQuality r
       = mkEvidenceQuality 3 7 0 0 Assessment.Moderate []
    /\ Report.rfePredictions r
       = [mkRFEPrediction (str "Awards") 70 (str "Proof of national scope") []]
    /\ Report.weaknesses r = [str "Letters come from close collaborators"].
Proof. eexists. split; [vm_compute; reflexivity |]. repeat split. Qed.

Example extractScore_chain_examples :
  extractScore (str "| **TOTAL** | **100%** | | **78/100** | overall score: 12") = Ok 78%Z
  /\ extractScore (str "Overall Score: 82/100, also **64/100**") = Ok 82%Z
  /\ extractScore (str "Final: **64/100**, I would approve") = Ok 64%Z
  /\ extractScore (str "I would Approve this petition; no denial.") = Ok 75%Z
  /\ extractScore (str "RFE likely, denial possible") = Ok 60%Z
  /\ extractScore (str "Major revision needed") = Ok 40%Z
  /\ extractScore (str "The record is thin.") = Ok 55%Z
  /\ extractScore [] = Ok 55%Z.
Proof. repeat split; vm_compute; reflexivity. Qed.

(** ** Properties of the parser *)

Import RegExpFacts ScorerFacts BulletFacts ParserFacts NumberFacts.

Local Open Scope Z_scope.

(** C2. The rating is [Approve] exactly from 70 up, [RFE Likely] exactly
    from 50 to 69 and [Denial Risk] exactly below 50, and the rating of
    every parsed report is this function of its overall score. *)
Theorem C2_rating_is_step_function_of_score :
  (forall s : Z,
      (getOverallRating s = Approve <-> 70 <= s)
      /\ (getOverallRating s = RFELikely <-> 50 <= s < 70)
      /\ (getOverallRating s = DenialRisk <-> s < 50))
  /\ (forall report visaType,
        exists r, parseOfficerReport report visaType = Ok r
                  /\ Report.overallRating r = getOverallRating (Report.overallScore r)).
Proof.
  split.
  - intros s. unfold getOverallRating.
    destruct (Z.geb_spec s 70); destruct (Z.geb_spec s 50);
      repeat split; intros; try discriminate; try lia; reflexivity.
  - intros report visaType.
    destruct (parsed report visaType) as (r & H & _ & Hr & _). eauto.
Qed.

(** C10. No record of [criteriaScores] ever carries a strength or a
    suggestion: both lists are empty whatever the report says. *)
Theorem C10_criterion_strengths_and_suggestions_empty :
  forall report visaType,
    exists r, parseOfficerReport report visaType = Ok r
              /\ Forall (fun cs => strengths cs = [] /\ suggestions cs = [])
                   (Report.criteriaScores r).
Proof.
  intros report visaType.
  destruct (parsed report visaType) as (r & H & _ & _ & _ & Hc & _).
  exists r. split; [exact H |].
  apply (records_Forall report _ _ _ Hc). intros c cs _ Hcs.
  destruct (scoreCriterion_inv _ _ _ Hcs) as (_ & _ & _ & _ & _ & _ & Hs & Hg). auto.
Qed.

(** C3. [criteriaScores] lists the criteria of the visa type, each once and
    in the order of [VISA_CRITERIA], so it has as many records as the visa
    type has criteria (8 for O-1A, 10 for EB-1A): this half of the claim
    holds for every report.  The other half does not hold of the code.  The
    pattern that looks for criterion [n] is the word "criterion", white
    space and the number, with nothing to end the number, so "Criterion 10"
    is also taken for criterion 1.  In an EB-1A report whose only section is
    that of criterion 10, criterion 1, which the report never mentions, is
    not Not Claimed with score 0 and no concerns: it has the rating, the
    score and the concern written for criterion 10. *)
Theorem C3_criterion_1_takes_the_section_of_criterion_10 :
  (forall report visaType,
     exists r,
       parseOfficerReport report visaType = Ok r
       /\ map (fun cs => (criterionNumber cs, criterionName cs)) (Report.criteriaScores r)
          = map (fun c => (number c, name c)) (VISA_CRITERIA visaType)
       /\ NoDup (map criterionNumber (Report.criteriaScores r))
       /\ List.length (Report.criteriaScores r) = List.length (VISA_CRITERIA visaType))
  /\ List.length (VISA_CRITERIA O_1A) = 8%nat
  /\ List.length (VISA_CRITERIA EB_1A) = 10%nat
  /\ (exists r,
        parseOfficerReport
          (str ("### Criterion 10: Commercial successes" ++ nl
                ++ "**My Rating:** Weak" ++ nl
                ++ "Evidence Score: 20" ++ nl
                ++ "**My Concerns:**" ++ nl
                ++ "- No box office figures are given" ++ nl)) EB_1A = Ok r
        /\ nth_error (Report.criteriaScores r) 0
           = Some (mkCriterionScore 1
                     "Nationally or internationally recognized prizes or awards"
                     Weak 20 Poor [str "No box office figures are given"] [] [])
        /\ nth_error (Report.criteriaScores r) 1
           = Some (mkCriterionScore 2
                     "Membership in associations requiring outstanding achievements"
                     NotClaimed 0 Poor [] [] [])
        /\ nth_error (Report.criteriaScores r) 9
           = Some (mkCriterionScore 10 "Commercial successes in the performing arts"
                     Weak 20 Poor [str "No box office figures are given"] [] [])).
Proof.
  split; [| split; [reflexivity | split; [reflexivity |]]].
  - intros report visaType.
    destruct (parsed report visaType) as (r & H & _ & _ & _ & Hc & _).
    exists r. split; [exact H |].
    pose proof (records_map _ _ _ Hc) as Hm.
    assert (Hn : map criterionNumber (Report.criteriaScores r)
                 = map number (VISA_CRITERIA visaType)).
    { apply (f_equal (map fst)) in Hm. rewrite !map_map in Hm. exact Hm. }
    split; [exact Hm |]. split.
    { rewrite Hn. destruct visaType; cbn;
        repeat (constructor; [cbn; intuition discriminate |]); constructor. }
    apply (f_equal (@List.length _)) in Hn. rewrite !length_map in Hn. exact Hn.
  - eexists. split; [vm_compute; reflexivity |]. repeat split.
Qed.

Lemma extractProbabilities_inv report s a r d :
  extractProbabilities report s = Ok (mkProbabilities a r d) ->
  exists d0,
    d = Z.max 0 d0
    /\ field_value Pat.approval report (calculateApprovalProb s) a
    /\ field_value Pat.rfe report (calculateRFEProb s) r
    /\ field_value Pat.denial report (100 - a - r) d0
    /\ 0 <= a /\ 0 <= r.
Proof.
  intros H. destruct (extractProbabilities_ok report s)
    as (a' & r' & d' & E & Va & Vr & Vd & Ha & Hr).
  rewrite E in H. inversion H; subst. exists d'. auto 10.
Qed.

(** C1, as stated, fails: a percentage written in the report is returned as
    it is read.  "Approval Probability: 250%" gives an approval probability
    of 250. *)
Lemma C1_extracted_percentage_is_not_clamped :
  exists r,
    parseOfficerReport (str "Approval Probability: 250%") O_1A = Ok r
    /\ Report.approvalProbability r = 250
    /\ ~ all_fields_in_0_100 r.
Proof.
  eexists. split; [vm_compute; reflexivity |]. split; [reflexivity |].
  intros (_ & [_ H] & _). cbn in H. lia.
Qed.

(** C1, amended.  Every numeric field of the parsed report is at least 0,
    and a field whose value is derived, because no pattern matched for it, is
    at most 100.  Nothing is said of how large an extracted value may be. *)
Theorem C1_fields_nonnegative_and_derived_at_most_100 :
  forall report visaType,
    exists r,
      parseOfficerReport report visaType = Ok r
      /\ 0 <= Report.overallScore r
      /\ 0 <= Report.approvalProbability r
      /\ 0 <= Report.rfeProbability r
      /\ 0 <= Report.denialRisk r
      /\ Forall (fun cs => 0 <= score cs) (Report.criteriaScores r)
      /\ (no_numeric_score report -> Report.overallScore r <= 100)
      /\ (exec Pat.approval report = None -> Report.approvalProbability r <= 100)
      /\ (exec Pat.rfe report = None -> Report.rfeProbability r <= 100)
      /\ (exec Pat.denial report = None -> Report.denialRisk r <= 100)
      /\ Forall (fun cs =>
                   exec (Pat.criterionScore (criterionNumber cs)) report = None ->
                   score cs <= 100)
           (Report.criteriaScores r).
Proof.
  intros report visaType.
  destruct (parsed report visaType) as (r & H & Hs & _ & Hp & Hc & _).
  exists r. split; [exact H |].
  destruct (extractScore_total report) as (z & Hz & Hz0).
  assert (z = Report.overallScore r) by congruence. subst z.
  destruct (extractProbabilities_inv _ _ _ _ _ Hp) as (d0 & Ed & Va & Vr & Vd & Ha & Hr).
  pose proof (calculateApprovalProb_range (Report.overallScore r)) as Ra.
  pose proof (calculateRFEProb_range (Report.overallScore r)) as Rr.
  split; [exact Hz0 |]. split; [exact Ha |]. split; [exact Hr |].
  split; [lia |]. split.
  { apply (records_Forall report _ _ _ Hc). intros c cs _ Hcs.
    destruct (scoreCriterion_inv _ _ _ Hcs) as (_ & _ & _ & Vs & _).
    apply (field_nonneg _ _ _ _ Vs). destruct (rating cs); cbn; lia. }
  split.
  { intros Hn. rewrite (extractScore_fallback _ Hn) in Hs.
    inversion Hs as [E].
    repeat match goal with |- context [if ?b then _ else _] => destruct b end; lia. }
  split; [intros E; unfold field_value in Va; rewrite E in Va; lia |].
  split; [intros E; unfold field_value in Vr; rewrite E in Vr; lia |].
  split; [intros E; unfold field_value in Vd; rewrite E in Vd; lia |].
  apply (records_Forall report _ _ _ Hc). intros c cs _ Hcs.
  destruct (scoreCriterion_inv _ _ _ Hcs) as (En & _ & _ & Vs & _).
  rewrite En. intros E. unfold field_value in Vs. rewrite E in Vs.
  rewrite Vs. destruct (rating cs); cbn; lia.
Qed.

(** C4. When no "denial risk: n%" phrase matches, the denial risk is
    100 minus the approval and RFE probabilities of the same result, floored
    at 0.  When the phrase matches, the denial risk is the number written
    there, and then the three values need not add up to 100: 60%, 30% and
    25% are returned as they stand. *)
Theorem C4_denial_risk_is_floored_complement_unless_extracted :
  (forall report visaType,
      exists r,
        parseOfficerReport report visaType = Ok r
        /\ (exec Pat.denial report = None ->
            Report.denialRisk r
            = Z.max 0 (100 - Report.approvalProbability r - Report.rfeProbability r))
        /\ (forall m, exec Pat.denial report = Some m ->
            exists g, group m 1 = Ok g /\ nonempty_of digit g
                      /\ Report.denialRisk r = digits_val g))
  /\ (exists r,
        parseOfficerReport
          (str ("Approval Probability: 60%" ++ nl ++ "RFE Probability: 30%" ++ nl
                ++ "Denial Risk: 25%")) EB_1A = Ok r
        /\ Report.approvalProbability r = 60
        /\ Report.rfeProbability r = 30
        /\ Report.denialRisk r = 25
        /\ Report.approvalProbability r + Report.rfeProbability r
           + Report.denialRisk r <> 100).
Proof.
  split.
  - intros report visaType.
    destruct (parsed report visaType) as (r & H & _ & _ & Hp & _).
    exists r. split; [exact H |].
    destruct (extractProbabilities_inv _ _ _ _ _ Hp) as (d0 & Ed & _ & _ & Vd & _).
    unfold field_value in Vd. split.
    + intros E. rewrite E in Vd. congruence.
    + intros m E. rewrite E in Vd. destruct Vd as (g & Hg & Hn & Hd & H0).
      exists g. split; [exact Hg |]. split; [exact Hn |]. rewrite Ed. lia.
  - eexists. split; [vm_compute; reflexivity |]. cbn. repeat split; discriminate.
Qed.



(** C6. The score of a rating is Strong 85, Adequate 70, Weak 50,
    Insufficient 30, Not Claimed 0, and the tier of every criterion is read
    off its score (Excellent from 80, Good from 65, Fair from 45, Poor
    below): so far the claim holds.  But the code does not look for the
    score of a criterion in the section of that criterion: it takes the
    first number that follows the word "score" anywhere between the heading
    of the criterion and the end of the report, and falls back on the rating
    only when there is none.  The criterion-4 section of the claim, rated
    Weak and without a score, gives score 50 and tier Fair when nothing
    follows it, and score 72 and tier Good when the report goes on with
    "Overall Score: 72/100". *)
Theorem C6_score_is_taken_from_beyond_the_section :
  (ratingToScore Strong = 85 /\ ratingToScore Adequate = 70
   /\ ratingToScore Weak = 50 /\ ratingToScore Insufficient = 30
   /\ ratingToScore NotClaimed = 0)
  /\ (forall s : Z,
        (scoreToQuality s = Excellent <-> 80 <= s)
        /\ (scoreToQuality s = Good <-> 65 <= s < 80)
        /\ (scoreToQuality s = Fair <-> 45 <= s < 65)
        /\ (scoreToQuality s = Poor <-> s < 45))
  /\ (forall report visaType,
        exists r,
          parseOfficerReport report visaType = Ok r
          /\ Forall (fun cs =>
                       rating_value report (criterionNumber cs) (rating cs)
                       /\ evidenceQuality cs = scoreToQuality (score cs)
                       /\ (exec (Pat.criterionScore (criterionNumber cs)) report = None ->
                           score cs = ratingToScore (rating cs)))
               (Report.criteriaScores r))
  /\ (exists r,
        parseOfficerReport
          (str ("### Criterion 4: Participation as a judge" ++ nl
                ++ "**My Rating:** Weak" ++ nl)) O_1A = Ok r
        /\ nth_error (Report.criteriaScores r) 3
           = Some (mkCriterionScore 4 "Participation as a judge of others' work"
                     Weak 50 Fair [] [] []))
  /\ (exists r,
        parseOfficerReport
          (str ("### Criterion 4: Participation as a judge" ++ nl
                ++ "**My Rating:** Weak" ++ nl ++ nl
                ++ "Overall Score: 72/100" ++ nl)) O_1A = Ok r
        /\ Report.overallScore r = 72
        /\ nth_error (Report.criteriaScores r) 3
           = Some (mkCriterionScore 4 "Participation as a judge of others' work"
                     Weak 72 Good [] [] [])).
Proof.
  split; [repeat split |]. split; [| split; [| split]].
  - intros s. unfold scoreToQuality.
    destruct (Z.geb_spec s 80); destruct (Z.geb_spec s 65);
      destruct (Z.geb_spec s 45);
      repeat split; intros; try discriminate; try lia; reflexivity.
  - intros report visaType.
    destruct (parsed report visaType) as (r & H & _ & _ & _ & Hc & _).
    exists r. split; [exact H |].
    apply (records_Forall report _ _ _ Hc). intros c cs _ Hcs.
    destruct (scoreCriterion_inv _ _ _ Hcs) as (En & _ & Vr & Vs & Eq & _).
    rewrite En. split; [exact Vr |]. split; [exact Eq |]. intros E.
    unfold field_value in Vs. rewrite E in Vs. exact Vs.
  - eexists. split; [vm_compute; reflexivity |]. reflexivity.
  - eexists. split; [vm_compute; reflexivity |]. split; reflexivity.
Qed.

(** C7. A tier whose table row is not found counts 0, and the assessment
    follows the counts: 5 or more tier-1 items is Strong; failing that, 3
    tier-1 or 5 tier-2 items is Moderate; failing that, 1 tier-1 or 3 tier-2
    items is Weak; otherwise Insufficient.  A report whose only tier row is
    "Tier 1 | 6" has counts 6, 0, 0, 0 and assessment Strong. *)
Theorem C7_tier_counts_and_assessment :
  (forall report,
      exists e,
        extractEvidenceQuality report = Ok e
        /\ (exec (Pat.tier "1") report = None -> tier1Count e = 0)
        /\ (exec (Pat.tier "2") report = None -> tier2Count e = 0)
        /\ (exec (Pat.tier "3") report = None -> tier3Count e = 0)
        /\ (exec (Pat.tier "4") report = None -> tier4Count e = 0)
        /\ (5 <= tier1Count e -> overallAssessment e = Assessment.Strong)
        /\ (tier1Count e < 5 -> 3 <= tier1Count e \/ 5 <= tier2Count e ->
            overallAssessment e = Assessment.Moderate)
        /\ (tier1Count e < 3 -> tier2Count e < 5 ->
            1 <= tier1Count e \/ 3 <= tier2Count e ->
            overallAssessment e = Assessment.Weak)
        /\ (tier1Count e < 1 -> tier2Count e < 3 ->
            overallAssessment e = Assessment.Insufficient))
  /\ (forall report visaType,
        exists r, parseOfficerReport report visaType = Ok r
                  /\ extractEvidenceQuality report = Ok (Report.evidenceQuality r))
  /\ (forall report m,
        exec (Pat.tier "1") report = Some m -> group m 1 = Ok (str "6") ->
        exec (Pat.tier "2") report = None -> exec (Pat.tier "3") report = None ->
        exec (Pat.tier "4") report = None ->
        exists cn, extractEvidenceQuality report
                   = Ok (mkEvidenceQuality 6 0 0 0 Assessment.Strong cn))
  /\ extractEvidenceQuality (str "Tier 1 | 6")
     = Ok (mkEvidenceQuality 6 0 0 0 Assessment.Strong []).
Proof.
  split; [| split; [| split]].
  - intros report.
    destruct (extractEvidenceQuality_ok report)
      as (t1 & t2 & t3 & t4 & cn & He & V1 & V2 & V3 & V4 & _).
    eexists. split; [exact He |].
    cbn [tier1Count tier2Count tier3Count tier4Count overallAssessment].
    unfold field_value in V1, V2, V3, V4.
    split; [intros E; rewrite E in V1; exact V1 |].
    split; [intros E; rewrite E in V2; exact V2 |].
    split; [intros E; rewrite E in V3; exact V3 |].
    split; [intros E; rewrite E in V4; exact V4 |].
    unfold assess.
    destruct (Z.geb_spec t1 5); destruct (Z.geb_spec t1 3);
      destruct (Z.geb_spec t1 1); destruct (Z.geb_spec t2 5);
      destruct (Z.geb_spec t2 3); cbn;
      repeat split; intros; try reflexivity; lia.
  - intros report visaType.
    destruct (parsed report visaType) as (r & H & _ & _ & _ & _ & He & _). eauto.
  - intros report m E1 Hg E2 E3 E4.
    destruct (extractEvidenceQuality_ok report)
      as (t1 & t2 & t3 & t4 & cn & He & V1 & V2 & V3 & V4 & _).
    unfold field_value in V1, V2, V3, V4.
    rewrite E1 in V1. rewrite E2 in V2. rewrite E3 in V3. rewrite E4 in V4.
    destruct V1 as (g & Hg' & _ & V1 & _). rewrite Hg in Hg'.
    inversion Hg'; subst. exists cn. exact He.
  - vm_compute. reflexivity.
Qed.

Lemma extractListItems_none report : forall keywords,
  Forall (fun kw => exec (Pat.listSection kw) report = None) keywords ->
  extractListItems report keywords = [].
Proof.
  induction 1 as [|kw keywords E _ IH]; cbn [extractListItems]; [reflexivity |].
  rewrite E. exact IH.
Qed.

(** C8. The parser answers with a full record for every report and every
    visa type: no capture group is ever undefined where a string is needed,
    [parseInt] never answers [NaN], and the row loop ends.  What is not found
    falls back to a default: the empty report gives the neutral score 55 with
    the rating and percentages derived from it, every criterion Not Claimed
    with score 0, all tier counts 0, and every list empty; a tier row that is
    missing counts 0, a missing predictions section gives no prediction, and
    headings that are all missing give an empty list. *)
Theorem C8_parser_always_answers :
  (forall report visaType, exists r, parseOfficerReport report visaType = Ok r)
  /\ (forall visaType,
        parseOfficerReport [] visaType
        = Ok (Report.mk 55 RFELikely 40 45 15
                (map (fun c => mkCriterionScore (number c) (name c)
                                 NotClaimed 0 Poor [] [] [])
                   (VISA_CRITERIA visaType))
                (mkEvidenceQuality 0 0 0 0 Assessment.Insufficient [])
                [] [] [] (mkRecommendations [] [] [])))
  /\ (forall report d, exec (Pat.tier d) report = None -> tierCount report d = Ok 0)
  /\ (forall report,
        exec Pat.rfeSection report = None -> extractRFEPredictions report = Ok [])
  /\ (forall report keywords,
        Forall (fun kw => exec (Pat.listSection kw) report = None) keywords ->
        extractListItems report keywords = []).
Proof.
  split; [| split; [| split; [| split]]].
  - intros report visaType.
    destruct (parsed report visaType) as (r & H & _). eauto.
  - intros visaType. destruct visaType; vm_compute; reflexivity.
  - intros report d E. unfold tierCount. rewrite E. reflexivity.
  - intros report E. unfold extractRFEPredictions. rewrite E. reflexivity.
  - intros report. exact (extractListItems_none report).
Qed.

(** C9. [extractBulletPoints] keeps, in order, the lines that once trimmed
    start with "-", "*", the bullet U+2022, or a numeral followed by ".", and
    whose content is longer than 5 code units; the content is the trimmed
    line without its marker (the leading run of bullet characters, digits and
    periods, and the white space after it), trimmed again.  "- ok" is dropped
    and "- Insufficient documentation of criterion 3" is kept. *)
Theorem C9_bullet_extraction :
  (forall text,
      extractBulletPoints text = map bullet_content (filter kept (split_lines text)))
  /\ (forall line,
        kept line = true <->
        ((exists (x : code) (t : jsstring),
             trim line = x :: t /\ (x = 45 \/ x = 42 \/ x = BULLET)%N)
         \/ (exists ds t : jsstring,
               ds <> [] /\ forallb digit ds = true
               /\ trim line = ds ++ (46%N : code) :: t))
        /\ (5 < List.length (bullet_content line))%nat)
  /\ extractBulletPoints (str "- ok") = []
  /\ extractBulletPoints (str "- Insufficient documentation of criterion 3")
     = [str "Insufficient documentation of criterion 3"]
  /\ extractBulletPoints
       (str ("My concerns:" ++ nl ++ "- ok" ++ nl ++ "  * abcde" ++ nl
             ++ " 12. abcdef  " ++ nl ++ "3 no period" ++ nl
             ++ "- Insufficient documentation of criterion 3"))
     = [str "abcdef"; str "Insufficient documentation of criterion 3"]
  /\ extractBulletPoints (BULLET :: str " weak press coverage")
     = [str "weak press coverage"].
Proof.
  split; [| split; [| repeat split; vm_compute; reflexivity]].
  - intros text. unfold extractBulletPoints. apply bullets_loop_spec.
  - intros line. unfold kept.
    rewrite andb_true_iff, Nat.ltb_lt, starts_marked_iff. reflexivity.
Qed.

(** ** Further properties of the scorer *)

Lemma parsed_inv report visaType r :
  parseOfficerReport report visaType = Ok r ->
  extractScore report = Ok (Report.overallScore r)
  /\ Report.overallRating r = getOverallRating (Report.overallScore r)
  /\ extractProbabilities report (Report.overallScore r)
     = Ok (mkProbabilities (Report.approvalProbability r)
             (Report.rfeProbability r) (Report.denialRisk r))
  /\ Forall2 (fun c cs => scoreCriterion report c = Ok cs)
       (VISA_CRITERIA visaType) (Report.criteriaScores r)
  /\ extractEvidenceQuality report = Ok (Report.evidenceQuality r)
  /\ extractRFEPredictions report = Ok (Report.rfePredictions r).
Proof.
  intros H. destruct (parsed report visaType) as (r' & H' & P).
  rewrite H in H'. inversion H'; subst r'. exact P.
Qed.

(** X1. When the report states none of the three percentages, the values
    derived from the overall score add up to exactly 100: the denial risk is
    the positive remainder and the floor at 0 never acts. *)
Theorem X1_derived_probabilities_sum_to_100 report visaType :
  exec Pat.approval report = None ->
  exec Pat.rfe report = None ->
  exec Pat.denial report = None ->
  exists r,
    parseOfficerReport report visaType = Ok r
    /\ Report.approvalProbability r = calculateApprovalProb (Report.overallScore r)
    /\ Report.rfeProbability r = calculateRFEProb (Report.overallScore r)
    /\ 5 <= Report.denialRisk r <= 50
    /\ Report.approvalProbability r + Report.rfeProbability r
       + Report.denialRisk r = 100.
Proof.
  intros Ea Er Ed.
  destruct (parsed report visaType) as (r & H & _ & _ & Hp & _).
  exists r. split; [exact H |].
  destruct (extractProbabilities_inv _ _ _ _ _ Hp) as (d0 & Hd & Va & Vr & Vd & _).
  unfold field_value in Va, Vr, Vd. rewrite Ea in Va. rewrite Er in Vr.
  rewrite Ed in Vd. rewrite Hd, Vd, Va, Vr.
  unfold calculateApprovalProb, calculateRFEProb.
  destruct (Z.geb_spec (Report.overallScore r) 85);
    destruct (Z.geb_spec (Report.overallScore r) 70);
    destruct (Z.geb_spec (Report.overallScore r) 55);
    destruct (Z.geb_spec (Report.overallScore r) 40); lia.
Qed.

Lemma X1_witness :
  exists r,
    parseOfficerReport (str "Overall Score: 82/100") EB_1A = Ok r
    /\ Report.approvalProbability r = calculateApprovalProb (Report.overallScore r)
    /\ Report.rfeProbability r = calculateRFEProb (Report.overallScore r)
    /\ 5 <= Report.denialRisk r <= 50
    /\ Report.approvalProbability r + Report.rfeProbability r
       + Report.denialRisk r = 100.
Proof.
  apply (X1_derived_probabilities_sum_to_100 (str "Overall Score: 82/100") EB_1A);
    vm_compute; reflexivity.
Defined.

(** X2. A higher overall score never lowers the derived approval
    probability and never raises the derived denial remainder; the derived
    approval probability is at least 65 exactly when the rating is Approve,
    and at most 20 when the rating is Denial Risk. *)
Theorem X2_derived_probabilities_follow_the_score (s s' : Z) :
  s <= s' ->
  calculateApprovalProb s <= calculateApprovalProb s'
  /\ 100 - calculateApprovalProb s' - calculateRFEProb s'
     <= 100 - calculateApprovalProb s - calculateRFEProb s
  /\ (getOverallRating s = Approve <-> 65 <= calculateApprovalProb s)
  /\ (getOverallRating s = DenialRisk -> calculateApprovalProb s <= 20).
Proof.
  intros Hle. unfold calculateApprovalProb, calculateRFEProb, getOverallRating.
  destruct (Z.geb_spec s 85); destruct (Z.geb_spec s 70);
    destruct (Z.geb_spec s 55); destruct (Z.geb_spec s 50);
    destruct (Z.geb_spec s 40);
    destruct (Z.geb_spec s' 85); destruct (Z.geb_spec s' 70);
    destruct (Z.geb_spec s' 55); destruct (Z.geb_spec s' 40);
    try lia; repeat split; intros; try discriminate; try reflexivity; lia.
Qed.

Lemma X2_witness :
  calculateApprovalProb 40 <= calculateApprovalProb 90
  /\ 100 - calculateApprovalProb 90 - calculateRFEProb 90
     <= 100 - calculateApprovalProb 40 - calculateRFEProb 40
  /\ (getOverallRating 40 = Approve <-> 65 <= calculateApprovalProb 40)
  /\ (getOverallRating 40 = DenialRisk -> calculateApprovalProb 40 <= 20).
Proof. apply (X2_derived_probabilities_follow_the_score 40 90). lia. Defined.

Lemma extractEvidenceQuality_inv report e :
  extractEvidenceQuality report = Ok e ->
  overallAssessment e = assess (tier1Count e) (tier2Count e)
  /\ 0 <= tier1Count e /\ 0 <= tier2Count e
  /\ 0 <= tier3Count e /\ 0 <= tier4Count e.
Proof.
  intros H. destruct (extractEvidenceQuality_ok report)
    as (t1 & t2 & t3 & t4 & cn & He & V1 & V2 & V3 & V4 & _).
  rewrite He in H. inversion H; subst; cbn.
  split; [reflexivity |].
  repeat split;
    match goal with
    | V : field_value _ _ _ ?t |- 0 <= ?t =>
        apply (field_nonneg _ _ _ _ V); lia
    end.
Qed.

(** X3. The assessment of the evidence never gets weaker when the tier-1
    and tier-2 counts grow, whatever the tier-3 and tier-4 counts are; it is
    Strong exactly when there are 5 tier-1 items or more, so tier-2 items
    alone never give more than Moderate. *)
Theorem X3_assessment_grows_with_the_counts report report' e e' :
  extractEvidenceQuality report = Ok e ->
  extractEvidenceQuality report' = Ok e' ->
  tier1Count e <= tier1Count e' ->
  tier2Count e <= tier2Count e' ->
  (assessment_rank (overallAssessment e) <= assessment_rank (overallAssessment e'))%nat
  /\ (overallAssessment e = Assessment.Strong <-> 5 <= tier1Count e)
  /\ (tier1Count e = 0 -> overallAssessment e <> Assessment.Strong
                          /\ (overallAssessment e = Assessment.Moderate
                              <-> 5 <= tier2Count e)).
Proof.
  intros H H' L1 L2.
  destruct (extractEvidenceQuality_inv _ _ H) as (-> & _).
  destruct (extractEvidenceQuality_inv _ _ H') as (-> & _).
  unfold assess.
  destruct (Z.geb_spec (tier1Count e) 5); destruct (Z.geb_spec (tier1Count e) 3);
    destruct (Z.geb_spec (tier1Count e) 1); destruct (Z.geb_spec (tier2Count e) 5);
    destruct (Z.geb_spec (tier2Count e) 3);
    destruct (Z.geb_spec (tier1Count e') 5); destruct (Z.geb_spec (tier1Count e') 3);
    destruct (Z.geb_spec (tier1Count e') 1); destruct (Z.geb_spec (tier2Count e') 5);
    destruct (Z.geb_spec (tier2Count e') 3);
    try lia; cbn;
    repeat split; intros; try discriminate; try reflexivity; try lia.
Qed.

Lemma X3_witness :
  (assessment_rank (overallAssessment (mkEvidenceQuality 2 0 0 0 Assessment.Weak []))
   <= assessment_rank
        (overallAssessment (mkEvidenceQuality 6 0 0 0 Assessment.Strong [])))%nat.
Proof.
  apply (X3_assessment_grows_with_the_counts (str "Tier 1 | 2") (str "Tier 1 | 6")
           (mkEvidenceQuality 2 0 0 0 Assessment.Weak [])
           (mkEvidenceQuality 6 0 0 0 Assessment.Strong []));
    vm_compute; solve [reflexivity | discriminate].
Defined.

Lemma toLowerCase_app a b : toLowerCase (a ++ b) = toLowerCase a ++ toLowerCase b.
Proof. unfold toLowerCase. apply flat_map_app. Qed.

Lemma startsWith_app w suf : startsWith w (w ++ suf) = true.
Proof.
  induction w as [|x w IH]; cbn; [reflexivity |].
  rewrite N.eqb_refl, IH. reflexivity.
Qed.

Lemma includes_app pre w suf : includes (pre ++ w ++ suf) w = true.
Proof.
  induction pre as [|x pre IH]; cbn [app].
  - destruct (w ++ suf) eqn:E; cbn [includes]; rewrite <- E;
      rewrite startsWith_app; reflexivity.
  - cbn [includes]. rewrite IH. apply orb_true_r.
Qed.

(** X4. The rating line is searched for its keywords without regard to
    letter case or to the words around them, and "strong" is looked for
    first: a rating text in which "strong" occurs anywhere, in any casing,
    is rated Strong ("STRONG", "Not strong", "Weak to Strong"). *)
Theorem X4_strong_anywhere_is_Strong (pre w suf : jsstring) :
  toLowerCase w = str "strong" ->
  parseRating (pre ++ w ++ suf) = Strong.
Proof.
  intros Hw. unfold parseRating.
  rewrite !toLowerCase_app, Hw, includes_app. reflexivity.
Qed.

Lemma X4_witness : parseRating (str "Weak to " ++ str "StRoNG" ++ str "?") = Strong.
Proof.
  apply (X4_strong_anywhere_is_Strong (str "Weak to ") (str "StRoNG") (str "?")).
  vm_compute. reflexivity.
Defined.

Lemma criteria_numbered visaType :
  map number (VISA_CRITERIA visaType)
  = seq 1 (List.length (VISA_CRITERIA visaType)).
Proof. destruct visaType; reflexivity. Qed.

(** X5. The record at index [k] of [criteriaScores] is the one of criterion
    number [k + 1], for every visa type and report, and the list has at
    least as many records as the minimum number of criteria that the visa
    type requires. *)
Theorem X5_record_index_is_criterion_number report visaType :
  exists r,
    parseOfficerReport report visaType = Ok r
    /\ (forall k cs, nth_error (Report.criteriaScores r) k = Some cs ->
                     criterionNumber cs = S k)
    /\ (0 < MINIMUM_CRITERIA visaType <= List.length (Report.criteriaScores r))%nat.
Proof.
  destruct (parsed report visaType) as (r & H & _ & _ & _ & Hc & _).
  exists r. split; [exact H |].
  pose proof (records_map _ _ _ Hc) as Hm.
  assert (Hn : map criterionNumber (Report.criteriaScores r)
               = seq 1 (List.length (VISA_CRITERIA visaType))).
  { rewrite <- criteria_numbered. apply (f_equal (map fst)) in Hm.
    rewrite !map_map in Hm. exact Hm. }
  split.
  - intros k cs Hk. apply (map_nth_error criterionNumber) in Hk.
    rewrite Hn, nth_error_seq in Hk.
    destruct (k <? List.length (VISA_CRITERIA visaType))%nat; [| discriminate].
    inversion Hk. reflexivity.
  - apply (f_equal (@List.length _)) in Hn.
    rewrite length_map, length_seq in Hn. rewrite Hn.
    destruct visaType; cbn; lia.
Qed.

(** *** Lines, trimming and runs of the input *)

Lemma infix_refl s : infix s s.
Proof. exists [], []. rewrite app_nil_r. reflexivity. Qed.

Lemma infix_trans a b c : infix a b -> infix b c -> infix a c.
Proof.
  intros (p1 & s1 & ->) (p2 & s2 & ->).
  exists (p2 ++ p1), (s1 ++ s2). rewrite <- !app_assoc. reflexivity.
Qed.

Lemma infix_length a b : infix a b -> (List.length a <= List.length b)%nat.
Proof. intros (p & s & ->). rewrite !length_app. lia. Qed.

Lemma infix_cons x a b : infix a b -> infix a (x :: b).
Proof. intros (p & s & ->). exists (x :: p), s. reflexivity. Qed.

Lemma infix_firstn_skipn n i (s : jsstring) : infix (firstn n (skipn i s)) s.
Proof.
  exists (firstn i s), (skipn n (skipn i s)).
  rewrite firstn_skipn, firstn_skipn. reflexivity.
Qed.

Lemma dropWhile_suffix c s : exists w, s = w ++ dropWhile c s.
Proof. exists (takeWhile c s). symmetry. apply takeWhile_dropWhile. Qed.

Lemma dropWhile_head c s x t : dropWhile c s = x :: t -> c x = false.
Proof.
  induction s as [|y s IH]; cbn; [discriminate |].
  destruct (c y) eqn:E; [exact IH |]. intros H. inversion H; subst. exact E.
Qed.

Lemma infix_dropWhile c s : infix (dropWhile c s) s.
Proof.
  destruct (dropWhile_suffix c s) as (w & E).
  exists w, []. rewrite app_nil_r. exact E.
Qed.

Lemma trim_shape s :
  exists pre suf, s = pre ++ trim s ++ suf /\ trimmed (trim s).
Proof.
  unfold trim.
  destruct (dropWhile_suffix ws s) as (w1 & E1).
  destruct (dropWhile_suffix ws (rev (dropWhile ws s))) as (w2 & E2).
  remember (dropWhile ws s) as d eqn:Ed.
  remember (dropWhile ws (rev d)) as e eqn:Ee.
  assert (Hd : d = rev e ++ rev w2).
  { rewrite <- rev_app_distr, <- E2, rev_involutive. reflexivity. }
  exists w1, (rev w2). split; [rewrite E1 at 1; rewrite Hd; reflexivity |].
  destruct e as [|y e']; [exact I |].
  symmetry in Ee. apply dropWhile_head in Ee.
  cbn [rev]. unfold trimmed.
  destruct (rev e' ++ [y]) as [|x0 l] eqn:El.
  { destruct (rev e'); discriminate. }
  split.
  - symmetry in Ed. cbn [rev] in Hd. rewrite El in Hd. rewrite Hd in Ed.
    apply dropWhile_head in Ed. exact Ed.
  - rewrite <- El, last_last. exact Ee.
Qed.

Lemma trim_trimmed s : trimmed (trim s).
Proof. destruct (trim_shape s) as (_ & _ & _ & H). exact H. Qed.

Lemma infix_trim s : infix (trim s) s.
Proof. destruct (trim_shape s) as (p & q & E & _). exists p, q. exact E. Qed.

Lemma split_lines_nonempty s : split_lines s <> [].
Proof.
  destruct s as [|x s]; cbn; [discriminate |].
  destruct (N.eqb x LF); [discriminate |].
  destruct (split_lines s); discriminate.
Qed.

Lemma split_lines_app a b :
  split_lines (a ++ LF :: b) = split_lines a ++ split_lines b.
Proof.
  induction a as [|x a IH]; cbn [app split_lines].
  - rewrite N.eqb_refl. reflexivity.
  - destruct (N.eqb x LF); [rewrite IH; reflexivity |].
    rewrite IH. pose proof (split_lines_nonempty a) as Hn.
    destruct (split_lines a) as [|l ls]; [congruence | reflexivity].
Qed.

Lemma split_lines_first s l ls :
  split_lines s = l :: ls -> exists suf, s = l ++ suf.
Proof.
  revert l ls. induction s as [|x s IH]; cbn; intros l ls H.
  - inversion H. exists []. reflexivity.
  - destruct (N.eqb x LF).
    + inversion H. exists (x :: s). reflexivity.
    + destruct (split_lines s) as [|l0 ls0] eqn:E; inversion H; subst.
      * exists s. reflexivity.
      * destruct (IH l0 ls eq_refl) as (suf & ->). exists suf. reflexivity.
Qed.

Lemma split_lines_infix s : forall line, In line (split_lines s) -> infix line s.
Proof.
  induction s as [|x s IH]; cbn; intros line H.
  - destruct H as [<- | []]. apply infix_refl.
  - destruct (N.eqb x LF).
    + destruct H as [<- | H]; [exists [], (x :: s); reflexivity |].
      apply infix_cons. auto.
    + destruct (split_lines s) as [|l0 ls0] eqn:E.
      * destruct H as [<- | []]. exists [], s. reflexivity.
      * destruct H as [<- | H].
        -- destruct (split_lines_first _ _ _ E) as (suf & ->).
           exists [], suf. reflexivity.
        -- apply infix_cons. apply IH. right. exact H.
Qed.

Lemma length_dropWhile c s : (List.length (dropWhile c s) <= List.length s)%nat.
Proof. apply infix_length, infix_dropWhile. Qed.

Lemma bullet_item_inv text item :
  In item (extractBulletPoints text) ->
  exists line, In line (split_lines text) /\ kept line = true
               /\ item = bullet_content line.
Proof.
  unfold extractBulletPoints. rewrite bullets_loop_spec. cbn [app].
  intros H. apply in_map_iff in H as (line & <- & H).
  apply filter_In in H as [H1 H2]. eauto.
Qed.

Lemma bullet_content_shorter line :
  kept line = true ->
  infix (bullet_content line) line
  /\ (List.length (bullet_content line) < List.length line)%nat.
Proof.
  unfold kept, bullet_content. intros H. apply andb_true_iff in H as [Hm _].
  destruct (trim line) as [|x t] eqn:E; [discriminate |].
  apply starts_marked_marker in Hm. cbn [dropWhile]. rewrite Hm.
  assert (I1 : infix (x :: t) line) by (rewrite <- E; apply infix_trim).
  assert (I2 : infix (trim (dropWhile ws (dropWhile Pat.marker t))) t).
  { eapply infix_trans; [apply infix_trim |].
    eapply infix_trans; apply infix_dropWhile. }
  split.
  - eapply infix_trans; [| exact I1]. apply infix_cons. exact I2.
  - apply infix_length in I1, I2. cbn [List.length] in I1. lia.
Qed.

(** X6. Bullet extraction works line by line: the items of a text made of
    two parts joined by a line feed are the items of the first part followed
    by the items of the second, and there are never more items than
    lines. *)
Theorem X6_bullets_are_extracted_line_by_line (a b : jsstring) :
  extractBulletPoints (a ++ LF :: b) = extractBulletPoints a ++ extractBulletPoints b
  /\ (List.length (extractBulletPoints a) <= List.length (split_lines a))%nat.
Proof.
  unfold extractBulletPoints. rewrite !bullets_loop_spec. cbn [app]. split.
  - rewrite split_lines_app, filter_app, map_app. reflexivity.
  - rewrite length_map. apply filter_length_le.
Qed.

(** X7. Every item that bullet extraction returns is longer than 5 code
    units, has no white space at either end, occurs verbatim in the text it
    was taken from, and is strictly shorter than that text (its marker is
    gone). *)
Theorem X7_bullet_items_are_trimmed_excerpts (text item : jsstring) :
  In item (extractBulletPoints text) ->
  (5 < List.length item)%nat
  /\ trimmed item
  /\ infix item text
  /\ (List.length item < List.length text)%nat.
Proof.
  intros H. apply bullet_item_inv in H as (line & Hin & Hk & ->).
  destruct (bullet_content_shorter _ Hk) as [I L].
  apply split_lines_infix in Hin.
  split; [| split; [| split]].
  - unfold kept in Hk. apply andb_true_iff in Hk as [_ Hk].
    apply Nat.ltb_lt in Hk. exact Hk.
  - unfold bullet_content. apply trim_trimmed.
  - eapply infix_trans; eassumption.
  - apply infix_length in Hin. lia.
Qed.

Lemma X7_witness :
  (5 < List.length (str "weak press coverage"))%nat
  /\ trimmed (str "weak press coverage")
  /\ infix (str "weak press coverage") (str "  * weak press coverage  ")
  /\ (List.length (str "weak press coverage")
      < List.length (str "  * weak press coverage  "))%nat.
Proof.
  apply (X7_bullet_items_are_trimmed_excerpts
           (str "  * weak press coverage  ") (str "weak press coverage")).
  vm_compute. left. reflexivity.
Defined.

(** *** Captures are runs of the input *)

Lemma Matches_caps_in s0 r st st' :
  Matches r st st' ->
  (exists pre, s0 = pre ++ rest st) -> caps_in s0 (caps st) ->
  caps_in s0 (caps st').
Proof.
  induction 1 as [ st | c st x t E Cx | a b st1 st2 st3 M1 IH1 M2 IH2
                 | a b st st' M IH | a b st st' M IH | g c st p s Hr
                 | i a st st' M IH | a st st' M IH | st E | st E ];
    intros Hs Hc; cbn [caps set_cap]; auto.
  - apply IH2; [| auto].
    destruct Hs as (pre & ->). destruct (Matches_span _ _ _ M1) as (w & -> & _).
    exists (pre ++ w). rewrite app_assoc. reflexivity.
  - intros j g. cbn [get_cap]. destruct (Nat.eqb j i).
    + intros Hg. inversion Hg; subst g. destruct Hs as (pre & ->).
      destruct (Matches_span _ _ _ M) as (w & -> & -> & _).
      replace (pos st + List.length w - pos st)%nat with (List.length w) by lia.
      rewrite firstn_app, firstn_all, Nat.sub_diag. cbn [firstn].
      rewrite app_nil_r. exists pre, (rest st'). reflexivity.
    + apply IH; auto.
Qed.

Lemma exec_from_infix r from s m :
  exec_from r from s = Some m ->
  infix (m_0 m) s /\ forall i g, group m i = Ok g -> infix g s.
Proof.
  unfold exec_from. intros H.
  destruct (List.length s <? from)%nat; [discriminate |].
  destruct (search r from (skipn from s)) as [[i st]|] eqn:E; [| discriminate].
  inversion H; subst; cbn. split; [apply infix_firstn_skipn |].
  apply search_sound in E as (pre & suf & Es & -> & M).
  intros j g. unfold group. cbn.
  destruct (get_cap j (caps st)) eqn:G; [| discriminate].
  intros Hg. inversion Hg; subst.
  refine (Matches_caps_in s _ _ _ M _ _ j g G).
  - exists (firstn from s ++ pre). cbn. rewrite <- app_assoc, <- Es.
    symmetry. apply firstn_skipn.
  - intros k g' Hk. discriminate.
Qed.

Lemma bullets_excerpts text report :
  infix text report -> Forall (excerpt report) (extractBulletPoints text).
Proof.
  intros Hi. apply Forall_forall. intros item H.
  apply bullet_item_inv in H as (line & Hin & Hk & ->).
  destruct (bullet_content_shorter _ Hk) as [I _].
  apply split_lines_infix in Hin.
  split; [| split].
  - unfold kept in Hk. apply andb_true_iff in Hk as [_ Hk].
    apply Nat.ltb_lt in Hk. exact Hk.
  - unfold bullet_content. apply trim_trimmed.
  - eapply infix_trans; [exact I |]. eapply infix_trans; eassumption.
Qed.

Lemma extractListItems_excerpts report : forall keywords,
  Forall (excerpt report) (extractListItems report keywords).
Proof.
  induction keywords as [|kw keywords IH]; cbn [extractListItems]; [constructor |].
  destruct (exec (Pat.listSection kw) report) as [m|] eqn:E; [| exact IH].
  destruct (extractBulletPoints (m_0 m)) as [|it items] eqn:B; [exact IH |].
  rewrite <- B. apply bullets_excerpts.
  apply (exec_from_infix _ _ _ _ E).
Qed.

Lemma concerns_excerpts r report cn :
  concerns_value r report cn -> Forall (excerpt report) cn.
Proof.
  unfold concerns_value. destruct (exec r report) as [m|] eqn:E.
  - intros (g & Hg & ->). apply bullets_excerpts.
    apply (exec_from_infix _ _ _ _ E) in Hg. exact Hg.
  - intros ->. constructor.
Qed.

(** X8. The parser only quotes: every weakness, strength, recommendation,
    per-criterion concern and evidence concern of the result is an excerpt of
    the report, found verbatim in it, longer than 5 code units and without
    white space at either end. *)
Theorem X8_free_text_items_are_excerpts_of_the_report report visaType :
  exists r,
    parseOfficerReport report visaType = Ok r
    /\ Forall (excerpt report) (Report.weaknesses r)
    /\ Forall (excerpt report) (Report.strengths r)
    /\ Forall (excerpt report) (critical (Report.recommendations r))
    /\ Forall (excerpt report) (high (Report.recommendations r))
    /\ Forall (excerpt report) (recommended (Report.recommendations r))
    /\ Forall (fun cs => Forall (excerpt report) (officerConcerns cs))
         (Report.criteriaScores r)
    /\ Forall (excerpt report) (concerns (Report.evidenceQuality r)).
Proof.
  destruct (parseOfficerReport_ok report visaType)
    as (s & p & cs & e & rows & Hs & Hp & Hc & He & Hr & H).
  eexists. split; [exact H |]. unfold extractRecommendations.
  cbn [Report.weaknesses Report.strengths Report.recommendations
       Report.criteriaScores Report.evidenceQuality critical high recommended].
  repeat (split; [apply extractListItems_excerpts |]). split.
  - destruct (extractCriteriaScores_ok report visaType) as (l & Hl & Fl).
    assert (l = cs) by congruence. subst l.
    apply (records_Forall report _ _ _ Fl). intros c x _ Hx.
    destruct (scoreCriterion_inv _ _ _ Hx) as (_ & _ & _ & _ & _ & Vc & _).
    apply (concerns_excerpts _ _ _ Vc).
  - destruct (extractEvidenceQuality_ok report)
      as (t1 & t2 & t3 & t4 & cn & He' & _ & _ & _ & _ & Vc).
    rewrite He in He'. inversion He'; subst e. cbn [concerns].
    apply (concerns_excerpts _ _ _ Vc).
Qed.

Lemma forallb_infix (c : cls) (a b : jsstring) :
  infix a b -> forallb c b = true -> forallb c a = true.
Proof.
  intros (p & s & ->). rewrite !forallb_app.
  intros H. apply andb_true_iff in H as [_ H].
  apply andb_true_iff in H as [H _]. exact H.
Qed.

Lemma rows_loop_Forall section : forall fuel lastIndex acc l,
  Forall (prediction_ok section) acc ->
  rows_loop fuel section lastIndex acc = Ok l ->
  Forall (prediction_ok section) l.
Proof.
  induction fuel as [|fuel IH]; intros lastIndex acc l Hacc H; [discriminate |].
  cbn [rows_loop] in H.
  destruct (exec_from Pat.row lastIndex section) as [m|] eqn:E;
    [| inversion H; subst; exact Hacc].
  destruct row_groups as ((D1 & C1) & (D2 & C2) & (D3 & C3)).
  destruct (exec_group _ 1 _ _ _ _ E D1 C1) as (g1 & Hg1 & _ & F1).
  destruct (parseGroup_ok _ 2 _ _ _ E D2 C2) as (g2 & _ & _ & Hg2 & Hz).
  destruct (exec_group _ 3 _ _ _ _ E D3 C3) as (g3 & Hg3 & _).
  destruct (exec_from_infix _ _ _ _ E) as [_ Hin].
  rewrite Hg1 in H. cbn [bind] in H. rewrite Hg2 in H. cbn [bind] in H.
  rewrite Hg3 in H. cbn [bind] in H.
  apply IH in H; [exact H |].
  destruct (trim g1) as [|x t] eqn:Et; cbn [andb]; [exact Hacc |].
  destruct (includes (x :: t) (str "Topic")) eqn:I1; cbn [negb andb]; [exact Hacc |].
  destruct (includes (x :: t) (str "---")) eqn:I2; cbn [negb andb]; [exact Hacc |].
  apply Forall_app. split; [exact Hacc |]. constructor; [| constructor].
  assert (T1 : infix (x :: t) g1) by (rewrite <- Et; apply infix_trim).
  unfold prediction_ok.
  cbn [topic probability officerPerspective suggestedEvidence].
  split; [discriminate |]. split; [exact I1 |]. split; [exact I2 |].
  split; [exact (forallb_infix _ _ _ T1 F1) |].
  split; [rewrite <- Et; apply trim_trimmed |].
  split; [eapply infix_trans; [exact T1 | exact (Hin 1%nat g1 Hg1)] |].
  split; [exact Hz |].
  split; [apply trim_trimmed |].
  split; [| reflexivity].
  eapply infix_trans; [apply infix_trim | exact (Hin 3%nat g3 Hg3)].
Qed.

Lemma prediction_ok_infix a b p :
  infix a b -> prediction_ok a p -> prediction_ok b p.
Proof.
  intros Hi (H1 & H2 & H3 & H4 & H5 & H6 & H7 & H8 & H9 & H10).
  unfold prediction_ok. repeat split; auto;
    eapply infix_trans; eassumption.
Qed.

(** X9. Every RFE prediction of the result comes from a table row of the
    report: its topic is a non-empty trimmed excerpt of the report without a
    pipe, its perspective is a trimmed excerpt too, its probability is not
    negative, and it suggests no evidence.  Header and separator rows never
    become predictions: no topic contains "Topic" or "---".  A report without
    an "RFE prediction(s)" heading has no prediction. *)
Theorem X9_rfe_predictions_are_table_rows report visaType :
  exists r,
    parseOfficerReport report visaType = Ok r
    /\ Forall (prediction_ok report) (Report.rfePredictions r)
    /\ (exec Pat.rfeSection report = None -> Report.rfePredictions r = []).
Proof.
  destruct (parsed report visaType) as (r & H & _ & _ & _ & _ & _ & Hr).
  exists r. split; [exact H |]. unfold extractRFEPredictions in Hr.
  destruct (exec Pat.rfeSection report) as [m|] eqn:E.
  - split; [| discriminate].
    apply rows_loop_Forall in Hr; [| constructor].
    destruct (exec_from_infix _ _ _ _ E) as [Hi _].
    eapply Forall_impl; [| exact Hr].
    intros p. apply prediction_ok_infix. exact Hi.
  - inversion Hr. split; [constructor | reflexivity].
Qed.

(** *** The matcher finds every match *)

Lemma nocaps_caps r st st' :
  Matches r st st' -> nocaps r = true -> caps st' = caps st.
Proof.
  induction 1; cbn; intros N; try reflexivity; try discriminate.
  - apply andb_true_iff in N as [N1 N2]. rewrite IHMatches2, IHMatches1; auto.
  - apply andb_true_iff in N as [N1 N2]. auto.
  - apply andb_true_iff in N as [N1 N2]. auto.
  - auto.
Qed.

Lemma star_greedy_complete (R : Type) c (k : nat -> jsstring -> option R) p s p' s' :
  Run c p s p' s' -> k p' s' <> None -> star_greedy c p s k <> None.
Proof.
  induction 1 as [p s | p x t p' s' Cx _ IH]; intros Hk.
  - destruct s as [|x t]; cbn; [exact Hk |].
    destruct (c x); [| exact Hk].
    destruct (star_greedy c (S p) t k); [discriminate | exact Hk].
  - cbn. rewrite Cx. specialize (IH Hk).
    destruct (star_greedy c (S p) t k); [discriminate | congruence].
Qed.

Lemma star_lazy_complete (R : Type) c (k : nat -> jsstring -> option R) p s p' s' :
  Run c p s p' s' -> k p' s' <> None -> star_lazy c p s k <> None.
Proof.
  induction 1 as [p s | p x t p' s' Cx _ IH]; intros Hk.
  - destruct s as [|x t]; cbn; destruct (k p _); congruence.
  - cbn. destruct (k p (x :: t)); [discriminate |]. rewrite Cx. auto.
Qed.

(** Completeness: a continuation that accepts some state reached by the
    pattern makes the matcher answer. *)
Lemma mt_complete r st st' :
  Matches r st st' -> look_ok r = true ->
  forall (R : Type) (k : state -> option R), k st' <> None -> mt r st k <> None.
Proof.
  induction 1 as [ st | c st x t E Cx | a b st1 st2 st3 M1 IH1 M2 IH2
                 | a b st st' M IH | a b st st' M IH | g c st p s Hr
                 | i a st st' M IH | a st st' M IH | st E | st E ];
    cbn [look_ok]; intros L R k Hk; cbn [mt].
  - exact Hk.
  - rewrite E, Cx. exact Hk.
  - apply andb_true_iff in L as [L1 L2]. apply IH1; auto.
  - apply andb_true_iff in L as [L1 L2]. specialize (IH L1 R k Hk).
    destruct (mt a st k); [discriminate | congruence].
  - apply andb_true_iff in L as [L1 L2].
    destruct (mt a st k); [discriminate | auto].
  - destruct g.
    + apply (star_greedy_complete R c _ _ _ _ _ Hr). exact Hk.
    + apply (star_lazy_complete R c _ _ _ _ _ Hr). exact Hk.
  - apply IH; auto.
  - apply andb_true_iff in L as [N L].
    assert (Hs : mt a st (@Some state) <> None) by (apply IH; [auto | discriminate]).
    destruct (mt a st (@Some state)) as [st1|] eqn:E; [| congruence].
    apply mt_sound in E as (st1' & M1 & E1). inversion E1; subst st1'.
    rewrite (nocaps_caps _ _ _ M1 N). rewrite (nocaps_caps _ _ _ M N) in Hk.
    exact Hk.
  - rewrite E. exact Hk.
  - rewrite E. exact Hk.
Qed.

Lemma search_complete r st' suf : forall pre p,
  Matches r (mkState (p + List.length pre) suf []) st' -> look_ok r = true ->
  search r p (pre ++ suf) <> None.
Proof.
  assert (Hend : forall p s, mt r (mkState p s []) (@Some state) <> None ->
                             search r p s <> None).
  { intros p s H. destruct s; cbn;
      destruct (mt r _ (@Some state)); congruence. }
  induction pre as [|x pre IH]; intros p M L; cbn [app].
  - apply Hend. cbn in M. rewrite Nat.add_0_r in M.
    apply (mt_complete _ _ _ M L). discriminate.
  - cbn [search]. destruct (mt r _ (@Some state)); [discriminate |].
    apply IH; [| exact L]. cbn [List.length] in M.
    rewrite Nat.add_succ_r in M. exact M.
Qed.

(** A pattern matches somewhere in [s] exactly when its declarative reading
    holds at some position of [s]. *)
Lemma exec_iff_Matches r s :
  look_ok r = true ->
  (exec r s <> None <->
   exists pre suf st', s = pre ++ suf
                       /\ Matches r (mkState (List.length pre) suf []) st').
Proof.
  intros L. unfold exec, exec_from. rewrite ltb_0. cbn [skipn]. split.
  - destruct (search r 0 s) as [[i st]|] eqn:E; [| congruence]. intros _.
    apply search_sound in E as (pre & suf & -> & -> & M). eauto.
  - intros (pre & suf & st' & -> & M).
    pose proof (search_complete r st' suf pre 0 M L) as H.
    destruct (search r 0 (pre ++ suf)) as [[i st]|]; congruence.
Qed.

(** If every match of [r1] is, from the same state, the start of a match of
    [r2], then [r2] matches in every string in which [r1] does. *)
Lemma exec_weaken r1 r2 s :
  look_ok r1 = true -> look_ok r2 = true ->
  (forall st st', Matches r1 st st' -> exists st'', Matches r2 st st'') ->
  exec r1 s <> None -> exec r2 s <> None.
Proof.
  intros L1 L2 Hinc H. apply (exec_iff_Matches _ _ L1) in H
    as (pre & suf & st' & E & M).
  apply (exec_iff_Matches _ _ L2). destruct (Hinc _ _ M) as (st'' & M2). eauto.
Qed.

Lemma Matches_lits_app a b st st' :
  Matches (lits (a ++ b)) st st' ->
  exists st1, Matches (lits a) st st1 /\ Matches (lits b) st1 st'.
Proof.
  revert st. induction a as [|x a IH]; cbn [app lits]; intros st M.
  - exists st. split; [constructor | exact M].
  - inversion M as [| |? ? ? st2 ? M1 M2| | | | | | |]; subst.
    destruct (IH _ M2) as (st1 & Ma & Mb).
    exists st1. split; [| exact Mb]. econstructor; eassumption.
Qed.

(** A pattern that goes on with [[^]*?] after a literal number also matches
    where a longer number starts with that literal: the lazy run takes up
    the extra digit. *)
Lemma Matches_shorter_number A B ds x T st st' :
  Matches (Seq (seqs [A; B; lits (ds ++ [x])]) (Seq (Star false any) T)) st st' ->
  Matches (Seq (seqs [A; B; lits ds]) (Seq (Star false any) T)) st st'.
Proof.
  cbn [seqs fold_right]. intros M.
  inversion M as [| |? ? ? s1 ? Mh Mt| | | | | | |]; subst. clear M.
  inversion Mh as [| |? ? ? a1 ? MA Mr| | | | | | |]; subst. clear Mh.
  inversion Mr as [| |? ? ? b1 ? MB Ml| | | | | | |]; subst. clear Mr.
  inversion Ml as [| |? ? ? c1 ? ML Me| | | | | | |]; subst. clear Ml.
  inversion Me; subst. clear Me.
  apply Matches_lits_app in ML as (m1 & Md & Mx). cbn [lits] in Mx.
  inversion Mx as [| |? ? ? d1 ? Mc Me| | | | | | |]; subst. clear Mx.
  inversion Me; subst. clear Me.
  inversion Mc as [|? ? y t Er Cy| | | | | | | |]; subst. clear Mc.
  inversion Mt as [| |? ? ? s2 ? Ms MT| | | | | | |]; subst. clear Mt.
  inversion Ms as [| | | | |? ? ? p s Hr| | | |]; subst. clear Ms.
  cbn [pos rest caps] in *.
  apply M_Seq with (st2 := m1).
  - apply M_Seq with (st2 := a1); [exact MA |].
    apply M_Seq with (st2 := b1); [exact MB |].
    apply M_Seq with (st2 := m1); [exact Md | constructor].
  - apply M_Seq with (st2 := mkState p s (caps m1)); [| exact MT].
    constructor. rewrite Er. apply Run_step; [reflexivity | exact Hr].
Qed.

(** X10. In the per-criterion patterns the criterion number is followed by
    anything, so "criterion 10" also counts as a mention of criterion 1:
    whenever the rating, score or concerns pattern of criterion 10 matches in
    a report, the same pattern of criterion 1 matches too. *)
Theorem X10_criterion_10_is_read_as_criterion_1 report :
  (exec (Pat.criterionRating 10) report <> None ->
   exec (Pat.criterionRating 1) report <> None)
  /\ (exec (Pat.criterionScore 10) report <> None ->
      exec (Pat.criterionScore 1) report <> None)
  /\ (exec (Pat.criterionConcerns 10) report <> None ->
      exec (Pat.criterionConcerns 1) report <> None).
Proof.
  repeat split;
    (apply exec_weaken; [reflexivity | reflexivity |]);
    intros st st' M; exists st';
    apply (Matches_shorter_number _ _ (decimal 1) 48%N); exact M.
Qed.

Lemma X10_witness :
  exec (Pat.criterionRating 1)
    (str ("### Criterion 10: Commercial successes" ++ nl ++ "**My Rating:** Strong"))
  <> None.
Proof.
  apply (proj1 (X10_criterion_10_is_read_as_criterion_1
                  (str ("### Criterion 10: Commercial successes" ++ nl
                        ++ "**My Rating:** Strong")))).
  vm_compute. discriminate.
Defined.

(** Criterion 1 of an EB-1A report that only discusses criterion 10 takes
    the rating written for criterion 10. *)
Example criterion_10_rates_criterion_1 :
  exists r,
    parseOfficerReport
      (str ("### Criterion 10: Commercial successes" ++ nl ++ "**My Rating:** Strong"))
      EB_1A = Ok r
    /\ map rating (Report.criteriaScores r)
       = [Strong; NotClaimed; NotClaimed; NotClaimed; NotClaimed;
          NotClaimed; NotClaimed; NotClaimed; NotClaimed; Strong].
Proof. eexists. split; [vm_compute; reflexivity |]. reflexivity. Qed.

(** ** The comparison route *)

From Stdlib Require Import Sorting.Sorted Sorting.Permutation.

Module CompareFacts.

Import Compare.

Lemma map_set_fresh {V : Type} k (v : V) m :
  ~ In k (map fst m) -> map_set k v m = m ++ [(k, v)].
Proof.
  induction m as [|[k' v'] m IH]; cbn; intros H; [reflexivity |].
  destruct (Nat.eqb_spec k k') as [-> | _]; [tauto |].
  rewrite IH; [reflexivity | tauto].
Qed.

Lemma map_set_present {V : Type} k (v : V) m :
  In k (map fst m) -> map fst (map_set k v m) = map fst m.
Proof.
  induction m as [|[k' v'] m IH]; cbn; intros H; [tauto |].
  destruct (Nat.eqb_spec k k') as [-> | N]; cbn; [reflexivity |].
  rewrite IH; [reflexivity |]. destruct H; [congruence | assumption].
Qed.

Lemma map_set_values {V : Type} k (v : V) m e :
  In e (map_set k v m) -> e = (k, v) \/ In e m.
Proof.
  induction m as [|[k' v'] m IH]; cbn; intros H.
  - destruct H as [<- | []]. auto.
  - destruct (Nat.eqb k k'); cbn in H.
    + destruct H; auto.
    + destruct H as [<- | H]; [auto |]. destruct (IH H); auto.
Qed.

Lemma fold_set_fresh {V : Type} (es : list (nat * V)) : forall acc,
  NoDup (map fst (acc ++ es)) ->
  fold_left (fun m e => map_set (fst e) (snd e) m) es acc = acc ++ es.
Proof.
  induction es as [|[k v] es IH]; intros acc H; cbn.
  - rewrite app_nil_r. reflexivity.
  - rewrite map_set_fresh.
    + rewrite IH; rewrite <- app_assoc; [reflexivity | exact H].
    + rewrite map_app in H. cbn in H. apply NoDup_remove_2 in H.
      intros Hin. apply H. apply in_or_app. auto.
Qed.

(** Entries with distinct keys make a [Map] that lists them as they are. *)
Lemma new_Map_NoDup {V : Type} (es : list (nat * V)) :
  NoDup (map fst es) -> new_Map es = es.
Proof. intros H. unfold new_Map. rewrite fold_set_fresh; [reflexivity | exact H]. Qed.

Lemma fold_set_inv {V : Type} (es : list (nat * V)) : forall acc,
  NoDup (map fst acc) ->
  let m := fold_left (fun m e => map_set (fst e) (snd e) m) es acc in
  NoDup (map fst m)
  /\ (forall k, In k (map fst m) <-> In k (map fst acc) \/ In k (map fst es))
  /\ (forall e, In e m -> In e acc \/ In e es).
Proof.
  induction es as [|[k v] es IH]; intros acc H; cbn.
  - repeat split; auto; tauto.
  - assert (Hs : NoDup (map fst (map_set k v acc))
                 /\ forall k', In k' (map fst (map_set k v acc))
                               <-> In k' (map fst acc) \/ k' = k).
    { destruct (in_dec Nat.eq_dec k (map fst acc)) as [Hin | Hn].
      - rewrite (map_set_present _ _ _ Hin). split; [exact H |].
        intros k'. split; [auto |]. intros [? | ->]; assumption.
      - rewrite (map_set_fresh _ _ _ Hn), map_app. cbn. split.
        + apply NoDup_app_remove_l with (l := []). cbn.
          apply Permutation_NoDup with (l := k :: map fst acc).
          * apply Permutation_cons_append.
          * constructor; assumption.
        + intros k'. rewrite in_app_iff. cbn. intuition congruence. }
    destruct Hs as [Hn Hk]. destruct (IH _ Hn) as (I1 & I2 & I3).
    split; [exact I1 |]. split.
    + intros k'. rewrite I2, Hk. intuition congruence.
    + intros e He. destruct (I3 e He) as [Ha | Ha]; [| auto].
      apply map_set_values in Ha as [-> | Ha]; auto.
Qed.

Lemma new_Map_inv {V : Type} (es : list (nat * V)) :
  NoDup (map fst (new_Map es))
  /\ (forall k, In k (map fst (new_Map es)) <-> In k (map fst es))
  /\ (forall e, In e (new_Map es) -> In e es).
Proof.
  destruct (fold_set_inv es [] (NoDup_nil _)) as (I1 & I2 & I3).
  split; [exact I1 |]. split.
  - intros k. rewrite (I2 k). cbn. tauto.
  - intros e He. destruct (I3 e He) as [[] | H]. exact H.
Qed.

Lemma map_get_Some {V : Type} k (v : V) m : map_get k m = Some v -> In (k, v) m.
Proof.
  induction m as [|[k' v'] m IH]; cbn; [discriminate |].
  destruct (Nat.eqb_spec k k') as [-> | _]; intros H.
  - inversion H. auto.
  - auto.
Qed.

Lemma map_get_None {V : Type} k (m : list (nat * V)) :
  map_get k m = None <-> ~ In k (map fst m).
Proof.
  induction m as [|[k' v'] m IH]; cbn; [tauto |].
  destruct (Nat.eqb_spec k k') as [-> | N].
  - split; [discriminate | tauto].
  - rewrite IH. intuition congruence.
Qed.

(** *** Sorting *)

Section Sorting.

Context {A : Type} (f : A -> Z).

Let cmp := fun a b : A => (f b - f a)%Z.

Lemma sort_insert_perm x l : Permutation (sort_insert cmp x l) (x :: l).
Proof.
  induction l as [|y l IH]; cbn; [reflexivity |].
  destruct (cmp x y <=? 0)%Z; [reflexivity |].
  rewrite IH. apply perm_swap.
Qed.

Lemma sort_perm l : Permutation (Compare.sort cmp l) l.
Proof.
  induction l as [|x l IH]; cbn; [reflexivity |].
  rewrite sort_insert_perm. constructor. exact IH.
Qed.

Lemma sort_insert_sorted x l :
  StronglySorted (fun a b => (f b <= f a)%Z) l ->
  StronglySorted (fun a b => (f b <= f a)%Z) (sort_insert cmp x l).
Proof.
  induction 1 as [|y l Hs IH Hall]; cbn.
  - constructor; constructor.
  - unfold cmp at 1. destruct (Z.leb_spec (f y - f x) 0).
    + constructor; [constructor; assumption |].
      constructor; [lia |]. eapply Forall_impl; [| exact Hall].
      cbn. intros; lia.
    + constructor; [exact IH |].
      eapply Permutation_Forall; [symmetry; apply sort_insert_perm |].
      constructor; [lia | exact Hall].
Qed.

Lemma sort_sorted l : StronglySorted (fun a b => (f b <= f a)%Z) (Compare.sort cmp l).
Proof.
  induction l as [|x l IH]; cbn; [constructor |].
  apply sort_insert_sorted. exact IH.
Qed.

(** Stability: entries that all compare equal keep their order. *)
Lemma sort_constant l z : Forall (fun a => f a = z) l -> Compare.sort cmp l = l.
Proof.
  induction 1 as [|x l Hx Hl IH]; cbn; [reflexivity |].
  fold (Compare.sort cmp l). rewrite IH. destruct l as [|y l]; [reflexivity |].
  cbn. unfold cmp. inversion Hl; subst.
  replace (f y - f x)%Z with 0%Z by lia. reflexivity.
Qed.

End Sorting.

(** *** [compareCriteria] *)

Lemma compare_fold am : forall bm acc,
  fold_left
    (fun comparison (entry : nat * CriterionScore) =>
       let '(num, beforeCrit) := entry in
       match map_get num am with
       | Some afterCrit =>
           comparison ++
           [mkCriterionComparison num (criterionName beforeCrit)
              (mkSide (rating beforeCrit) (score beforeCrit))
              (mkSide (rating afterCrit) (score afterCrit))
              (score afterCrit - score beforeCrit)%Z
              (score afterCrit >? score beforeCrit)%Z]
       | None => comparison
       end)
    bm acc
  = acc ++ flat_map (entry_of am) bm.
Proof.
  induction bm as [|[num b] bm IH]; intros acc; cbn [fold_left flat_map].
  - rewrite app_nil_r. reflexivity.
  - rewrite IH. unfold entry_of at 2. cbn [fst snd].
    destruct (map_get num am); rewrite <- ?app_assoc; reflexivity.
Qed.

Lemma compareCriteria_eq before after :
  compareCriteria before after =
  Compare.sort (fun a b => (change b - change a)%Z)
    (flat_map
       (entry_of (new_Map (map (fun c => (criterionNumber c, c)) after)))
       (new_Map (map (fun c => (criterionNumber c, c)) before))).
Proof. unfold compareCriteria. rewrite compare_fold. reflexivity. Qed.

End CompareFacts.

Module CompareMore.

Import Compare CompareFacts.

Lemma entries_numbers am bm :
  map number (flat_map (entry_of am) bm)
  = filter (fun k => match map_get k am with Some _ => true | None => false end)
      (map fst bm).
Proof.
  induction bm as [|[k b] bm IH]; cbn [flat_map map filter]; [reflexivity |].
  rewrite map_app, IH. unfold entry_of. cbn [fst snd].
  destruct (map_get k am); reflexivity.
Qed.

Lemma keys_of (l : list CriterionScore) :
  map fst (map (fun c => (criterionNumber c, c)) l) = map criterionNumber l.
Proof. rewrite map_map. reflexivity. Qed.

Lemma str_eqb_eq a b : str_eqb a b = true <-> a = b.
Proof.
  revert b. induction a as [|x a IH]; destruct b as [|y b]; cbn;
    try (split; [discriminate | discriminate]); [tauto |].
  rewrite andb_true_iff, N.eqb_eq, IH. split.
  - intros [-> ->]. reflexivity.
  - intros H. inversion H. auto.
Qed.

Lemma set_has_In x l : set_has x l = true <-> In x l.
Proof.
  unfold set_has. rewrite existsb_exists. split.
  - intros (y & Hy & E). apply str_eqb_eq in E. subst. exact Hy.
  - intros H. exists x. split; [exact H | apply str_eqb_eq; reflexivity].
Qed.

Lemma filter_all {A : Type} (p : A -> bool) l :
  (forall x, In x l -> p x = true) -> filter p l = l.
Proof.
  induction l as [|x l IH]; cbn; intros H; [reflexivity |].
  rewrite (H x (or_introl eq_refl)), IH; [reflexivity |]. auto.
Qed.

Lemma filter_none {A : Type} (p : A -> bool) l :
  (forall x, In x l -> p x = false) -> filter p l = [].
Proof.
  induction l as [|x l IH]; cbn; intros H; [reflexivity |].
  rewrite (H x (or_introl eq_refl)). auto.
Qed.

Lemma map_get_self (l : list CriterionScore) : forall c,
  NoDup (map criterionNumber l) -> In c l ->
  map_get (criterionNumber c) (map (fun c => (criterionNumber c, c)) l) = Some c.
Proof.
  induction l as [|x l IH]; cbn; intros c N H; [tauto |].
  inversion N as [|? ? Hn N']; subst.
  destruct (Nat.eqb_spec (criterionNumber c) (criterionNumber x)) as [E | E].
  - destruct H as [-> | H]; [reflexivity |].
    exfalso. apply Hn. rewrite <- E. apply in_map. exact H.
  - destruct H as [-> | H]; [congruence |]. auto.
Qed.

Lemma map_get_present {V : Type} k (m : list (nat * V)) :
  In k (map fst m) <-> map_get k m <> None.
Proof.
  pose proof (map_get_None k m) as H.
  destruct (map_get k m) eqn:E.
  - split; [discriminate |]. intros _.
    destruct (in_dec Nat.eq_dec k (map fst m)) as [Hin | Hn]; [exact Hin |].
    apply H in Hn. discriminate.
  - split; [| congruence]. intros Hin. apply H in Hin; [destruct Hin | reflexivity].
Qed.

End CompareMore.

Import Compare CompareFacts CompareMore.

(** X11. [compareCriteria] lists, by decreasing change of score, the
    criteria whose number occurs on both sides, each number once; every
    entry pairs a record of the first list with a record of the second that
    has the same number, its change is the second score minus the first, and
    it counts as improved exactly when that change is positive. *)
Theorem X11_compareCriteria_pairs_and_sorts (bf af : list CriterionScore) :
  StronglySorted (fun a b => change b <= change a) (compareCriteria bf af)
  /\ NoDup (map Compare.number (compareCriteria bf af))
  /\ (forall n, In n (map Compare.number (compareCriteria bf af))
                <-> In n (map criterionNumber bf) /\ In n (map criterionNumber af))
  /\ Forall (fun c =>
       exists b a,
         In b bf /\ In a af
         /\ criterionNumber b = Compare.number c
         /\ criterionNumber a = Compare.number c
         /\ Compare.name c = criterionName b
         /\ before c = mkSide (rating b) (score b)
         /\ after c = mkSide (rating a) (score a)
         /\ change c = score a - score b
         /\ improved c = (0 <? change c))
       (compareCriteria bf af).
Proof.
  rewrite compareCriteria_eq.
  set (bm := new_Map (map (fun c => (criterionNumber c, c)) bf)).
  set (am := new_Map (map (fun c => (criterionNumber c, c)) af)).
  destruct (new_Map_inv (map (fun c => (criterionNumber c, c)) bf)) as (Nb & Kb & Vb).
  destruct (new_Map_inv (map (fun c => (criterionNumber c, c)) af)) as (Na & Ka & Va).
  fold bm in Nb, Kb, Vb. fold am in Na, Ka, Va.
  pose proof (sort_perm change (flat_map (entry_of am) bm)) as P.
  cbv zeta in P.
  split; [apply (sort_sorted change) |]. split; [| split].
  - eapply Permutation_NoDup; [apply Permutation_map; symmetry; exact P |].
    rewrite entries_numbers. apply NoDup_filter. exact Nb.
  - intros n. split.
    + intros H. eapply Permutation_in in H; [| apply Permutation_map; exact P].
      rewrite entries_numbers in H. apply filter_In in H as [H1 H2].
      rewrite <- !keys_of, <- Kb, <- Ka. split; [exact H1 |].
      apply map_get_present. destruct (map_get n am); [discriminate | discriminate].
    + intros [H1 H2]. eapply Permutation_in; [apply Permutation_map; symmetry; exact P |].
      rewrite entries_numbers. apply filter_In.
      rewrite <- keys_of, <- Kb in H1. rewrite <- keys_of, <- Ka in H2.
      split; [exact H1 |]. apply map_get_present in H2.
      destruct (map_get n am); [reflexivity | congruence].
  - eapply Permutation_Forall; [symmetry; exact P |].
    apply Forall_forall. intros c Hc. apply in_flat_map in Hc as ([k b] & Hb & Hc).
    unfold entry_of in Hc. cbn [fst snd] in Hc.
    destruct (map_get k am) as [a|] eqn:G; [| destruct Hc].
    destruct Hc as [<- | []]. cbn.
    apply Vb in Hb. apply in_map_iff in Hb as (b' & Eb & Hb). inversion Eb; subst.
    apply map_get_Some, Va in G. apply in_map_iff in G as (a' & Ea & Ha).
    inversion Ea; subst.
    exists b, a. repeat split; auto.
    rewrite Z.gtb_ltb.
    destruct (Z.ltb_spec (score b) (score a)); destruct (Z.ltb_spec 0 (score a - score b));
      try reflexivity; lia.
Qed.

Lemma parsed_numbers report visaType :
  exists r,
    parseOfficerReport report visaType = Ok r
    /\ map criterionNumber (Report.criteriaScores r)
       = seq 1 (List.length (VISA_CRITERIA visaType)).
Proof.
  destruct (parsed report visaType) as (r & H & _ & _ & _ & Hc & _).
  exists r. split; [exact H |].
  pose proof (records_map _ _ _ Hc) as Hm.
  rewrite <- criteria_numbered. apply (f_equal (map fst)) in Hm.
  rewrite !map_map in Hm. exact Hm.
Qed.

(** X12. Comparing the criteria of two reports scored for the same visa
    type compares every criterion of that visa type exactly once. *)
Theorem X12_two_scorings_compare_every_criterion report1 report2 visaType :
  exists r1 r2,
    parseOfficerReport report1 visaType = Ok r1
    /\ parseOfficerReport report2 visaType = Ok r2
    /\ Permutation
         (map Compare.number
            (compareCriteria (Report.criteriaScores r1) (Report.criteriaScores r2)))
         (seq 1 (List.length (VISA_CRITERIA visaType)))
    /\ List.length (compareCriteria (Report.criteriaScores r1) (Report.criteriaScores r2))
       = List.length (VISA_CRITERIA visaType).
Proof.
  destruct (parsed_numbers report1 visaType) as (r1 & H1 & N1).
  destruct (parsed_numbers report2 visaType) as (r2 & H2 & N2).
  exists r1, r2. split; [exact H1 |]. split; [exact H2 |].
  assert (P : Permutation
                (map Compare.number
                   (compareCriteria (Report.criteriaScores r1) (Report.criteriaScores r2)))
                (seq 1 (List.length (VISA_CRITERIA visaType)))).
  { rewrite compareCriteria_eq.
    pose proof (sort_perm change
      (flat_map
         (entry_of (new_Map (map (fun c => (criterionNumber c, c)) (Report.criteriaScores r2))))
         (new_Map (map (fun c => (criterionNumber c, c)) (Report.criteriaScores r1))))) as P.
    cbv zeta in P. rewrite (Permutation_map _ P), entries_numbers.
    rewrite !new_Map_NoDup by (rewrite keys_of, ?N1, ?N2; apply seq_NoDup).
    rewrite keys_of, N1, filter_all; [reflexivity |].
    intros k Hk. rewrite <- N2, <- keys_of in Hk. apply map_get_present in Hk.
    destruct (map_get k _); [reflexivity | congruence]. }
  split; [exact P |].
  apply Permutation_length in P. rewrite length_map, length_seq in P. exact P.
Qed.

Lemma flat_map_singletons {A B : Type} (f : A -> list B) (g : A -> B) l :
  (forall x, In x l -> f x = [g x]) -> flat_map f l = map g l.
Proof.
  induction l as [|x l IH]; cbn; intros H; [reflexivity |].
  rewrite (H x (or_introl eq_refl)), IH; [reflexivity |]. auto.
Qed.

(** X13. Comparing a stored result with itself reports no change: every
    metric has change 0 and is not improved, the criteria are listed in
    their own order with change 0, no weakness is resolved, no strength is
    new, and the summary is the "no significant change" sentence.  The
    criterion numbers of the result must be distinct, as they are in every
    parsed report. *)
Theorem X13_self_comparison_reports_no_change
    (lower : jsstring -> jsstring) (r : Report.t) :
  NoDup (map criterionNumber (Report.criteriaScores r)) ->
  let c := comparison lower r r in
  m_change (Compare.overallScore c) = 0 /\ m_improved (Compare.overallScore c) = false
  /\ m_change (Compare.approvalProbability c) = 0
  /\ m_improved (Compare.approvalProbability c) = false
  /\ m_change (Compare.rfeProbability c) = 0
  /\ m_improved (Compare.rfeProbability c) = false
  /\ m_change (Compare.denialRisk c) = 0 /\ m_improved (Compare.denialRisk c) = false
  /\ criteriaComparison c
     = map (fun x => mkCriterionComparison (criterionNumber x) (criterionName x)
                       (mkSide (rating x) (score x)) (mkSide (rating x) (score x))
                       0 false)
         (Report.criteriaScores r)
  /\ weaknessesResolved c = []
  /\ newStrengths c = []
  /\ summary c = NO_CHANGE.
Proof.
  intros N. cbv zeta. unfold comparison.
  cbn [Compare.overallScore Compare.approvalProbability Compare.rfeProbability
       Compare.denialRisk criteriaComparison weaknessesResolved newStrengths summary
       m_change m_improved].
  rewrite !Z.sub_diag, !Z.gtb_ltb, !Z.ltb_irrefl.
  repeat (split; [reflexivity |]). split; [| split; [| split]].
  - rewrite compareCriteria_eq, new_Map_NoDup by (rewrite keys_of; exact N).
    rewrite (flat_map_singletons _
               (fun e : nat * CriterionScore =>
                  mkCriterionComparison (fst e) (criterionName (snd e))
                    (mkSide (rating (snd e)) (score (snd e)))
                    (mkSide (rating (snd e)) (score (snd e))) 0 false)).
    + rewrite (sort_constant change _ 0), map_map; [reflexivity |].
      apply Forall_forall. intros x Hx. apply in_map_iff in Hx as (y & <- & _).
      reflexivity.
    + intros [k x] Hx. apply in_map_iff in Hx as (y & Ey & Hy). inversion Ey; subst.
      unfold entry_of. cbn [fst snd]. rewrite (map_get_self _ _ N Hy).
      rewrite Z.sub_diag, Z.gtb_ltb, Z.ltb_irrefl. reflexivity.
  - unfold findResolvedItems. apply filter_none. intros x Hx.
    apply negb_false_iff, set_has_In, in_map. exact Hx.
  - unfold findNewItems. apply filter_none. intros x Hx.
    apply negb_false_iff, set_has_In, in_map. exact Hx.
  - unfold generateComparisonSummary. rewrite !Z.sub_diag. reflexivity.
Qed.

Lemma X13_witness :
  criteriaComparison (comparison toLowerCase (neutral_record P_1A) (neutral_record P_1A))
  = map (fun x => mkCriterionComparison (criterionNumber x) (criterionName x)
                    (mkSide (rating x) (score x)) (mkSide (rating x) (score x))
                    0 false)
      (Report.criteriaScores (neutral_record P_1A)).
Proof.
  apply (X13_self_comparison_reports_no_change toLowerCase (neutral_record P_1A)).
  repeat constructor; cbn; intuition discriminate.
Defined.

(** X14. An item of the first list is reported as resolved exactly when no
    item of the second list has the same lower-case form, the reported items
    keep the order of the first list, and the new items of one comparison
    are the resolved items of the reverse comparison. *)
Theorem X14_resolved_and_new_items
    (lower : jsstring -> jsstring) (bf af : list jsstring) :
  (forall item, In item (findResolvedItems lower bf af)
                <-> In item bf /\ ~ In (lower item) (map lower af))
  /\ (exists keep, findResolvedItems lower bf af = filter keep bf)
  /\ findNewItems lower bf af = findResolvedItems lower af bf
  /\ (forall item, In item (findNewItems lower bf af)
                   <-> In item af /\ ~ In (lower item) (map lower bf)).
Proof.
  assert (H : forall l1 l2 item,
             In item (findResolvedItems lower l1 l2)
             <-> In item l1 /\ ~ In (lower item) (map lower l2)).
  { intros l1 l2 item. unfold findResolvedItems. rewrite filter_In.
    rewrite negb_true_iff, <- not_true_iff_false, set_has_In. reflexivity. }
  split; [apply H |]. split; [eexists; reflexivity |].
  split; [reflexivity |]. apply H.
Qed.

(** X15. The summary sentence depends on the two differences only.  It
    says that the scores decreased exactly when the overall score fell and
    the approval probability rose by no more than 10; a fall of the overall
    score with a rise of the approval probability above 10 is reported as
    good progress.  The "excellent" sentence needs both differences above 20,
    and the "no change" sentence an equal overall score with an approval
    difference of at most 10. *)
Theorem X15_comparison_summary_cases (bf af : Report.t) :
  let scoreDiff := Report.overallScore af - Report.overallScore bf in
  let approvalDiff := Report.approvalProbability af - Report.approvalProbability bf in
  (generateComparisonSummary bf af = DECREASED <-> scoreDiff < 0 /\ approvalDiff <= 10)
  /\ (generateComparisonSummary bf af = NO_CHANGE <-> scoreDiff = 0 /\ approvalDiff <= 10)
  /\ (generateComparisonSummary bf af = EXCELLENT <-> 20 < scoreDiff /\ 20 < approvalDiff)
  /\ (generateComparisonSummary bf af = MODEST
      <-> 0 < scoreDiff <= 10 /\ approvalDiff <= 10)
  /\ (scoreDiff < 0 -> 10 < approvalDiff -> generateComparisonSummary bf af = GOOD).
Proof.
  cbv zeta. unfold generateComparisonSummary.
  set (s := Report.overallScore af - Report.overallScore bf).
  set (a := Report.approvalProbability af - Report.approvalProbability bf).
  rewrite !Z.gtb_ltb.
  destruct (Z.ltb_spec 20 s); destruct (Z.ltb_spec 20 a);
    destruct (Z.ltb_spec 10 s); destruct (Z.ltb_spec 10 a);
    destruct (Z.ltb_spec 0 s); destruct (Z.eqb_spec s 0); cbn;
    try lia;
    repeat split; intros; try discriminate; try reflexivity; try lia.
Qed.

(** ** Calls that may fail *)

Module AsyncFacts.

Import Async.

Lemma backoff_S d n : backoff d (S n) = backoff d n ++ [d * 2 ^ Z.of_nat n].
Proof. unfold backoff. rewrite seq_S, map_app. reflexivity. Qed.

Lemma backoff_total d n : total_delay (backoff d n) = d * (2 ^ Z.of_nat n - 1).
Proof.
  unfold total_delay. induction n as [|n IH].
  - cbn. lia.
  - rewrite backoff_S, fold_left_app, IH. cbn [fold_left].
    rewrite Nat2Z.inj_succ, Z.pow_succ_r by lia. lia.
Qed.

Lemma backoff_length d n : List.length (backoff d n) = n.
Proof. unfold backoff. rewrite length_map, length_seq. reflexivity. Qed.

Lemma retry_loop_spec {T : Type} (fn : nat -> answer T) maxRetries initialDelay :
  forall todo attempt lastError waited,
    (attempt + todo = maxRetries)%nat ->
    (todo = 0%nat -> attempt = 0%nat /\ lastError = None) ->
    waited = backoff initialDelay attempt ->
    (forall k, (k < attempt)%nat -> exists e, fn k = Rejected e /\ retried e = true) ->
    let r := retry_loop fn maxRetries initialDelay todo attempt lastError waited in
    (calls r <= maxRetries)%nat
    /\ delays r = backoff initialDelay (calls r - 1)
    /\ (forall k, (k < calls r - 1)%nat -> exists e, fn k = Rejected e /\ retried e = true)
    /\ match result r with
       | Returns v => (1 <= calls r)%nat /\ fn (calls r - 1)%nat = Resolved v
       | Throws (Some e) =>
           (1 <= calls r)%nat /\ fn (calls r - 1)%nat = Rejected e
           /\ (retried e = false \/ calls r = maxRetries)
       | Throws None => maxRetries = 0%nat
       end.
Proof.
  induction todo as [|todo IH]; intros attempt lastError waited Hsum Hz Hw Hprev; cbn zeta.
  - destruct (Hz eq_refl) as [-> ->]. cbn [retry_loop calls delays result].
    subst waited. repeat split; try lia; intros k Hk; lia.
  - cbn [retry_loop].
    assert (Hlast : (S attempt - 1)%nat = attempt) by lia.
    destruct (fn attempt) as [v | e] eqn:Efn.
    + cbn [calls delays result]. rewrite Hlast.
      repeat split; auto; lia.
    + destruct (refused e) eqn:Eref.
      { cbn [calls delays result]. rewrite Hlast.
        repeat split; auto; try lia. left. unfold retried. rewrite Eref. reflexivity. }
      destruct (negb (isRetryable e) || Nat.eqb attempt (maxRetries - 1))%bool eqn:Estop.
      { cbn [calls delays result]. rewrite Hlast.
        repeat split; auto; try lia.
        apply orb_true_iff in Estop as [Hn | He].
        - left. unfold retried. apply negb_true_iff in Hn. rewrite Hn.
          apply andb_false_r.
        - right. apply Nat.eqb_eq in He. lia. }
      apply orb_false_iff in Estop as [Hr Hne].
      apply negb_false_iff in Hr. apply Nat.eqb_neq in Hne.
      apply IH.
      * lia.
      * intros ->. lia.
      * subst waited. rewrite backoff_S. reflexivity.
      * intros k Hk. destruct (Nat.eq_dec k attempt) as [-> | Hd].
        -- exists e. split; [exact Efn |]. unfold retried. rewrite Eref, Hr. reflexivity.
        -- apply Hprev. lia.
Qed.

Lemma download_loop_spec {Blob : Type} (fn : nat -> download Blob) maxRetries :
  forall todo attempt lastError waited,
    (attempt + todo = maxRetries + 1)%nat ->
    (1 <= attempt)%nat ->
    (attempt = 1%nat -> lastError = None) ->
    ((1 < attempt)%nat ->
       exists e, attempt_download (fn (attempt - 2)%nat) = inr e /\ lastError = Some e) ->
    waited = backoff 1000 (Nat.min (attempt - 1) (maxRetries - 1)) ->
    (forall k, (k < attempt - 1)%nat -> exists e, attempt_download (fn k) = inr e) ->
    let d := download_loop fn maxRetries todo attempt lastError waited in
    (download_calls d <= maxRetries)%nat
    /\ download_delays d = backoff 1000 (download_calls d - 1)
    /\ (forall k, (k < download_calls d - 1)%nat ->
          exists e, attempt_download (fn k) = inr e)
    /\ match data d, error d with
       | Some b, None =>
           (1 <= download_calls d)%nat
           /\ attempt_download (fn (download_calls d - 1)%nat) = inl b
       | None, Some e =>
           (1 <= maxRetries)%nat /\ download_calls d = maxRetries
           /\ attempt_download (fn (maxRetries - 1)%nat) = inr e
       | None, None => maxRetries = 0%nat /\ download_calls d = 0%nat
       | Some _, Some _ => False
       end.
Proof.
  induction todo as [|todo IH];
    intros attempt lastError waited Hsum H1 Hfirst Hlast Hw Hprev; cbn zeta.
  - cbn [download_loop download_calls download_delays data error].
    assert (Ha : (attempt - 1)%nat = maxRetries) by lia. rewrite Ha.
    split; [lia |]. split; [subst waited; rewrite Ha; f_equal; lia |].
    split; [intros k Hk; apply Hprev; lia |].
    destruct (Nat.eq_dec attempt 1) as [E1 | N1].
    + rewrite (Hfirst E1). lia.
    + destruct Hlast as (e & He & ->); [lia |].
      replace (attempt - 2)%nat with (maxRetries - 1)%nat in He by lia.
      repeat split; auto; lia.
  - cbn [download_loop].
    destruct (attempt_download (fn (attempt - 1)%nat)) as [b | e] eqn:Efn.
    + cbn [download_calls download_delays data error].
      split; [lia |]. split; [subst waited; f_equal; lia |].
      split; [exact Hprev |]. split; [lia | exact Efn].
    + apply IH.
      * lia.
      * lia.
      * intros E. lia.
      * intros _. exists e. split; [| reflexivity].
        replace (S attempt - 2)%nat with (attempt - 1)%nat by lia. exact Efn.
      * subst waited. destruct (Nat.ltb_spec attempt maxRetries) as [Hlt | Hge].
        -- replace (Nat.min (S attempt - 1) (maxRetries - 1)) with (S (attempt - 1)) by lia.
           replace (Nat.min (attempt - 1) (maxRetries - 1)) with (attempt - 1)%nat by lia.
           rewrite backoff_S. f_equal. f_equal. lia.
        -- f_equal. lia.
      * intros k Hk. destruct (Nat.eq_dec k (attempt - 1)) as [-> | Hd].
        -- exists e. exact Efn.
        -- apply Hprev. lia.
Qed.

End AsyncFacts.

Import Async AsyncFacts.

(** X16. [retryWithBackoff] calls at most [maxRetries] times.  Every call
    but the last was rejected with an error that is retried (status 429 or
    at least 500, or code ECONNRESET or ETIMEDOUT, and status not 400, 401
    or 403); the last call either resolved, and its value is returned, or
    was rejected, and its error is thrown, because it is not retried or
    because no call is left.  Before the call number k+1 the function waits
    [initialDelay * 2^k], so that it has waited
    [initialDelay * (2^(calls-1) - 1)] in all.  With [maxRetries = 0] it
    throws [null] without calling. *)
Theorem X16_retryWithBackoff_calls_and_delays
    (T : Type) (fn : nat -> answer T) (maxRetries : nat) (initialDelay : Z) :
  let r := retryWithBackoff fn maxRetries initialDelay in
  (calls r <= maxRetries)%nat
  /\ delays r = backoff initialDelay (calls r - 1)
  /\ total_delay (delays r) = initialDelay * (2 ^ Z.of_nat (calls r - 1) - 1)
  /\ (forall k, (k < calls r - 1)%nat -> exists e, fn k = Rejected e /\ retried e = true)
  /\ match result r with
     | Returns v => (1 <= calls r)%nat /\ fn (calls r - 1)%nat = Resolved v
     | Throws (Some e) =>
         (1 <= calls r)%nat /\ fn (calls r - 1)%nat = Rejected e
         /\ (retried e = false \/ calls r = maxRetries)
     | Throws None => maxRetries = 0%nat
     end.
Proof.
  cbv zeta. unfold retryWithBackoff.
  destruct (retry_loop_spec fn maxRetries initialDelay maxRetries 0 None [])
    as (H1 & H2 & H3 & H4).
  - reflexivity.
  - auto.
  - reflexivity.
  - intros k Hk. lia.
  - repeat split; auto. rewrite H2. apply backoff_total.
Qed.

(** X17. [downloadWithRetry] never throws and calls the storage at most
    [maxRetries] times, retrying after every kind of failure (an error in
    the answer, an answer without data, an exception).  It stops at the
    first answer that has data and no error, and returns that data without
    an error; when all [maxRetries] calls failed it returns no data and the
    error of the last call.  It waits 1000, 2000, 4000, ... milliseconds
    between calls and not after the last one.  With [maxRetries = 0] it
    returns neither data nor error. *)
Theorem X17_downloadWithRetry_calls_and_delays
    (Blob : Type) (fn : nat -> download Blob) (maxRetries : nat) :
  let d := downloadWithRetry fn maxRetries in
  (download_calls d <= maxRetries)%nat
  /\ download_delays d = backoff 1000 (download_calls d - 1)
  /\ (forall k, (k < download_calls d - 1)%nat ->
        exists e, attempt_download (fn k) = inr e)
  /\ match data d, error d with
     | Some b, None =>
         (1 <= download_calls d)%nat
         /\ attempt_download (fn (download_calls d - 1)%nat) = inl b
     | None, Some e =>
         (1 <= maxRetries)%nat /\ download_calls d = maxRetries
         /\ attempt_download (fn (maxRetries - 1)%nat) = inr e
     | None, None => maxRetries = 0%nat /\ download_calls d = 0%nat
     | Some _, Some _ => False
     end.
Proof.
  cbv zeta. unfold downloadWithRetry.
  apply (download_loop_spec fn maxRetries maxRetries 1 None []).
  - lia.
  - lia.
  - reflexivity.
  - intros H. lia.
  - reflexivity.
  - intros k Hk. lia.
Qed.

Lemma callClaude_spec anthropic (claudeCreate : nat -> answer (list ContentBlock)) :
  let c := callClaude anthropic claudeCreate in
  (calls c <= 3)%nat
  /\ delays c = backoff 1000 (calls c - 1)
  /\ (forall t,
        result c = Returns t
        <-> anthropic = true
            /\ exists content,
                 (1 <= calls c)%nat
                 /\ claudeCreate (calls c - 1)%nat = Resolved content
                 /\ find_text content = Some t).
Proof.
  cbv zeta. unfold callClaude. destruct anthropic; cbn [negb].
  2:{ cbn [calls delays result]. split; [lia |]. split; [reflexivity |].
      intros t. split; [discriminate | intros [H _]; discriminate]. }
  unfold retryWithBackoff.
  destruct (retry_loop_spec claudeCreate 3 1000 3 0 None []) as (H1 & H2 & _ & H4);
    [reflexivity | intros H; discriminate | reflexivity | intros k Hk; lia |].
  destruct (result (retry_loop claudeCreate 3 1000 3 0 None [])) as [content | [e|]].
  - destruct H4 as [Hc Hf].
    destruct (find_text content) as [text|] eqn:Ft; cbn [calls delays result];
      (split; [exact H1 |]); (split; [exact H2 |]); intros t; split.
    + intros H. inversion H; subst. split; [reflexivity |]. exists content. auto.
    + intros (_ & content' & _ & Hf' & Ht). rewrite Hf in Hf'. inversion Hf'; subst.
      congruence.
    + discriminate.
    + intros (_ & content' & _ & Hf' & Ht). rewrite Hf in Hf'. inversion Hf'; subst.
      congruence.
  - destruct H4 as (Hc & Hf & _). cbn [calls delays result].
    split; [exact H1 |]. split; [exact H2 |]. intros t. split; [discriminate |].
    intros (_ & content' & _ & Hf' & _). rewrite Hf in Hf'. discriminate.
  - discriminate.
Qed.

(** X18. [callAIWithFallback] asks Claude at most 3 times, waiting at most
    3000 ms between the calls, and OpenAI at most once.  It answers with
    provider [claude] exactly when [callClaude] returns, which is when the
    last answer of Claude holds a text block, whose text is the content.  It
    answers with provider [openai] exactly when [callClaude] threw, the
    OpenAI key is set and OpenAI resolved; the content is then the content
    of the first choice, or the empty string when that is missing or empty.
    When it throws, it throws the error of Claude, never the one of
    OpenAI. *)
Theorem X18_fallback_answers_and_errors
    (anthropic : bool) (claudeCreate : nat -> answer (list ContentBlock))
    (openaiKey : bool) (openaiCreate : answer (option jsstring)) :
  let c := callClaude anthropic claudeCreate in
  let f := callAIWithFallback anthropic claudeCreate openaiKey openaiCreate in
  claude_calls f = calls c /\ (calls c <= 3)%nat /\ (openai_calls f <= 1)%nat
  /\ 0 <= total_delay (delays c) <= 3000
  /\ (forall t,
        answered f = Returns (t, claude)
        <-> anthropic = true
            /\ exists content,
                 (1 <= calls c)%nat
                 /\ claudeCreate (calls c - 1)%nat = Resolved content
                 /\ find_text content = Some t)
  /\ (forall t,
        answered f = Returns (t, openai)
        <-> (exists e, result c = Throws e) /\ openaiKey = true
            /\ exists content, openaiCreate = Resolved content /\ t = or_else content [])
  /\ (forall e,
        answered f = Throws e
        <-> result c = Throws e
            /\ (openaiKey = false \/ exists e', openaiCreate = Rejected e'))
  /\ (openai_calls f = 1%nat <-> openaiKey = true /\ exists e, result c = Throws e).
Proof.
  cbv zeta. destruct (callClaude_spec anthropic claudeCreate) as (H1 & H2 & H3).
  cbv zeta in H1, H2, H3. unfold callAIWithFallback.
  set (c := callClaude anthropic claudeCreate) in *.
  assert (Hd : 0 <= total_delay (delays c) <= 3000).
  { rewrite H2, backoff_total.
    assert (Hc : (calls c - 1 = 0 \/ calls c - 1 = 1 \/ calls c - 1 = 2)%nat) by lia.
    destruct Hc as [-> | [-> | ->]]; cbn; lia. }
  destruct (result c) as [content | claudeError] eqn:Rc.
  - cbn [answered claude_calls openai_calls].
    split; [reflexivity |]. split; [exact H1 |]. split; [lia |]. split; [exact Hd |].
    split; [| split; [| split; [| split]]].
    + intros t. rewrite <- H3. split; intros H; inversion H; reflexivity.
    + intros t. split; [discriminate | intros ((e & He) & _); discriminate].
    + intros e. split; [discriminate | intros [He _]; discriminate].
    + discriminate.
    + intros (_ & e & He). discriminate.
  - destruct openaiKey; [unfold callOpenAI; cbn [negb]; destruct openaiCreate as [content | e'] |];
      cbn [answered claude_calls openai_calls];
      (split; [reflexivity |]); (split; [exact H1 |]); (split; [lia |]);
      (split; [exact Hd |]);
      (split; [intros t; rewrite <- H3; split; discriminate |]).
    + split; [| split; [| split]].
      * intros t. split.
        -- intros H. inversion H; subst. split; [eauto |]. split; [reflexivity |]. eauto.
        -- intros (_ & _ & content' & Hc & ->). inversion Hc; subst. reflexivity.
      * intros e. split; [discriminate |]. intros (_ & [H | (e' & H)]); discriminate.
      * intros _. split; [reflexivity | eauto].
      * reflexivity.
    + split; [| split; [| split]].
      * intros t. split; [discriminate |]. intros (_ & _ & content & H & _). discriminate.
      * intros e. split.
        -- intros H. inversion H; subst. split; [reflexivity | eauto].
        -- intros [H _]. inversion H; subst. reflexivity.
      * intros _. split; [reflexivity | eauto].
      * reflexivity.
    + split; [| split; [| split]].
      * intros t. split; [discriminate |]. intros (_ & H & _). discriminate.
      * intros e. split.
        -- intros H. inversion H; subst. split; [reflexivity | auto].
        -- intros [H _]. inversion H; subst. reflexivity.
      * discriminate.
      * intros [H _]. discriminate.
Qed.

(** ** The scoring pipeline *)

Import Pipeline.

Lemma parse_empty visaType :
  parseOfficerReport [] visaType = Ok (neutral_record visaType).
Proof. destruct visaType; vm_compute; reflexivity. Qed.

(** X19. [runOfficerScoring] fails exactly when [callAIWithFallback]
    fails, and with the same error: once a provider has answered, the
    parser cannot make it fail.  The output then holds the answer as
    [fullReport] and what [parseOfficerReport] reads in it.  Progress is
    reported as 5, 20 before the call and 70, 95 after it.  When Claude
    failed and OpenAI answers without content, the function returns the
    record of the empty report (score 55, RFE Likely, 40/45/15, every
    criterion Not Claimed) and not an error. *)
Theorem X19_scoring_fails_only_with_the_providers
    (visaType : VisaType)
    (anthropic : bool) (claudeCreate : nat -> answer (list ContentBlock))
    (openaiKey : bool) (openaiCreate : answer (option jsstring)) :
  let f := callAIWithFallback anthropic claudeCreate openaiKey openaiCreate in
  let run := runOfficerScoring visaType (answered f) in
  (forall e, snd run = Throws e <-> answered f = Throws e)
  /\ (forall out,
        snd run = Returns out
        <-> (exists provider, answered f = Returns (fullReport out, provider))
            /\ parseOfficerReport (fullReport out) visaType = Ok (structuredResults out))
  /\ map (fun p : Progress => snd (fst p)) (fst run)
     = match answered f with
       | Throws _ => [5; 20]
       | Returns _ => [5; 20; 70; 95]
       end
  /\ ((exists e, result (callClaude anthropic claudeCreate) = Throws e) ->
      openaiKey = true ->
      openaiCreate = Resolved None \/ openaiCreate = Resolved (Some []) ->
      snd run = Returns (mkRawScoringOutput (neutral_record visaType) [])).
Proof.
  cbv zeta. split; [| split; [| split]].
  - intros e. unfold runOfficerScoring.
    destruct (answered _) as [[raw provider] | e'].
    + destruct (parsed raw visaType) as (r & H & _). rewrite H. cbn [snd].
      split; discriminate.
    + cbn [snd]. split; intros E; inversion E; reflexivity.
  - intros out. unfold runOfficerScoring.
    destruct (answered _) as [[raw provider] | e'].
    + destruct (parsed raw visaType) as (r & H & _). rewrite H. cbn [snd]. split.
      * intros E. inversion E; subst. cbn [fullReport structuredResults]. eauto.
      * intros ((provider' & E) & P). inversion E; subst.
        destruct out as [s t]. cbn [fullReport structuredResults] in *.
        rewrite H in P. inversion P; subst. reflexivity.
    + cbn [snd]. split; [discriminate |]. intros ((provider' & E) & _). discriminate.
  - unfold runOfficerScoring.
    destruct (answered _) as [[raw provider] | e'].
    + destruct (parsed raw visaType) as (r & H & _). rewrite H. reflexivity.
    + reflexivity.
  - intros (e & He) -> Hc. unfold callAIWithFallback. rewrite He.
    assert (E : callOpenAI true openaiCreate = Returns []).
    { destruct Hc as [-> | ->]; reflexivity. }
    rewrite E. cbn [answered]. unfold runOfficerScoring.
    rewrite parse_empty. reflexivity.
Qed.

Lemma join_infix sep parts p : In p parts -> infix p (join sep parts).
Proof.
  induction parts as [|q ps IH]; [intros [] |].
  intros [<- | H]; cbn [join].
  - destruct ps as [|q' ps]; [apply infix_refl |].
    exists [], (sep ++ join sep (q' :: ps)). reflexivity.
  - destruct ps as [|q' ps]; [destruct H |].
    destruct (IH H) as (a & b & E). exists (q ++ sep ++ a), b.
    rewrite E, <- !app_assoc. reflexivity.
Qed.

Lemma files_content_header f files :
  exists rest, files_content (f :: files) = FILE_HEADER ++ rest.
Proof.
  unfold files_content. cbn [map join].
  destruct (map file_block files); unfold file_block; cbv zeta;
    rewrite <- !app_assoc; eexists; reflexivity.
Qed.

Lemma firstn_keeps_header n rest :
  (10 <= n)%nat ->
  startsWith FILE_HEADER (firstn n (FILE_HEADER ++ rest)) = true.
Proof.
  intros H. rewrite firstn_app, (@firstn_all2 _ n FILE_HEADER) by exact H.
  apply startsWith_app.
Qed.

Lemma firstn_truncated n (content notice : jsstring) :
  (n <= List.length content)%nat ->
  firstn n (firstn n content ++ notice) = firstn n content
  /\ List.length (firstn n content ++ notice) = (n + List.length notice)%nat.
Proof.
  intros H. split.
  - rewrite firstn_app, firstn_firstn, Nat.min_id, length_firstn.
    replace (n - Nat.min n (List.length content))%nat with 0%nat by lia.
    cbn [firstn]. apply app_nil_r.
  - rewrite length_app, length_firstn. lia.
Qed.

(** X20. The step that builds the document for the background scoring
    throws when the database is not configured or the session has no file.
    Otherwise it returns a text that starts with the header of the first
    file and is at most 150045 code units long.  Its first 150000 code units
    are those of the joined file texts; when these fit in 150000 code units
    the text is the joined file texts and holds the block of every file,
    and when they do not, the text is exactly 150045 code units long and
    ends with the truncation notice. *)
Theorem X20_document_content_is_bounded (files : list FileRow) :
  get_document_content false files = Throws (Some (Error "Database not configured"))
  /\ get_document_content true [] = Throws (Some (Error "No files found for this session"))
  /\ (files <> [] ->
      exists c,
        get_document_content true files = Returns c
        /\ startsWith FILE_HEADER c = true
        /\ (List.length c <= MAX_LENGTH + 45)%nat
        /\ firstn MAX_LENGTH c = firstn MAX_LENGTH (files_content files)
        /\ ((List.length (files_content files) <= MAX_LENGTH)%nat ->
            c = files_content files
            /\ forall f, In f files -> infix (file_block f) c)
        /\ ((MAX_LENGTH < List.length (files_content files))%nat ->
            List.length c = (MAX_LENGTH + 45)%nat
            /\ exists kept, c = kept ++ TRUNCATED)).
Proof.
  split; [reflexivity |]. split; [reflexivity |]. intros Hne.
  destruct files as [|f files]; [congruence |].
  unfold get_document_content. cbn [negb]. cbv zeta.
  destruct (files_content_header f files) as (rest & Hh).
  assert (Hmax : (10 <= MAX_LENGTH)%nat) by (unfold MAX_LENGTH; lia).
  destruct (Nat.ltb_spec MAX_LENGTH (List.length (files_content (f :: files)))) as [Hlong | Hfit].
  - destruct (firstn_truncated MAX_LENGTH (files_content (f :: files)) TRUNCATED) as [Hp Hl];
      [lia |].
    change (List.length TRUNCATED) with 45%nat in Hl.
    eexists. split; [reflexivity |]. split; [| split; [| split; [| split]]].
    + rewrite Hh, firstn_app, (@firstn_all2 _ MAX_LENGTH FILE_HEADER) by exact Hmax.
      rewrite <- app_assoc. apply startsWith_app.
    + lia.
    + exact Hp.
    + intros H. lia.
    + intros _. split; [exact Hl |]. eexists. reflexivity.
  - eexists. split; [reflexivity |]. split; [| split; [| split; [| split]]].
    + rewrite Hh. apply startsWith_app.
    + lia.
    + reflexivity.
    + intros _. split; [reflexivity |]. intros g Hg.
      apply join_infix, in_map, Hg.
    + intros H. lia.
Qed.

(** X21. The score route and the background function build the same text
    from the same files.  For a session with files and a request without
    [documentContent], both score the joined file texts when these fit in
    150000 code units; when they do not, both keep the same first 150000
    code units and differ in the notice they append.  A [documentContent]
    given in the request makes the score route ignore the files.  Without
    text to score (no [documentContent] and no file, or no database) the
    score route answers with status 400. *)
Theorem X21_both_routes_score_the_same_text
    (files : list FileRow) (x : JS.code) (documentContent : jsstring)
    (isSupabaseConfigured : bool) :
  (files <> [] ->
   exists c1 c2,
     get_document_content true files = Returns c1
     /\ score_route_content true None files = Content c2
     /\ firstn MAX_LENGTH c1 = firstn MAX_LENGTH c2
     /\ ((List.length (files_content files) <= MAX_LENGTH)%nat -> c1 = c2)
     /\ ((MAX_LENGTH < List.length (files_content files))%nat ->
         (List.length c2 = List.length c1 + 45)%nat))
  /\ score_route_content isSupabaseConfigured (Some (x :: documentContent)) files
     = score_route_content isSupabaseConfigured (Some (x :: documentContent)) []
  /\ score_route_content true None []
     = Respond 400 "No document content available for scoring"
  /\ score_route_content false None files
     = Respond 400 "No document content available for scoring"
  /\ score_route_content isSupabaseConfigured (Some []) files
     = score_route_content isSupabaseConfigured None files.
Proof.
  split; [| split; [| split; [| split]]].
  - intros Hne. destruct files as [|f files]; [congruence |].
    unfold get_document_content, score_route_content. cbn [negb or_else]. cbv zeta.
    destruct (files_content_header f files) as (rest & Hh).
    destruct (files_content (f :: files)) as [|y content] eqn:Ec; [discriminate |].
    destruct (Nat.ltb_spec MAX_LENGTH (List.length (y :: content))) as [Hlong | Hfit].
    + destruct (firstn_truncated MAX_LENGTH (y :: content) TRUNCATED) as [Hp Hl]; [lia |].
      destruct (firstn_truncated MAX_LENGTH (y :: content) TRUNCATED_PAGES) as [Hp' Hl'];
        [lia |].
      change (List.length TRUNCATED) with 45%nat in Hl.
      change (List.length TRUNCATED_PAGES) with 90%nat in Hl'.
      eexists. eexists. split; [reflexivity |]. split; [reflexivity |].
      split; [rewrite Hp, Hp'; reflexivity |]. split; intros H; lia.
    + eexists. eexists. split; [reflexivity |]. split; [reflexivity |].
      split; [reflexivity |]. split; [reflexivity |]. intros H. lia.
  - unfold score_route_content. cbn [or_else]. destruct isSupabaseConfigured; reflexivity.
  - reflexivity.
  - reflexivity.
  - reflexivity.
Qed.

(** ** Free and paid scorings *)

Import Usage.

(** X22. The two checks of the usage tracker agree: [needsPayment] asks
    for payment exactly when [hasFreeScoringAvailable] answers no.  That is
    the case only when the paywall is enabled, the database is configured
    and answers with a row that has no active subscription, no paid scoring
    left and a free scoring used; a disabled paywall, a missing database, a
    failed query and a missing row all give free access. *)
Theorem X22_payment_is_asked_iff_nothing_is_available
    (isPaywallEnabled isSupabaseConfigured : bool) (q : single) :
  needs (needsPayment isPaywallEnabled isSupabaseConfigured q)
  = negb (hasFreeScoringAvailable isPaywallEnabled isSupabaseConfigured q)
  /\ (needs (needsPayment isPaywallEnabled isSupabaseConfigured q) = true
      <-> isPaywallEnabled = true /\ isSupabaseConfigured = true
          /\ exists data,
               q = Found data
               /\ subscription_active data = false
               /\ paid_scorings_remaining data <= 0
               /\ 1 <= free_scorings_used data)
  /\ (needs (needsPayment isPaywallEnabled isSupabaseConfigured q) = true ->
      reason (needsPayment isPaywallEnabled isSupabaseConfigured q)
      = str "Free scoring used, no paid credits").
Proof.
  unfold needsPayment, hasFreeScoringAvailable.
  destruct isPaywallEnabled, isSupabaseConfigured; cbn [negb];
    try (split; [reflexivity |]; split; [split; [discriminate | intros (A & B & _); discriminate] | discriminate]).
  destruct q as [[f p s] | |]; cbn [free_scorings_used paid_scorings_remaining subscription_active];
    try (split; [reflexivity |]; split;
         [split; [discriminate | intros (_ & _ & d & E & _); discriminate] | discriminate]).
  rewrite Z.gtb_ltb.
  destruct s; destruct (Z.ltb_spec 0 p); destruct (Z.ltb_spec f 1); cbn [needs reason negb];
    (split; [reflexivity |]); split;
    try discriminate; try reflexivity;
    try (split; [discriminate |]; intros (_ & _ & d & E & Hs & Hp & Hf); inversion E; subst;
         cbn in Hs, Hp, Hf; try discriminate; lia).
  split; [| reflexivity]. intros _. split; [reflexivity |]. split; [reflexivity |].
  eexists. split; [reflexivity |]. cbn. repeat split; lia.
Qed.

Lemma write_same t fingerprint r : write t fingerprint r fingerprint = Some r.
Proof. unfold write. rewrite String.eqb_refl. reflexivity. Qed.

Lemma write_other t fingerprint r other :
  other <> fingerprint -> write t fingerprint r other = t other.
Proof.
  intros H. unfold write. destruct (String.eqb_spec other fingerprint); [contradiction |].
  reflexivity.
Qed.

Lemma recordScoringUsage_other cfg t fingerprint other :
  other <> fingerprint -> recordScoringUsage cfg fingerprint t other = t other.
Proof.
  intros H. unfold recordScoringUsage. destruct cfg; cbn [negb]; [| reflexivity].
  destruct (t fingerprint) as [[f p s]|]; cbn [subscription_active paid_scorings_remaining];
    [destruct s; [| destruct (p >? 0)] |]; apply write_other; exact H.
Qed.

(** X23. Recorded scorings spend the paid credits first and the free
    scoring last.  For a user without subscription who has [p] paid
    scorings left and has used [f] free scorings, [k] recorded scorings
    leave [max 0 (p - k)] paid scorings and count the [max 0 (k - p)]
    others as free scorings used; the rows of other fingerprints are
    untouched.  A further scoring is available afterwards exactly when
    [k < p], or [k = p] and no free scoring had been used at the start: who
    buys [p] credits before the first scoring gets [p + 1] scorings. *)
Theorem X23_paid_credits_are_spent_first
    (t : Table) (fingerprint : string) (f p : Z) (k : nat) :
  t fingerprint = Some (mkRow f p false) ->
  0 <= f -> 0 <= p ->
  let t' := Nat.iter k (recordScoringUsage true fingerprint) t in
  t' fingerprint
  = Some (mkRow (f + Z.max 0 (Z.of_nat k - p)) (Z.max 0 (p - Z.of_nat k)) false)
  /\ (forall other, other <> fingerprint -> t' other = t other)
  /\ (hasFreeScoringAvailable true true (select_single t' fingerprint) = true
      <-> Z.of_nat k < p + (if f =? 0 then 1 else 0)).
Proof.
  intros Ht Hf Hp. cbv zeta.
  assert (Hrow : Nat.iter k (recordScoringUsage true fingerprint) t fingerprint
                 = Some (mkRow (f + Z.max 0 (Z.of_nat k - p))
                           (Z.max 0 (p - Z.of_nat k)) false)).
  { induction k as [|k IH].
    - cbn [Nat.iter nat_rect]. rewrite Ht. f_equal. f_equal; lia.
    - cbn [Nat.iter nat_rect]. unfold recordScoringUsage at 1. cbn [negb].
      unfold Nat.iter in IH. rewrite IH.
      cbn [subscription_active paid_scorings_remaining free_scorings_used].
      rewrite Z.gtb_ltb.
      destruct (Z.ltb_spec 0 (Z.max 0 (p - Z.of_nat k))); rewrite write_same;
        f_equal; f_equal; lia. }
  split; [exact Hrow |]. split.
  - intros other Ho. clear Hrow. induction k as [|k IH]; [reflexivity |].
    cbn [Nat.iter nat_rect]. rewrite recordScoringUsage_other by exact Ho.
    apply IH.
  - unfold select_single. rewrite Hrow. unfold hasFreeScoringAvailable.
    cbn [negb subscription_active paid_scorings_remaining free_scorings_used].
    rewrite Z.gtb_ltb.
    destruct (Z.ltb_spec (f + Z.max 0 (Z.of_nat k - p)) 1);
      destruct (Z.ltb_spec 0 (Z.max 0 (p - Z.of_nat k)));
      destruct (Z.eqb_spec f 0); split; intros Hav; try reflexivity; try discriminate; lia.
Qed.

Lemma X23_witness :
  hasFreeScoringAvailable true true
    (select_single
       (Nat.iter 2 (recordScoringUsage true "a")
          (addPaidCredits true "a" 2 (fun _ => None))) "a") = true
  <-> Z.of_nat 2 < 2 + (if 0 =? 0 then 1 else 0).
Proof.
  apply (X23_paid_credits_are_spent_first
           (addPaidCredits true "a" 2 (fun _ => None)) "a" 0 2 2).
  - reflexivity.
  - lia.
  - lia.
Defined.

(** X24. A new fingerprint has one free scoring: a scoring is available
    before the first recorded scoring and none after it.  A subscription is
    never used up: once [activateSubscription] has run, any number of
    recorded scorings leaves a scoring available and the counters of the row
    as they were. *)
Theorem X24_free_scoring_and_subscription (t : Table) (fingerprint : string) :
  (t fingerprint = None ->
   hasFreeScoringAvailable true true (select_single t fingerprint) = true
   /\ recordScoringUsage true fingerprint t fingerprint = Some (mkRow 1 0 false)
   /\ hasFreeScoringAvailable true true
        (select_single (recordScoringUsage true fingerprint t) fingerprint) = false)
  /\ (forall k,
        let t0 := activateSubscription true fingerprint t in
        let t' := Nat.iter k (recordScoringUsage true fingerprint) t0 in
        t' fingerprint = t0 fingerprint
        /\ hasFreeScoringAvailable true true (select_single t' fingerprint) = true
        /\ needs (needsPayment true true (select_single t' fingerprint)) = false
        /\ match t fingerprint, t' fingerprint with
           | Some old, Some new =>
               free_scorings_used new = free_scorings_used old
               /\ paid_scorings_remaining new = paid_scorings_remaining old
           | None, Some new => free_scorings_used new = 0 /\ paid_scorings_remaining new = 0
           | _, None => False
           end).
Proof.
  split.
  - intros Hn. unfold select_single, recordScoringUsage. rewrite Hn. cbn [negb].
    rewrite write_same. repeat split.
  - intros k. cbv zeta.
    assert (H0 : exists r, activateSubscription true fingerprint t fingerprint = Some r
                           /\ subscription_active r = true
                           /\ match t fingerprint with
                              | Some old =>
                                  free_scorings_used r = free_scorings_used old
                                  /\ paid_scorings_remaining r = paid_scorings_remaining old
                              | None =>
                                  free_scorings_used r = 0 /\ paid_scorings_remaining r = 0
                              end).
    { unfold activateSubscription. cbn [negb].
      destruct (t fingerprint) as [old|]; rewrite write_same; eexists;
        (split; [reflexivity |]); cbn; auto. }
    destruct H0 as (r & Hr & Hs & Hc).
    assert (Hk : Nat.iter k (recordScoringUsage true fingerprint)
                   (activateSubscription true fingerprint t) fingerprint = Some r).
    { induction k as [|k IH]; [exact Hr |].
      cbn [Nat.iter nat_rect]. unfold recordScoringUsage at 1. cbn [negb].
      unfold Nat.iter in IH. rewrite IH, Hs. apply write_same. }
    rewrite Hk, Hr. split; [reflexivity |].
    unfold select_single. rewrite Hk.
    unfold hasFreeScoringAvailable, needsPayment. cbn [negb]. rewrite Hs.
    split; [destruct (_ <? 1); [reflexivity |]; destruct (_ >? 0); reflexivity |].
    split; [reflexivity |].
    destruct (t fingerprint); exact Hc.
Qed.

(** ** Document categories *)

(** X25. Both category detectors look for the letters "rfe" anywhere in
    the file name, in any casing, before anything else: a file name that
    holds them, as "Perfect_Attendance_Award.pdf" does, is an RFE document
    for both, whatever else it holds.  The session route makes it an RFE
    response exactly when the name also holds "response"; the OCR module
    decides by the text, and makes it the original RFE when the text is
    empty, as it is for a file whose text is extracted later.  With an
    empty text the OCR module never answers "rfe_response". *)
Theorem X25_rfe_in_a_file_name_wins (pre w suf : jsstring) :
  toLowerCase w = str "rfe" ->
  let filename := pre ++ w ++ suf in
  (Category.detectDocumentCategory filename = "rfe_response"%string
   \/ Category.detectDocumentCategory filename = "rfe_original"%string)
  /\ (Category.detectDocumentCategory filename = "rfe_response"%string
      <-> includes (toLowerCase filename) (str "response") = true)
  /\ (forall text,
        Ocr.detectDocumentCategory filename text = "rfe_response"%string
        \/ Ocr.detectDocumentCategory filename text = "rfe_original"%string)
  /\ Ocr.detectDocumentCategory filename [] = "rfe_original"%string
  /\ (forall other, Ocr.detectDocumentCategory other [] <> "rfe_response"%string).
Proof.
  intros Hw. cbv zeta.
  assert (Hr : Category.has (toLowerCase (pre ++ w ++ suf)) "rfe" = true).
  { unfold Category.has. rewrite !toLowerCase_app, Hw. apply includes_app. }
  unfold Category.detectDocumentCategory, Ocr.detectDocumentCategory. cbv zeta.
  rewrite Hr. cbn [andb orb].
  split; [| split; [| split; [| split]]].
  - destruct (Category.has _ "response"); auto.
  - unfold Category.has. destruct (includes _ (str "response")); split; auto; discriminate.
  - intros text. destruct (_ || _)%bool; auto.
  - reflexivity.
  - intros other. change (toLowerCase []) with (@nil JS.code).
    change (Category.has [] "request for evidence") with false.
    change (Category.has [] "request for additional evidence") with false.
    change (Category.has [] "in response to") with false.
    change (Category.has [] "response to rfe") with false.
    cbn [orb].
    repeat match goal with
           | |- context [if ?b then _ else _] => destruct b
           end; discriminate.
Qed.

Lemma X25_witness :
  Category.detectDocumentCategory (str "Pe" ++ str "Rfe" ++ str "ct_Attendance_Award.pdf")
  = "rfe_original"%string
  /\ Ocr.detectDocumentCategory (str "Pe" ++ str "Rfe" ++ str "ct_Attendance_Award.pdf") []
     = "rfe_original"%string.
Proof.
  destruct (X25_rfe_in_a_file_name_wins (str "Pe") (str "Rfe") (str "ct_Attendance_Award.pdf"))
    as (H1 & H2 & _ & H4 & _).
  - vm_compute. reflexivity.
  - split; [| exact H4].
    destruct H1 as [H1 | H1]; [| exact H1].
    apply H2 in H1. vm_compute in H1. discriminate.
Defined.

(** ** Session identifiers *)

Import Route.

Lemma times_app {R : Type} (c : cls) (r : regex) (k : state -> option R) :
  forall n (a t : jsstring) p cs,
    List.length a = n -> forallb c a = true ->
    mt (times n c r) (mkState p (a ++ t) cs) k
    = mt r (mkState (p + n) t cs) k.
Proof.
  induction n as [|n IH]; intros a t p cs Hl Hc.
  - destruct a; [| discriminate]. cbn [times app]. rewrite Nat.add_0_r. reflexivity.
  - destruct a as [|x a]; [discriminate |]. cbn [forallb] in Hc.
    apply andb_true_iff in Hc as [Hx Ha]. cbn [times mt app rest pos caps].
    rewrite Hx, IH by (cbn in Hl; auto; lia).
    replace (S p + n)%nat with (p + S n)%nat by lia. reflexivity.
Qed.

Lemma times_inv {R : Type} (c : cls) (r : regex) (k : state -> option R) :
  forall n (s : jsstring) p cs x,
    mt (times n c r) (mkState p s cs) k = Some x ->
    exists a t,
      s = a ++ t /\ List.length a = n /\ forallb c a = true
      /\ mt r (mkState (p + n) t cs) k = Some x.
Proof.
  induction n as [|n IH]; intros s p cs x H.
  - exists [], s. rewrite Nat.add_0_r. auto.
  - cbn [times mt rest pos caps] in H. destruct s as [|y s]; [discriminate |].
    destruct (c y) eqn:Ey; [| discriminate].
    apply IH in H as (a & t & -> & Hl & Hc & H).
    exists (y :: a), t. cbn [forallb List.length app]. rewrite Ey, Hc.
    replace (p + S n)%nat with (S p + n)%nat by lia. auto.
Qed.

Lemma hyphen_inv {R : Type} (r : regex) (k : state -> option R) p (s : jsstring) cs x :
  mt (Seq (Chr (eqc "-")) r) (mkState p s cs) k = Some x ->
  exists t, s = 45%N :: t /\ mt r (mkState (S p) t cs) k = Some x.
Proof.
  cbn [mt rest pos caps]. destruct s as [|y s]; [discriminate |].
  unfold eqc. destruct (N.eqb_spec y (N_of_ascii "-")) as [-> | _]; [| discriminate].
  intros H. exists s. auto.
Qed.

Lemma uuidRegex_spec (s : jsstring) : test uuidRegex s = true <-> is_uuid s.
Proof.
  unfold test, uuidRegex. rewrite exec_Bos. split.
  - destruct (mt _ _ _) as [st|] eqn:E; [intros _ | discriminate].
    apply times_inv in E as (a & t1 & -> & La & Ha & E).
    apply hyphen_inv in E as (t & -> & E).
    apply times_inv in E as (b & t2 & -> & Lb & Hb & E).
    apply hyphen_inv in E as (t & -> & E).
    apply times_inv in E as (c & t3 & -> & Lc & Hc & E).
    apply hyphen_inv in E as (t & -> & E).
    apply times_inv in E as (d & t4 & -> & Ld & Hd & E).
    apply hyphen_inv in E as (t & -> & E).
    apply times_inv in E as (e & t5 & -> & Le & He & E).
    cbn [mt rest] in E. destruct t5; [| discriminate].
    exists a, b, c, d, e. rewrite app_nil_r, !forallb_app, Ha, Hb, Hc, Hd, He.
    repeat split; auto.
  - intros (a & b & c & d & e & -> & La & Lb & Lc & Ld & Le & H).
    rewrite !forallb_app in H.
    apply andb_true_iff in H as [Ha H]. apply andb_true_iff in H as [Hb H].
    apply andb_true_iff in H as [Hc H]. apply andb_true_iff in H as [Hd He].
    rewrite (times_app hex _ _ 8 a) by assumption.
    cbn [mt rest pos caps]. unfold eqc at 1. rewrite N.eqb_refl.
    rewrite (times_app hex _ _ 4 b) by assumption.
    cbn [mt rest pos caps]. unfold eqc at 1. rewrite N.eqb_refl.
    rewrite (times_app hex _ _ 4 c) by assumption.
    cbn [mt rest pos caps]. unfold eqc at 1. rewrite N.eqb_refl.
    rewrite (times_app hex _ _ 4 d) by assumption.
    cbn [mt rest pos caps]. unfold eqc at 1. rewrite N.eqb_refl.
    rewrite <- (app_nil_r e), (times_app hex _ _ 12 e) by assumption.
    reflexivity.
Qed.

(** X26. The pattern that validates session identifiers accepts exactly
    the 36-unit texts made of groups of 8, 4, 4, 4 and 12 hexadecimal
    digits (0-9, a-f, A-F) with one hyphen between them: nothing may come
    before or after, not even a line feed, and the version and variant
    digits of a UUID are not checked. *)
Theorem X26_uuidRegex_accepts_exactly_uuid_texts (s : jsstring) :
  (test uuidRegex s = true <-> is_uuid s)
  /\ (test uuidRegex s = true -> List.length s = 36%nat)
  /\ (forall x : N, hex x = true
                      <-> (48 <= x <= 57 \/ 97 <= x <= 102 \/ 65 <= x <= 70)%N).
Proof.
  pose proof (uuidRegex_spec s) as Hiff.
  split; [exact Hiff |]. split.
  - intros H. apply Hiff in H as (a & b & c & d & e & -> & La & Lb & Lc & Ld & Le & _).
    repeat (rewrite length_app || cbn [List.length]). lia.
  - intros x. unfold hex, digit.
    rewrite !orb_true_iff, !andb_true_iff, !N.leb_le. tauto.
Qed.

Lemma invalid_spec (id : option jsstring) :
  invalid id = false <-> exists s, id = Some s /\ is_uuid s.
Proof.
  unfold invalid. destruct id as [[|x s]|].
  - split; [discriminate |]. intros (s & E & H). inversion E; subst.
    apply uuidRegex_spec in H. discriminate.
  - rewrite negb_false_iff, uuidRegex_spec. split.
    + intros H. eauto.
    + intros (s' & E & H). inversion E; subst. exact H.
  - split; [discriminate |]. intros (s & E & _). discriminate.
Qed.

(** X27. The comparison handler checks in this order: the first
    identifier (status 400 unless it is the text of a UUID), the second
    identifier (400), the database (503 when it is not configured), the two
    stored results (500 when reading either of them fails, even if the
    other is missing; else 404 for the first that is missing).  It answers
    with a comparison exactly when both identifiers are UUID texts, the
    database is configured and both results are stored, and the comparison
    is then the one of these two results. *)
Theorem X27_comparison_handler_checks_in_order
    (lower : jsstring -> jsstring) (beforeSessionId afterSessionId : option jsstring)
    (isSupabaseConfigured : bool) (getScoringResults : jsstring -> Stored) :
  let valid (id : option jsstring) := exists s, id = Some s /\ is_uuid s in
  let stored (id : option jsstring) (r : Stored) :=
    exists s, id = Some s /\ getScoringResults s = r in
  let response :=
    POST lower beforeSessionId afterSessionId isSupabaseConfigured getScoringResults in
  (response = Refused 400 "Valid beforeSessionId is required" <-> ~ valid beforeSessionId)
  /\ (response = Refused 400 "Valid afterSessionId is required"
      <-> valid beforeSessionId /\ ~ valid afterSessionId)
  /\ (response = Refused 503 "Database not configured"
      <-> valid beforeSessionId /\ valid afterSessionId /\ isSupabaseConfigured = false)
  /\ (response = Crashed
      <-> valid beforeSessionId /\ valid afterSessionId /\ isSupabaseConfigured = true
          /\ (stored beforeSessionId QueryFailed \/ stored afterSessionId QueryFailed))
  /\ (response = Refused 404 "Before scoring results not found"
      <-> valid beforeSessionId /\ valid afterSessionId /\ isSupabaseConfigured = true
          /\ stored beforeSessionId Missing /\ ~ stored afterSessionId QueryFailed)
  /\ (response = Refused 404 "After scoring results not found"
      <-> valid beforeSessionId /\ valid afterSessionId /\ isSupabaseConfigured = true
          /\ (exists rb, stored beforeSessionId (Row rb)) /\ stored afterSessionId Missing)
  /\ (forall c,
        response = Compared c
        <-> valid beforeSessionId /\ valid afterSessionId /\ isSupabaseConfigured = true
            /\ exists rb ra,
                 stored beforeSessionId (Row rb) /\ stored afterSessionId (Row ra)
                 /\ c = Compare.comparison lower rb ra).
Proof.
  cbv zeta. unfold POST.
  pose proof (invalid_spec beforeSessionId) as Hb.
  pose proof (invalid_spec afterSessionId) as Ha.
  assert (Cases :
            (invalid beforeSessionId = true
             /\ ~ exists s, beforeSessionId = Some s /\ is_uuid s)
            \/ (exists b, beforeSessionId = Some b /\ is_uuid b
                          /\ invalid beforeSessionId = false
                /\ ((invalid afterSessionId = true
                     /\ ~ exists s, afterSessionId = Some s /\ is_uuid s)
                    \/ exists a, afterSessionId = Some a /\ is_uuid a
                                 /\ invalid afterSessionId = false))).
  { destruct (invalid beforeSessionId).
    - left. split; [reflexivity |]. intros H. apply Hb in H. discriminate.
    - right. destruct Hb as [Hb _]. destruct (Hb eq_refl) as (b & Eb & Ub).
      exists b. repeat split; auto.
      destruct (invalid afterSessionId).
      + left. split; [reflexivity |]. intros H. apply Ha in H. discriminate.
      + right. destruct Ha as [Ha _]. destruct (Ha eq_refl) as (a & Ea & Ua). eauto. }
  clear Hb Ha.
  destruct Cases as [[Ib Nb] | (b & -> & Ub & Ib & [[Ia Na] | (a & -> & Ua & Ia)])];
    rewrite Ib; try rewrite Ia; cbn [negb];
    [ | | destruct isSupabaseConfigured; cbn [negb];
          [destruct (getScoringResults b) as [rb| |] eqn:Gb;
           destruct (getScoringResults a) as [ra| |] eqn:Ga |] ];
    repeat match goal with |- _ /\ _ => split end; try intros c;
    (split;
     [ intros E; try discriminate E; try (inversion E; subst);
       repeat match goal with
              | |- _ /\ _ => split
              | |- exists _, _ => eexists
              end;
       eauto; try (intros (s & Es & Gs); inversion Es; subst; congruence);
       try (left; eexists; split; [reflexivity | assumption]);
       try (right; eexists; split; [reflexivity | assumption])
     | intros HR; try reflexivity;
       repeat match goal with
              | H : exists _, _ |- _ => destruct H
              | H : _ /\ _ |- _ => destruct H
              | H : _ \/ _ |- _ => destruct H
              | H : Some _ = Some _ |- _ => inversion H; clear H; subst
              end;
       try congruence;
       try (exfalso;
            match goal with
            | H : ~ _ |- _ => solve [apply H; eauto]
            end) ]).
Qed.

(** ** How results are shown *)

Import Display.

(** X28. For every parsed report the colour of the overall score and the
    colour of the overall rating agree, on the result page and in the PDF
    export: green from 70, amber from 50, red below.  The scores that the
    parser derives from a rating do not all fall in the colour of that
    rating: the score of Adequate (70) is shown green beside an amber
    rating, and the score of Weak (50) amber beside a red rating, while
    Strong (85), Insufficient (30) and Not Claimed (0) are shown in one
    colour.  A report that holds nothing but a criterion-2 section rated
    Adequate shows criterion 2 with a green 70 beside an amber rating. *)
Theorem X28_score_and_rating_colours :
  (forall report visaType,
     exists r,
       parseOfficerReport report visaType = Ok r
       /\ (let s := Report.overallScore r in
           let t := overall_text (Report.overallRating r) in
           (70 <= s
            /\ getScoreClass s = "score-green"%string
            /\ getVerdictClass t = "verdict-approve"%string
            /\ getScoreColor s = "text-green-600"%string
            /\ getScoreBg s = "bg-green-50 border-green-200"%string
            /\ getRatingColor t = "bg-green-100 text-green-700 border-green-300"%string)
           \/ (50 <= s < 70
               /\ getScoreClass s = "score-amber"%string
               /\ getVerdictClass t = "verdict-rfe"%string
               /\ getScoreColor s = "text-amber-500"%string
               /\ getScoreBg s = "bg-amber-50 border-amber-200"%string
               /\ getRatingColor t = "bg-amber-100 text-amber-700 border-amber-300"%string)
           \/ (s < 50
               /\ getScoreClass s = "score-red"%string
               /\ getVerdictClass t = "verdict-denial"%string
               /\ getScoreColor s = "text-red-500"%string
               /\ getScoreBg s = "bg-red-50 border-red-200"%string
               /\ getRatingColor t = "bg-red-100 text-red-700 border-red-300"%string)))
  /\ (forall rt : CriterionRating,
        let shown :=
          (getScoreColor (ratingToScore rt), getRatingColor (rating_text rt),
           getRatingClass (rating_text rt)) in
        match rt with
        | Strong =>
            shown = ("text-green-600", "bg-green-100 text-green-700 border-green-300",
                     "rating-strong")%string
        | Adequate =>
            shown = ("text-green-600", "bg-amber-100 text-amber-700 border-amber-300",
                     "rating-adequate")%string
        | Weak =>
            shown = ("text-amber-500", "bg-red-100 text-red-700 border-red-300",
                     "rating-weak")%string
        | Insufficient | NotClaimed =>
            shown = ("text-red-500", "bg-red-100 text-red-700 border-red-300",
                     "rating-weak")%string
        end)
  /\ (exists r cs,
        parseOfficerReport
          (str ("### Criterion 2: Membership" ++ nl ++ "**My Rating:** Adequate" ++ nl))
          O_1A = Ok r
        /\ nth_error (Report.criteriaScores r) 1 = Some cs
        /\ rating cs = Adequate /\ score cs = 70
        /\ getScoreColor (score cs) = "text-green-600"%string
        /\ getRatingColor (rating_text (rating cs))
           = "bg-amber-100 text-amber-700 border-amber-300"%string).
Proof.
  split; [| split].
  - intros report visaType.
    destruct (parsed report visaType) as (r & H & _ & Hr & _).
    exists r. split; [exact H |].
    cbv zeta. rewrite Hr.
    unfold getOverallRating, getScoreClass, getScoreColor, getScoreBg.
    destruct (Z.geb_spec (Report.overallScore r) 70);
      [left; repeat split; auto |].
    destruct (Z.geb_spec (Report.overallScore r) 50);
      [right; left | right; right]; repeat split; auto; lia.
  - intros rt. destruct rt; reflexivity.
  - eexists. eexists. split; [vm_compute; reflexivity |].
    split; [reflexivity |]. repeat split.
Qed.

(** ** Storage names *)

Import Upload.

Lemma squeeze_head x t : exists r, squeeze (x :: t) = x :: r.
Proof.
  revert x. induction t as [|y t IH]; intros x; [exists []; reflexivity |].
  cbn [squeeze].
  destruct (N.eqb_spec x UNDERSCORE) as [-> | Hx];
    [destruct (N.eqb_spec y UNDERSCORE) as [-> | Hy] |]; cbn [andb].
  - apply IH.
  - eexists. reflexivity.
  - eexists. reflexivity.
Qed.

Lemma squeeze_not_doubled s : doubled (squeeze s) = false.
Proof.
  induction s as [|x t IH]; [reflexivity |].
  destruct t as [|y t]; [reflexivity |].
  change (squeeze (x :: y :: t))
    with (if (N.eqb x UNDERSCORE && N.eqb y UNDERSCORE)%bool
          then squeeze (y :: t) else x :: squeeze (y :: t)).
  destruct (N.eqb x UNDERSCORE && N.eqb y UNDERSCORE)%bool eqn:E; [exact IH |].
  destruct (squeeze_head y t) as (r & Hr). rewrite Hr in IH |- *.
  cbn [doubled]. cbn [doubled] in IH. unfold UNDERSCORE in E. rewrite E, IH.
  reflexivity.
Qed.

Lemma squeeze_Forall (P : JS.code -> Prop) s : Forall P s -> Forall P (squeeze s).
Proof.
  induction 1 as [|x t Hx Ht IH]; [constructor |].
  destruct t as [|y t]; [repeat constructor; exact Hx |].
  change (squeeze (x :: y :: t))
    with (if (N.eqb x UNDERSCORE && N.eqb y UNDERSCORE)%bool
          then squeeze (y :: t) else x :: squeeze (y :: t)).
  destruct (_ && _)%bool; [exact IH | constructor; assumption].
Qed.

Lemma squeeze_fixed s : doubled s = false -> squeeze s = s.
Proof.
  induction s as [|x t IH]; [reflexivity |].
  destruct t as [|y t]; [reflexivity |].
  change (doubled (x :: y :: t))
    with ((N.eqb x 95 && N.eqb y 95) || doubled (y :: t))%bool.
  change (squeeze (x :: y :: t))
    with (if (N.eqb x UNDERSCORE && N.eqb y UNDERSCORE)%bool
          then squeeze (y :: t) else x :: squeeze (y :: t)).
  unfold UNDERSCORE. intros H. apply orb_false_iff in H as [H1 H2].
  rewrite H1, (IH H2). reflexivity.
Qed.

Lemma doubled_firstn n : forall s, doubled s = false -> doubled (firstn n s) = false.
Proof.
  induction n as [|n IH]; intros s H; [reflexivity |].
  destruct s as [|x t]; [reflexivity |].
  destruct t as [|y t]; [destruct n; reflexivity |].
  change (doubled (x :: y :: t))
    with ((N.eqb x 95 && N.eqb y 95) || doubled (y :: t))%bool in H.
  apply orb_false_iff in H as [H1 H2].
  specialize (IH (y :: t) H2). cbn [firstn] in IH |- *.
  destruct n as [|n]; [reflexivity |]. cbn [firstn] in IH |- *.
  change (doubled (x :: y :: firstn n t))
    with ((N.eqb x 95 && N.eqb y 95) || doubled (y :: firstn n t))%bool.
  rewrite H1, IH. reflexivity.
Qed.

Lemma replace_unsafe_fixed s :
  Forall (fun c => safe c = true \/ c = UNDERSCORE) s -> replace_unsafe s = s.
Proof.
  induction 1 as [|x t Hx _ IH]; [reflexivity |].
  unfold replace_unsafe in *. cbn [map]. rewrite IH. f_equal.
  destruct Hx as [-> | ->]; reflexivity.
Qed.

Lemma firstn_Forall {A : Type} (P : A -> Prop) n :
  forall l, Forall P l -> Forall P (firstn n l).
Proof.
  induction n as [|n IH]; intros l H; [constructor |].
  destruct H as [|x t Hx Ht]; cbn [firstn]; constructor; auto.
Qed.

(** X29. A sanitized file name is at most 100 code units long, consists of
    ASCII letters, digits, periods, hyphens and underscores only (so it
    holds no slash and adds no segment to the storage path), and never has
    two underscores in a row.  Sanitizing is idempotent, and a name of at
    most 100 letters, digits, periods and hyphens is kept as it is. *)
Theorem X29_sanitized_names_are_safe (filename : jsstring) :
  let name := sanitizeFilename filename in
  (List.length name <= 100)%nat
  /\ Forall (fun c => safe c = true \/ c = UNDERSCORE) name
  /\ ~ In 47%N name
  /\ doubled name = false
  /\ sanitizeFilename name = name
  /\ (forallb safe filename = true -> (List.length filename <= 100)%nat ->
      name = filename).
Proof.
  cbv zeta. unfold sanitizeFilename.
  assert (Hall : Forall (fun c => safe c = true \/ c = UNDERSCORE)
                   (firstn 100 (squeeze (replace_unsafe filename)))).
  { apply firstn_Forall, squeeze_Forall. unfold replace_unsafe.
    apply Forall_forall. intros c Hc. apply in_map_iff in Hc as (x & <- & _).
    destruct (safe x) eqn:E; auto. }
  assert (Hd : doubled (firstn 100 (squeeze (replace_unsafe filename))) = false)
    by apply doubled_firstn, squeeze_not_doubled.
  assert (Hl : (List.length (firstn 100 (squeeze (replace_unsafe filename))) <= 100)%nat)
    by (rewrite length_firstn; lia).
  split; [exact Hl |]. split; [exact Hall |]. split; [| split; [exact Hd | split]].
  - intros Hin. rewrite Forall_forall in Hall. destruct (Hall _ Hin); discriminate.
  - rewrite (replace_unsafe_fixed _ Hall), (squeeze_fixed _ Hd).
    apply firstn_all2. exact Hl.
  - intros Hs Hlen.
    assert (Hsafe : Forall (fun c => safe c = true) filename)
      by (apply Forall_forall; intros c Hc; rewrite forallb_forall in Hs; auto).
    rewrite replace_unsafe_fixed
      by (eapply Forall_impl; [| exact Hsafe]; cbn; auto).
    rewrite squeeze_fixed, firstn_all2; auto.
    clear Hall Hd Hl Hs Hlen. induction Hsafe as [|x t Hx Ht IH]; [reflexivity |].
    destruct t as [|y t]; [reflexivity |].
    change (doubled (x :: y :: t))
      with ((N.eqb x 95 && N.eqb y 95) || doubled (y :: t))%bool.
    rewrite IH. destruct (N.eqb_spec x 95) as [-> | _]; [discriminate | reflexivity].
Qed.

(** ** The Stripe webhook *)

Import Webhook.

Lemma addPaidCredits_other cfg t fp credits other :
  other <> fp -> addPaidCredits cfg fp credits t other = t other.
Proof.
  intros H. unfold addPaidCredits. destruct cfg; cbn [negb]; [| reflexivity].
  destruct (t fp); apply write_other; exact H.
Qed.

Lemma activateSubscription_other cfg t fp other :
  other <> fp -> activateSubscription cfg fp t other = t other.
Proof.
  intros H. unfold activateSubscription. destruct cfg; cbn [negb]; [| reflexivity].
  destruct (t fp); apply write_other; exact H.
Qed.

(** No operation ends a subscription. *)
Lemma step_keeps_subscription cfg op (t : Table) fp r :
  t fp = Some r -> subscription_active r = true ->
  exists r', step cfg t op fp = Some r' /\ subscription_active r' = true.
Proof.
  intros Ht Hs.
  assert (Hrec : forall fp',
            exists r', recordScoringUsage cfg fp' t fp = Some r'
                       /\ subscription_active r' = true).
  { intros fp'. destruct (string_dec fp fp') as [<- | Hd].
    - unfold recordScoringUsage. destruct cfg; cbn [negb]; [| eauto].
      rewrite Ht, Hs, write_same. eauto.
    - rewrite recordScoringUsage_other by exact Hd. eauto. }
  assert (Hadd : forall fp' n,
            exists r', addPaidCredits cfg fp' n t fp = Some r'
                       /\ subscription_active r' = true).
  { intros fp' n. destruct (string_dec fp fp') as [<- | Hd].
    - unfold addPaidCredits. destruct cfg; cbn [negb]; [| eauto].
      rewrite Ht, write_same. eexists. split; [reflexivity | exact Hs].
    - rewrite addPaidCredits_other by exact Hd. eauto. }
  assert (Hact : forall fp',
            exists r', activateSubscription cfg fp' t fp = Some r'
                       /\ subscription_active r' = true).
  { intros fp'. destruct (string_dec fp fp') as [<- | Hd].
    - unfold activateSubscription. destruct cfg; cbn [negb]; [| eauto].
      rewrite Ht, write_same. eexists. split; reflexivity.
    - rewrite activateSubscription_other by exact Hd. eauto. }
  destruct op as [[[f sc m] | | |] | fp']; cbn [step handle]; eauto.
  cbn [fingerprint scorings mode].
  destruct f as [[|c f]|]; eauto.
  destruct m; eauto; destruct (parseInt _) as [n|]; eauto; destruct (n >? 0); eauto.
Qed.

(** X30. The webhook never ends a subscription: the handler leaves the
    usage table as it is on [customer.subscription.deleted] and on
    [invoice.payment_failed], and once a fingerprint has an active
    subscription, no sequence of webhook events and recorded scorings, for
    this or any other fingerprint, makes a payment necessary again.  A
    completed checkout changes the table only if its metadata holds a
    non-empty fingerprint; a one-time purchase whose [scorings] entry is a
    run of digits adds that many paid scorings when the number is positive
    (and adds them again when the event is delivered again), and nothing
    when the entry is missing. *)
Theorem X30_the_webhook_never_ends_a_subscription
    (isSupabaseConfigured : bool) (t : Table) :
  handle isSupabaseConfigured customer_subscription_deleted t = t
  /\ handle isSupabaseConfigured invoice_payment_failed t = t
  /\ (forall fp r ops,
        t fp = Some r -> subscription_active r = true ->
        exists r',
          after isSupabaseConfigured ops t fp = Some r'
          /\ subscription_active r' = true
          /\ hasFreeScoringAvailable true true
               (select_single (after isSupabaseConfigured ops t) fp) = true
          /\ needs (needsPayment true true
                      (select_single (after isSupabaseConfigured ops t) fp)) = false)
  /\ (forall sc m,
        handle isSupabaseConfigured (checkout_session_completed (mkSession None sc m)) t = t
        /\ handle isSupabaseConfigured
             (checkout_session_completed (mkSession (Some EmptyString) sc m)) t = t)
  /\ (forall c fp digits,
        digits <> [] -> forallb digit digits = true ->
        let event :=
          checkout_session_completed (mkSession (Some (String c fp)) (Some digits) payment) in
        handle isSupabaseConfigured event t
        = (if digits_val digits >? 0
           then addPaidCredits isSupabaseConfigured (String c fp) (digits_val digits) t
           else t)
        /\ (0 < digits_val digits ->
            forall other,
              after true [Received event; Received event] t other
              = addPaidCredits true (String c fp) (digits_val digits)
                  (addPaidCredits true (String c fp) (digits_val digits) t) other))
  /\ (forall c fp,
        handle isSupabaseConfigured
          (checkout_session_completed (mkSession (Some (String c fp)) None payment)) t = t).
Proof.
  split; [reflexivity |]. split; [reflexivity |]. split; [| split; [| split]].
  - intros fp r ops. revert t r. induction ops as [|op ops IH]; intros t r Ht Hs.
    + cbn [after fold_left]. exists r. unfold select_single. rewrite Ht.
      unfold hasFreeScoringAvailable, needsPayment. cbn [negb]. rewrite Hs.
      repeat split; auto.
      destruct (_ <? 1); [reflexivity |]. destruct (_ >? 0); reflexivity.
    + destruct (step_keeps_subscription isSupabaseConfigured op t fp r Ht Hs)
        as (r1 & H1 & Hs1).
      apply (IH _ _ H1 Hs1).
  - intros sc m. split; reflexivity.
  - intros c fp digits Hne Hd. cbv zeta.
    destruct (parseInt_digits digits (conj Hne Hd)) as [Hp _].
    assert (Hh : forall t',
              handle isSupabaseConfigured
                (checkout_session_completed
                   (mkSession (Some (String c fp)) (Some digits) payment)) t'
              = (if digits_val digits >? 0
                 then addPaidCredits isSupabaseConfigured (String c fp) (digits_val digits) t'
                 else t')).
    { intros t'. cbn [handle fingerprint scorings mode].
      destruct digits as [|d ds]; [congruence |]. cbn [Async.or_else].
      rewrite Hp. reflexivity. }
    split; [apply Hh |]. intros Hpos other.
    cbn [after fold_left step].
    assert (Hh' : forall t',
              handle true
                (checkout_session_completed
                   (mkSession (Some (String c fp)) (Some digits) payment)) t'
              = addPaidCredits true (String c fp) (digits_val digits) t').
    { intros t'. cbn [handle fingerprint scorings mode].
      destruct digits as [|d ds]; [congruence |]. cbn [Async.or_else].
      rewrite Hp. destruct (Z.gtb_spec (digits_val (d :: ds)) 0); [reflexivity | lia]. }
    rewrite !Hh'. reflexivity.
  - intros c fp. cbn [handle fingerprint scorings mode Async.or_else].
    reflexivity.
Qed.
